(** * Answer-evaluation pipeline of the interview assistant

    A shallow embedding of [backend/app/services/ml_engine.py], of the
    scores of [backend/app/services/voice_analysis_service.py] and of the
    resume comparison of [backend/app/services/resume_service.py], together
    with the constants of [backend/app/config.py], and the properties of the
    scoring pipeline proved about it.

    Conventions of the embedding.
    - Python [float] values are exact rationals ([Q]); the rounding error of
      binary floating point is not modelled.  [round(x, n)] rounds half to
      even.  Integer-valued quantities (penalties, caps, counts) are [Z] or
      [nat].  The program and its embedding can part in two places.  Where
      a value lies exactly half way between two decimals, the float that
      the program rounds lies a little to one side, so [round] may return
      either neighbour: a property below that bounds the distance between
      a rounded score and the value it rounds allows half a unit of the
      last decimal.
      And a float is bounded: beyond about 1.8e308 a quotient is infinite,
      which only the speaking rate can reach (see [finite_rate]).
    - A Python [str] is a [string] whose characters are read as the code
      points 0..255.
    - A [dict] with a fixed set of keys is a record; a key that is added
      later in the function is an [option] field.
    - A regular expression is a syntax tree, matched by the backtracking
      matcher of the module [Re].
    - The collaborators that live outside the text pipeline (sentence
      encoder, grammar checker, voice analyser, numpy's norm and standard
      deviation) are the fields of the record [Env]. *)

From Stdlib Require Import QArith Qminmax Qround Qabs Lqa Lia ZArith.
From Stdlib Require Import String Ascii List Bool.
From stdpp Require Import gmap strings pretty.
Import ListNotations.

Open Scope Q_scope.
Open Scope string_scope.

(* ================================================================= *)
(** ** Python numbers *)

Module Py.

(** [a < b] on floats. *)
Definition ltb (a b : Q) : bool := negb (Qle_bool b a).
(** [a <= b] on floats. *)
Definition leb (a b : Q) : bool := Qle_bool a b.

(** [int(x)]: truncation toward zero. *)
Definition int (x : Q) : Z := Z.quot (Qnum x) (Z.pos (Qden x)).

(** Rounding to the nearest integer, ties to the even one. *)
Definition round_half_even (x : Q) : Z :=
  let f := Qfloor x in
  match Qcompare (x - inject_Z f) (1 # 2) with
  | Lt => f
  | Gt => (f + 1)%Z
  | Eq => if Z.even f then f else (f + 1)%Z
  end.

(** [round(x, ndigits)]. *)
Definition round (x : Q) (ndigits : nat) : Q :=
  let scale := inject_Z (10 ^ Z.of_nat ndigits) in
  inject_Z (round_half_even (x * scale)) / scale.

(** [len(xs)] as a float operand. *)
Definition of_nat (n : nat) : Q := inject_Z (Z.of_nat n).

End Py.

(* ================================================================= *)
(** ** Python strings *)

Module Str.

Definition code (c : ascii) : N := N_of_ascii c.

(** [c.isspace()] on the code points 0..255. *)
Definition isspace (c : ascii) : bool :=
  let n := code c in
  ((9 <=? n) && (n <=? 13) || (28 <=? n) && (n <=? 32) || (n =? 133) || (n =? 160))%N.

(** [c.lower()] on the code points 0..255. *)
Definition lower_char (c : ascii) : ascii :=
  let n := code c in
  if ((65 <=? n) && (n <=? 90) || (192 <=? n) && (n <=? 222) && negb (n =? 215))%N
  then ascii_of_N (n + 32)
  else c.

(** [s.lower()] *)
Fixpoint lower (s : string) : string :=
  match s with
  | EmptyString => EmptyString
  | String c s' => String (lower_char c) (lower s')
  end.

(** [len(s)] *)
Definition len (s : string) : nat := String.length s.

(** [not s]: the empty string is falsy. *)
Definition falsy (s : string) : bool :=
  match s with EmptyString => true | String _ _ => false end.

(** [s.split()]: the maximal runs of non-whitespace characters. *)
Fixpoint split (s : string) : list string :=
  match s with
  | EmptyString => []
  | String c s' =>
      if isspace c then split s'
      else match s' with
           | EmptyString => [String c EmptyString]
           | String c' _ =>
               if isspace c' then String c EmptyString :: split s'
               else match split s' with
                    | w :: ws => String c w :: ws
                    | [] => [String c EmptyString]
                    end
           end
  end.

Fixpoint lstrip (s : string) : string :=
  match s with
  | EmptyString => EmptyString
  | String c s' => if isspace c then lstrip s' else s
  end.

Fixpoint rstrip (s : string) : string :=
  match s with
  | EmptyString => EmptyString
  | String c s' =>
      match rstrip s' with
      | EmptyString => if isspace c then EmptyString else String c EmptyString
      | r => String c r
      end
  end.

(** [s.strip()] *)
Definition strip (s : string) : string := rstrip (lstrip s).

(** [needle in hay] *)
Fixpoint contains (needle hay : string) : bool :=
  String.prefix needle hay ||
  match hay with
  | EmptyString => false
  | String _ hay' => contains needle hay'
  end.

(** [hay.count(needle)] for a non-empty needle: occurrences from left to
    right, none overlapping the one before. *)
Fixpoint count_from (needle hay : string) (skip : nat) : nat :=
  match hay with
  | EmptyString => 0
  | String _ hay' =>
      match skip with
      | S k => count_from needle hay' k
      | O => if String.prefix needle hay
             then S (count_from needle hay' (Nat.pred (String.length needle)))
             else count_from needle hay' 0
      end
  end.
Definition count (hay needle : string) : nat := count_from needle hay 0.

(** [s[:n]] *)
Definition take (n : nat) (s : string) : string := String.substring 0 n s.

(** [sep.join(xs)] *)
Fixpoint join (sep : string) (xs : list string) : string :=
  match xs with
  | [] => EmptyString
  | [x] => x
  | x :: xs' => x ++ sep ++ join sep xs'
  end.

(** [any(k in text for k in keys)] *)
Definition any_in (keys : list string) (text : string) : bool :=
  existsb (fun k => contains k text) keys.

End Str.

(* ================================================================= *)
(** ** Regular expressions ([re])

    The patterns of the pipeline, as syntax trees, and a backtracking
    matcher with Python's priorities: alternatives from left to right,
    greedy repetition.  Every pattern of the pipeline consumes at least one
    character per match and per repetition, and the matcher relies on it: a
    repetition whose body consumed nothing is abandoned, and an empty match
    is not reported. *)

Module Re.

Inductive regex : Type :=
| Eps
| Chr (c : ascii)
| Cls (p : ascii -> bool)
| Seq (r1 r2 : regex)
| Alt (r1 r2 : regex)
| Rep (r : regex) (lo : nat) (hi : option nat)
| Grp (r : regex)
| Back
| Bnd.

(** [\w] on the code points 0..255: alphanumerics and the underscore. *)
Definition is_w (c : ascii) : bool :=
  let n := Str.code c in
  ((48 <=? n) && (n <=? 57) || (65 <=? n) && (n <=? 90) || (n =? 95)
   || (97 <=? n) && (n <=? 122)
   || (n =? 170) || (n =? 178) || (n =? 179) || (n =? 181) || (n =? 185) || (n =? 186)
   || (188 <=? n) && (n <=? 190)
   || (192 <=? n) && (n <=? 214) || (216 <=? n) && (n <=? 246) || (248 <=? n))%N.
(** [\s] *)
Definition is_s (c : ascii) : bool := Str.isspace c.
(** [.] *)
Definition is_dot (c : ascii) : bool := negb (Str.code c =? 10)%N.
(** [[a-zA-Z]] *)
Definition is_alpha (c : ascii) : bool :=
  let n := Str.code c in ((65 <=? n) && (n <=? 90) || (97 <=? n) && (n <=? 122))%N.
(** [[a-z]] *)
Definition is_lower_alpha (c : ascii) : bool :=
  let n := Str.code c in ((97 <=? n) && (n <=? 122))%N.
(** [[.!?]] *)
Definition is_stop (c : ascii) : bool :=
  let n := Str.code c in ((n =? 46) || (n =? 33) || (n =? 63))%N.

(** The literal text [s] (what [re.escape(s)] matches). *)
Fixpoint lit (s : string) : regex :=
  match s with
  | EmptyString => Eps
  | String c s' => Seq (Chr c) (lit s')
  end.

(** [r1|r2|...] *)
Fixpoint alts (rs : list regex) : regex :=
  match rs with
  | [] => Cls (fun _ => false)
  | [r] => r
  | r :: rs' => Alt r (alts rs')
  end.

Fixpoint has_group (r : regex) : bool :=
  match r with
  | Grp _ => true
  | Seq a b | Alt a b => has_group a || has_group b
  | Rep a _ _ => has_group a
  | _ => false
  end.

(** A position of the matcher in the subject: the index, the character
    before it, the text from it on, and the span of group 1. *)
Record st := St { pos : nat; prev : option ascii; rest : string; cap : option (nat * nat) }.

Definition step (s : st) : option (ascii * st) :=
  match rest s with
  | EmptyString => None
  | String c r => Some (c, St (S (pos s)) (Some c) r (cap s))
  end.

Fixpoint eat (w : string) (s : st) : option st :=
  match w with
  | EmptyString => Some s
  | String c w' =>
      match step s with
      | Some (c', s') => if Ascii.eqb c c' then eat w' s' else None
      | None => None
      end
  end.

Definition word_at (c : option ascii) : bool :=
  match c with Some c => is_w c | None => false end.

Definition next (s : st) : option ascii :=
  match rest s with EmptyString => None | String c _ => Some c end.

(** [run text r s k]: match [r] at [s], then [k]; the first success in
    backtracking order. *)
Fixpoint run (text : string) (r : regex) (s : st) (k : st -> option st) {struct r} : option st :=
  match r with
  | Eps => k s
  | Chr c =>
      match step s with
      | Some (c', s') => if Ascii.eqb c c' then k s' else None
      | None => None
      end
  | Cls p =>
      match step s with
      | Some (c', s') => if p c' then k s' else None
      | None => None
      end
  | Seq r1 r2 => run text r1 s (fun s' => run text r2 s' k)
  | Alt r1 r2 =>
      match run text r1 s k with
      | Some e => Some e
      | None => run text r2 s k
      end
  | Rep r0 lo hi =>
      (fix loop (n lo : nat) (hi : option nat) (s : st) {struct n} : option st :=
         let stop := if Nat.eqb lo 0 then k s else None in
         match n, hi with
         | O, _ | _, Some O => stop
         | S n', _ =>
             match run text r0 s
                     (fun s' => if Nat.ltb (pos s) (pos s')
                                then loop n' (Nat.pred lo) (option_map Nat.pred hi) s'
                                else None) with
             | Some e => Some e
             | None => stop
             end
         end) (String.length (rest s)) lo hi s
  | Grp r0 =>
      run text r0 s (fun s' => k (St (pos s') (prev s') (rest s') (Some (pos s, pos s'))))
  | Back =>
      match cap s with
      | Some (i, j) =>
          match eat (String.substring i (j - i) text) s with
          | Some s' => k s'
          | None => None
          end
      | None => None
      end
  | Bnd => if xorb (word_at (prev s)) (word_at (next s)) then k s else None
  end.

(** One match: its span and the span of group 1. *)
Record hit := Hit { h_start : nat; h_stop : nat; h_group : option (nat * nat) }.

Definition match_at (text : string) (r : regex) (s : st) : option hit :=
  match run text r s Some with
  | Some e => if Nat.ltb (pos s) (pos e) then Some (Hit (pos s) (pos e) (cap e)) else None
  | None => None
  end.

(** The matches of [r] in [text] from left to right, none overlapping the
    one before ([re.finditer]). *)
Fixpoint scan (text : string) (r : regex) (i : nat) (prev : option ascii) (rest : string)
    (skip : nat) : list hit :=
  match skip with
  | S k =>
      match rest with
      | EmptyString => []
      | String c rest' => scan text r (S i) (Some c) rest' k
      end
  | O =>
      match rest with
      | EmptyString => []
      | String c rest' =>
          match match_at text r (St i prev rest None) with
          | Some h => h :: scan text r (S i) (Some c) rest' (h_stop h - S i)
          | None => scan text r (S i) (Some c) rest' 0
          end
      end
  end.

Definition finditer (r : regex) (text : string) : list hit := scan text r 0 None text 0.

Definition span_text (text : string) (sp : nat * nat) : string :=
  String.substring (fst sp) (snd sp - fst sp) text.

(** [re.findall(r, text)] for a pattern with at most one group: the text of
    the group when there is one, of the whole match otherwise. *)
Definition findall (r : regex) (text : string) : list string :=
  map (fun h =>
         if has_group r
         then match h_group h with Some sp => span_text text sp | None => EmptyString end
         else span_text text (h_start h, h_stop h))
      (finditer r text).

(** [re.search(r, text)] as a truth value. *)
Definition search (r : regex) (text : string) : bool :=
  match finditer r text with [] => false | _ :: _ => true end.

Fixpoint pieces (text : string) (from : nat) (hs : list hit) : list string :=
  match hs with
  | [] => [String.substring from (String.length text - from) text]
  | h :: hs' => String.substring from (h_start h - from) text :: pieces text (h_stop h) hs'
  end.

(** [re.split(r, text)] for a pattern without groups. *)
Definition split (r : regex) (text : string) : list string := pieces text 0 (finditer r text).

(** [\bword\b] *)
Definition whole (r : regex) : regex := Seq Bnd (Seq r Bnd).

End Re.

(* ================================================================= *)
(** ** Configuration ([config.py]) *)

Module Config.

(** [SCORE_WEIGHTS] *)
Definition W_content : Q := 0.30.
Definition W_delivery : Q := 0.15.
Definition W_communication : Q := 0.15.
Definition W_voice : Q := 0.15.
Definition W_confidence : Q := 0.15.
Definition W_structure : Q := 0.10.

Definition MIN_SCORE : Q := 0.
Definition MAX_SCORE : Q := 100.

Definition OPTIMAL_WPM_MIN : Q := 130.
Definition OPTIMAL_WPM_MAX : Q := 160.
Definition WPM_TOO_SLOW : Q := 100.
Definition WPM_TOO_FAST : Q := 180.

Definition FILLER_WORDS : list string :=
  [ "um"; "uh"; "umm"; "uhh"; "er"; "err";
    "like"; "you know"; "basically"; "actually";
    "literally"; "honestly"; "right"; "okay";
    "so"; "well"; "I mean"; "kind of"; "sort of";
    "you see"; "I guess"; "anyway" ].

Definition FILLER_PENALTY_PER_WORD : Q := 2.0.
Definition MAX_FILLER_PENALTY : Q := 30.0.

Definition GRAMMAR_PENALTY_PER_ERROR : Q := 3.0.
(** Imported by [ml_engine.py], never read by it. *)
Definition MAX_GRAMMAR_PENALTY : Q := 40.0.

(** [COMMUNICATION_WEIGHTS] *)
Definition CW_grammar : Q := 0.30.
Definition CW_vocabulary_diversity : Q := 0.25.
Definition CW_sentence_complexity : Q := 0.15.
Definition CW_coherence : Q := 0.15.
Definition CW_professional_vocab : Q := 0.15.

Definition TTR_EXCELLENT : Q := 0.65.
Definition TTR_GOOD : Q := 0.50.
Definition TTR_POOR : Q := 0.30.

Definition SENTENCE_LENGTH_MIN : Q := 8.
Definition SENTENCE_LENGTH_MAX : Q := 30.
Definition SENTENCE_LENGTH_OPTIMAL_MIN : Q := 12.
Definition SENTENCE_LENGTH_OPTIMAL_MAX : Q := 20.

Definition TRANSITION_WORDS : list string :=
  [ "first"; "second"; "third"; "finally"; "next"; "then"; "lastly";
    "additionally"; "moreover"; "furthermore"; "also"; "besides"; "in addition";
    "however"; "although"; "nevertheless"; "on the other hand"; "conversely"; "but";
    "therefore"; "consequently"; "as a result"; "because"; "thus"; "hence";
    "for example"; "for instance"; "specifically"; "such as"; "namely";
    "in conclusion"; "to summarize"; "overall"; "in summary"; "ultimately" ].

Definition PROFESSIONAL_TERMS : list string :=
  [ "implemented"; "developed"; "managed"; "coordinated"; "analyzed";
    "designed"; "optimized"; "established"; "facilitated"; "achieved";
    "collaborated"; "executed"; "strategized"; "delegated"; "evaluated";
    "led"; "created"; "resolved"; "improved"; "streamlined";
    "initiated"; "delivered"; "mentored"; "negotiated"; "presented";
    "stakeholder"; "deliverable"; "milestone"; "objective"; "deadline";
    "benchmark"; "metrics"; "strategy"; "framework"; "methodology";
    "scalable"; "efficient"; "innovative"; "proactive"; "comprehensive" ].

Definition MIN_WORDS_FOR_ANALYSIS : nat := 20.

(** [CONFIDENCE_WEIGHTS] *)
Definition KW_voice_confidence : Q := 0.40.
Definition KW_eye_contact : Q := 0.30.
Definition KW_body_stability : Q := 0.20.
Definition KW_emotion_positivity : Q := 0.10.

(** [STRUCTURE_WEIGHTS] *)
Definition SW_star_method : Q := 0.50.
Definition SW_organization : Q := 0.30.
Definition SW_conclusion : Q := 0.20.

Definition STAR_SITUATION_KEYWORDS : list string :=
  [ "situation"; "context"; "background"; "when"; "there was"; "faced with";
    "challenge was"; "problem was"; "at the time"; "in my role" ].
Definition STAR_TASK_KEYWORDS : list string :=
  [ "task"; "responsible for"; "my role"; "needed to"; "had to";
    "goal was"; "objective was"; "assigned to"; "in charge of" ].
Definition STAR_ACTION_KEYWORDS : list string :=
  [ "action"; "i did"; "i took"; "implemented"; "developed"; "created";
    "initiated"; "led"; "organized"; "coordinated"; "decided to" ].
Definition STAR_RESULT_KEYWORDS : list string :=
  [ "result"; "outcome"; "achieved"; "increased"; "decreased"; "improved";
    "saved"; "reduced"; "generated"; "led to"; "resulted in"; "percent" ].

(** [QUALITY_GATES]: threshold, penalty and message of each gate. *)
Record gate (T : Type) := Gate { threshold : T; penalty : Z; message : string }.
Arguments Gate {T}.
Arguments threshold {T}.
Arguments penalty {T}.
Arguments message {T}.

Definition G_min_word_count : gate nat :=
  Gate 15%nat 50 "Answer too short - provide more detail".
Definition G_min_unique_words : gate nat :=
  Gate 10%nat 30 "Limited vocabulary - use more varied words".
Definition G_max_filler_ratio : gate Q :=
  Gate 0.15 25 "Too many filler words - practice speaking clearly".
Definition G_min_relevance : gate Q :=
  Gate 0.25 40 "Answer does not address the question".
Definition G_max_repetition : gate Q :=
  Gate 0.3 20 "Avoid repeating the same phrases".

(** [NONSENSE_PATTERNS]:
    [\b(asdf|qwerty|lorem|ipsum|blah|test|testing|hello|hi|hey)\b],
    [(.)\1{4,}] and [\b(\w{1,2}\s){5,}]. *)
Definition NONSENSE_PATTERNS : list Re.regex :=
  [ Re.whole
      (Re.Grp
         (Re.alts
            (map Re.lit
               [ "asdf"; "qwerty"; "lorem"; "ipsum"; "blah"; "test"; "testing";
                 "hello"; "hi"; "hey" ])));
    Re.Seq (Re.Grp (Re.Cls Re.is_dot)) (Re.Rep Re.Back 4 None);
    Re.Seq Re.Bnd
      (Re.Rep (Re.Grp (Re.Seq (Re.Rep (Re.Cls Re.is_w) 1 (Some 2%nat)) (Re.Cls Re.is_s)))
         5 None) ].

Definition MIN_COHERENCE_SCORE : Q := 30.0.

(** [SCORE_CAPS] *)
Definition CAP_very_short : Z := 40.
Definition CAP_short : Z := 60.
Definition CAP_no_structure : Z := 55.
Definition CAP_off_topic : Z := 35.
Definition CAP_nonsense : Z := 15.

(** [COMMON_SKILLS] *)
Definition COMMON_SKILLS : list string :=
  [ "python"; "java"; "javascript"; "typescript"; "c++"; "c#"; "go"; "rust"; "ruby"; "php";
    "html"; "css"; "react"; "angular"; "vue"; "node.js"; "express"; "django"; "flask";
    "fastapi";
    "sql"; "mysql"; "postgresql"; "mongodb"; "redis"; "elasticsearch";
    "aws"; "azure"; "gcp"; "docker"; "kubernetes"; "ci/cd"; "jenkins"; "terraform";
    "machine learning"; "deep learning"; "tensorflow"; "pytorch"; "pandas"; "numpy";
    "data analysis";
    "leadership"; "communication"; "teamwork"; "problem solving"; "agile"; "scrum" ].

(** [VOICE_WEIGHTS] *)
Definition VW_pitch_variation : Q := 0.25.
Definition VW_energy_projection : Q := 0.25.
Definition VW_pause_appropriateness : Q := 0.20.
Definition VW_energy_consistency : Q := 0.15.
Definition VW_rhythm_stability : Q := 0.15.

Definition PITCH_STD_MONOTONE : Q := 15.0.
Definition PITCH_STD_OPTIMAL_MIN : Q := 25.0.
Definition PITCH_STD_OPTIMAL_MAX : Q := 50.0.
Definition PITCH_STD_DRAMATIC : Q := 70.0.

(** Integers in [config.py]; the scorer compares them with floats. *)
Definition PAUSE_PER_MIN_TOO_FEW : Q := 2.
Definition PAUSE_PER_MIN_OPTIMAL_MIN : Q := 3.
Definition PAUSE_PER_MIN_OPTIMAL_MAX : Q := 8.
Definition PAUSE_PER_MIN_TOO_MANY : Q := 12.

End Config.

(* ================================================================= *)
(** ** Collaborators *)

(** One match of the grammar checker: its [ruleIssueType] and [message]. *)
Record grammar_match := GrammarMatch { ruleIssueType : string; gm_message : string }.

(** The [scores] of [analyze_voice] that [score_answer] reads. *)
Record voice_scores := VoiceScores {
  vs_overall : Q;
  vs_voice_confidence : Q
}.

(** What the pipeline calls outside itself.  An inner [None] is a raised
    exception. *)
Record Env := {
  (** [get_model()]: [None] when the encoder could not be loaded;
      [model.encode] maps a text to its embedding. *)
  sentence_model : option (string -> option (list Q));
  (** [np.linalg.norm] *)
  np_norm : list Q -> Q;
  (** [np.std] *)
  np_std : list Q -> Q;
  (** [_get_language_tool()] and its [check]. *)
  language_tool : option (string -> option (list grammar_match));
  (** [voice_analysis_service.analyze_voice] *)
  analyze_voice : string -> option voice_scores
}.

(* ================================================================= *)
(** ** The ML engine ([ml_engine.py])

    The feedback and assessment texts of the result dictionaries, which no
    score depends on, are left out of the records. *)

Module Engine.
Import Config.

Section WithEnv.
Context (env : Env).

(** *** Semantic similarity *)

(** [np.dot] *)
Fixpoint np_dot (v1 v2 : list Q) : Q :=
  match v1, v2 with
  | x :: v1', y :: v2' => x * y + np_dot v1' v2'
  | _, _ => 0
  end.

Definition _cosine_similarity (vec1 vec2 : list Q) : Q :=
  let dot_product := np_dot vec1 vec2 in
  let norm1 := np_norm env vec1 in
  let norm2 := np_norm env vec2 in
  if Qeq_bool norm1 0 || Qeq_bool norm2 0 then 0.0
  else
    let similarity := dot_product / (norm1 * norm2) in
    (similarity + 1) / 2.

Definition word_set (text : string) : gset string :=
  list_to_set (Str.split (Str.lower text)).

Definition _fallback_similarity (text1 text2 : string) : Q :=
  let words1 := word_set text1 in
  let words2 := word_set text2 in
  let intersection := size (words1 ∩ words2) in
  let union := size (words1 ∪ words2) in
  if Nat.eqb union 0 then 0.0
  else Py.of_nat intersection / Py.of_nat union.

Definition semantic_similarity (text1 text2 : string) : Q :=
  if Str.falsy text1 || Str.falsy text2 then 0.0
  else
    match sentence_model env with
    | None => _fallback_similarity text1 text2
    | Some encode =>
        match encode text1, encode text2 with
        | Some e0, Some e1 =>
            let similarity := _cosine_similarity e0 e1 in
            Qmax 0.0 (Qmin 1.0 similarity)
        | _, _ => _fallback_similarity text1 text2
        end
    end.

(** *** Filler words and speaking rate *)

(** The total and, per filler found, its count. *)
Definition count_fillers (transcript : string) : nat * list (string * nat) :=
  if Str.falsy transcript then (0%nat, [])
  else
    let transcript_lower := Str.lower transcript in
    fold_left
      (fun acc filler =>
         let count := length (Re.findall (Re.whole (Re.lit filler)) transcript_lower) in
         if Nat.ltb 0 count
         then ((fst acc + count)%nat, (snd acc ++ [(filler, count)])%list)
         else acc)
      FILLER_WORDS (0%nat, []).

(** The quotient is the exact one; the float quotient of the program is
    infinite when the words per minute exceed the largest float. *)
Definition compute_wpm (transcript : string) (duration_seconds : Q) : Q :=
  if Str.falsy transcript || Py.leb duration_seconds 0 then 0.0
  else
    let word_count := length (Str.split transcript) in
    let duration_minutes := duration_seconds / 60.0 in
    if Py.leb duration_minutes 0 then 0.0
    else Py.round (Py.of_nat word_count / duration_minutes) 1.

(** On a finite rate.  On the infinite rate [int] raises [OverflowError]. *)
Definition get_wpm_assessment (wpm : Q) : string * Z :=
  if Py.ltb wpm WPM_TOO_SLOW then
    ("Speaking too slowly - try to maintain better flow",
     Z.min 30 (Py.int ((WPM_TOO_SLOW - wpm) * 0.5)))
  else if Py.ltb WPM_TOO_FAST wpm then
    ("Speaking too fast - slow down for clarity",
     Z.min 30 (Py.int ((wpm - WPM_TOO_FAST) * 0.3)))
  else if Py.leb OPTIMAL_WPM_MIN wpm && Py.leb wpm OPTIMAL_WPM_MAX then
    ("Good speaking pace", 0%Z)
  else if Py.ltb wpm OPTIMAL_WPM_MIN then
    ("Slightly slow - could pick up the pace a bit", 5%Z)
  else
    ("Slightly fast - could slow down a bit", 5%Z).

(** *** Grammar *)

(** [\ba\s+b\b] *)
Definition two_words (a b : string) : Re.regex :=
  Re.Seq Re.Bnd
    (Re.Seq (Re.lit a)
       (Re.Seq (Re.Rep (Re.Cls Re.is_s) 1 None) (Re.Seq (Re.lit b) Re.Bnd))).

(** The double quote inside a string literal. *)
Definition dquote : ascii := ascii_of_nat 34.

Definition grammar_patterns : list (Re.regex * string) :=
  [ (two_words "i" "is", "Subject-verb disagreement: 'I is'");
    (two_words "he" "have", "Subject-verb disagreement: 'he have'");
    (two_words "she" "have", "Subject-verb disagreement: 'she have'");
    (two_words "they" "was", "Subject-verb disagreement: 'they was'");
    (two_words "we" "was", "Subject-verb disagreement: 'we was'");
    (two_words "don't" "got",
     "Non-standard: " ++ String dquote ("don't got" ++ String dquote EmptyString));
    (two_words "could" "of", "Common error: should be 'could have'");
    (two_words "would" "of", "Common error: should be 'would have'");
    (two_words "should" "of", "Common error: should be 'should have'") ].

Definition _heuristic_grammar_check (transcript : string) : nat * list string :=
  let text_lower := Str.lower transcript in
  fold_left
    (fun acc pd =>
       if Re.search (fst pd) text_lower
       then (S (fst acc), (snd acc ++ [snd pd])%list)
       else acc)
    grammar_patterns (0%nat, []).

Definition is_grammar_or_typo (m : grammar_match) : bool :=
  String.eqb (ruleIssueType m) "grammar" || String.eqb (ruleIssueType m) "typos".

Definition estimate_grammar_errors (transcript : string) : nat * list string :=
  if Str.falsy transcript || Nat.ltb (Str.len transcript) 10 then (0%nat, [])
  else
    match language_tool env with
    | Some check =>
        match check transcript with
        | Some matches =>
            let errors := List.filter is_grammar_or_typo matches in
            (length errors, map gm_message (firstn 5 errors))
        | None => _heuristic_grammar_check transcript
        end
    | None => _heuristic_grammar_check transcript
    end.

(** The grammar factor of the communication score. *)
Definition grammar_factor (grammar_errors : nat) : Q :=
  let grammar_score := Qmax 0 (100 - Py.of_nat grammar_errors * GRAMMAR_PENALTY_PER_ERROR) in
  let grammar_score := Qmin 100 grammar_score in
  Py.round grammar_score 1.

(** *** The other communication factors *)

(** [\b[a-zA-Z]{3,}\b] *)
Definition word3 : Re.regex := Re.whole (Re.Rep (Re.Cls Re.is_alpha) 3 None).

(** [round(min(100, max(0, score)), 1)] *)
Definition bounded (score : Q) : Q := Py.round (Qmin 100 (Qmax 0 score)) 1.

Record vocabulary := {
  v_ttr : Q; v_unique_words : nat; v_total_words : nat; v_score : Q
}.

Definition calculate_vocabulary_diversity (transcript : string) : vocabulary :=
  let result := {| v_ttr := 0.0; v_unique_words := 0; v_total_words := 0; v_score := 0.0 |} in
  if Str.falsy transcript then result
  else
    let words := Re.findall word3 (Str.lower transcript) in
    let total_words := length words in
    if Nat.ltb total_words MIN_WORDS_FOR_ANALYSIS then result
    else
      let unique_words := size (list_to_set words : gset string) in
      let ttr := Py.of_nat unique_words / Py.of_nat total_words in
      let score :=
        if Py.leb TTR_EXCELLENT ttr then 85 + (ttr - TTR_EXCELLENT) * 100
        else if Py.leb TTR_GOOD ttr then 70 + (ttr - TTR_GOOD) / (TTR_EXCELLENT - TTR_GOOD) * 15
        else if Py.leb TTR_POOR ttr then 40 + (ttr - TTR_POOR) / (TTR_GOOD - TTR_POOR) * 30
        else ttr / TTR_POOR * 40 in
      {| v_ttr := Py.round ttr 3; v_unique_words := unique_words;
         v_total_words := total_words; v_score := bounded score |}.

(** [[s.strip() for s in re.split(r'[.!?]+', transcript) if s.strip()]] *)
Definition sentences_of (transcript : string) : list string :=
  map Str.strip
    (List.filter (fun s => negb (Str.falsy (Str.strip s)))
       (Re.split (Re.Rep (Re.Cls Re.is_stop) 1 None) transcript)).

(** [np.mean] *)
Definition np_mean (xs : list Q) : Q := fold_right Qplus 0 xs / Py.of_nat (length xs).

Record sentence_stats := {
  s_sentence_count : nat; s_avg_length : Q; s_length_std : Q; s_score : Q
}.

Definition analyze_sentence_complexity (transcript : string) : sentence_stats :=
  let result := {| s_sentence_count := 0; s_avg_length := 0.0; s_length_std := 0.0; s_score := 0.0 |} in
  if Str.falsy transcript then result
  else
    let sentences := sentences_of transcript in
    if Nat.ltb (length sentences) 2 then
      {| s_sentence_count := length sentences; s_avg_length := 0.0; s_length_std := 0.0;
         s_score := 50.0 |}
    else
      let lengths := map (fun s => Py.of_nat (length (Str.split s))) sentences in
      let avg_length := np_mean lengths in
      let length_std := np_std env lengths in
      let score := 100.0 in
      let score :=
        if Py.ltb avg_length SENTENCE_LENGTH_MIN then score - (SENTENCE_LENGTH_MIN - avg_length) * 5
        else if Py.ltb SENTENCE_LENGTH_MAX avg_length then score - (avg_length - SENTENCE_LENGTH_MAX) * 3
        else if Py.leb SENTENCE_LENGTH_OPTIMAL_MIN avg_length
                && Py.leb avg_length SENTENCE_LENGTH_OPTIMAL_MAX then score
        else if Py.ltb avg_length SENTENCE_LENGTH_OPTIMAL_MIN then score - 10
        else score - 10 in
      let score :=
        if Py.leb 3 length_std && Py.leb length_std 8 then score + 5 else score in
      {| s_sentence_count := length sentences; s_avg_length := Py.round avg_length 1;
         s_length_std := Py.round length_std 1; s_score := bounded score |}.

Record coherence_stats := {
  c_transition_count : nat; c_transitions_found : list (string * nat); c_score : Q
}.

Definition analyze_coherence (transcript : string) : coherence_stats :=
  let result := {| c_transition_count := 0; c_transitions_found := []; c_score := 0.0 |} in
  if Str.falsy transcript then result
  else
    let transcript_lower := Str.lower transcript in
    let total_words := length (Str.split transcript_lower) in
    if Nat.ltb total_words MIN_WORDS_FOR_ANALYSIS then result
    else
      let found_transitions :=
        fold_left
          (fun found transition =>
             if Str.contains " " transition then
               if Str.contains transition transcript_lower
               then (found ++ [(transition, Str.count transcript_lower transition)])%list
               else found
             else
               let matches := Re.findall (Re.whole (Re.lit transition)) transcript_lower in
               match matches with
               | [] => found
               | _ :: _ => (found ++ [(transition, length matches)])%list
               end)
          TRANSITION_WORDS [] in
      let transition_count := length found_transitions in
      let tc := Py.of_nat transition_count in
      let score :=
        if Nat.leb 5 transition_count then 90 + Qmin 10 ((tc - 5) * 2)
        else if Nat.leb 3 transition_count then 75 + (tc - 3) * 7.5
        else if Nat.leb 1 transition_count then 50 + (tc - 1) * 12.5
        else 40 in
      {| c_transition_count := transition_count; c_transitions_found := found_transitions;
         c_score := bounded score |}.

(** [list(dict.fromkeys(xs))]: the first occurrence of each element. *)
Fixpoint dedup_from (seen xs : list string) : list string :=
  match xs with
  | [] => []
  | x :: xs' =>
      if existsb (String.eqb x) seen then dedup_from seen xs'
      else x :: dedup_from (x :: seen) xs'
  end.
Definition dedup (xs : list string) : list string := dedup_from [] xs.

Record professional_stats := {
  p_professional_count : nat; p_professional_words_found : list string; p_score : Q
}.

Definition detect_professional_vocabulary (transcript : string) : professional_stats :=
  let result := {| p_professional_count := 0; p_professional_words_found := []; p_score := 0.0 |} in
  if Str.falsy transcript then result
  else
    let transcript_lower := Str.lower transcript in
    let total_words := length (Re.findall word3 transcript_lower) in
    if Nat.ltb total_words MIN_WORDS_FOR_ANALYSIS then result
    else
      let found_terms :=
        fold_left
          (fun found term =>
             let pattern :=
               Re.Seq Re.Bnd
                 (Re.Seq (Re.lit (Str.take (Nat.min 6 (Str.len term)) term))
                    (Re.Seq (Re.Rep (Re.Cls Re.is_lower_alpha) 0 None) Re.Bnd)) in
             (found ++ firstn 3 (Re.findall pattern transcript_lower))%list)
          PROFESSIONAL_TERMS [] in
      let unique_terms := dedup found_terms in
      let professional_count := length unique_terms in
      let pc := Py.of_nat professional_count in
      let score :=
        if Nat.leb 6 professional_count then 90 + Qmin 10 ((pc - 6) * 2)
        else if Nat.leb 4 professional_count then 75 + (pc - 4) * 7.5
        else if Nat.leb 2 professional_count then 55 + (pc - 2) * 10
        else if Nat.leb 1 professional_count then 45
        else 35 in
      {| p_professional_count := professional_count;
         p_professional_words_found := firstn 10 unique_terms;
         p_score := bounded score |}.

(** *** Structure (STAR method) *)

Record structure_analysis := {
  star_components_found : list string;
  star_score : Q;
  organization_score : Q;
  conclusion_score : Q;
  st_final_score : Q
}.

Definition conclusion_indicators : list string :=
  [ "in conclusion"; "ultimately"; "as a result"; "this led to";
    "the outcome was"; "i learned"; "this taught me"; "because of this";
    "this experience"; "going forward"; "the key takeaway" ].

Definition analyze_star_structure (transcript : string) : structure_analysis :=
  if Str.falsy transcript || Nat.ltb (Str.len transcript) 20 then
    {| star_components_found := []; star_score := 0.0; organization_score := 0.0;
       conclusion_score := 0.0; st_final_score := 0.0 |}
  else
    let transcript_lower := Str.lower transcript in
    let star_found :=
      [ ("situation", Str.any_in STAR_SITUATION_KEYWORDS transcript_lower);
        ("task", Str.any_in STAR_TASK_KEYWORDS transcript_lower);
        ("action", Str.any_in STAR_ACTION_KEYWORDS transcript_lower);
        ("result", Str.any_in STAR_RESULT_KEYWORDS transcript_lower) ] in
    let components := map fst (List.filter snd star_found) in
    let components_count := length components in
    let star :=
      if Nat.eqb components_count 4 then 100.0
      else if Nat.eqb components_count 3 then 80.0
      else if Nat.eqb components_count 2 then 60.0
      else if Nat.eqb components_count 1 then 40.0
      else 25.0 in
    let sentences := sentences_of transcript in
    let organization :=
      if Nat.leb 3 (length sentences) then Qmin 100 (60 + Py.of_nat (length sentences) * 5)
      else if Nat.leb 2 (length sentences) then 50.0
      else 30.0 in
    let has_conclusion := Str.any_in conclusion_indicators transcript_lower in
    let has_conclusion :=
      match sentences with
      | [] => has_conclusion
      | _ :: _ =>
          let last_sentence := Str.lower (List.last sentences EmptyString) in
          has_conclusion
          || Str.any_in ["result"; "learn"; "outcome"; "achiev"; "succe"] last_sentence
      end in
    let conclusion := if has_conclusion then 90.0 else 60.0 in
    {| star_components_found := components;
       star_score := star;
       organization_score := organization;
       conclusion_score := conclusion;
       st_final_score :=
         Py.round (SW_star_method * star + SW_organization * organization
                   + SW_conclusion * conclusion) 1 |}.

Definition calculate_structure_score (transcript : string) : structure_analysis :=
  analyze_star_structure transcript.

(** *** Confidence *)

Definition calculate_confidence_score
    (voice_confidence eye_contact_score body_stability_score emotion_positivity_score : Q) : Q :=
  let final :=
    KW_voice_confidence * voice_confidence + KW_eye_contact * eye_contact_score
    + KW_body_stability * body_stability_score
    + KW_emotion_positivity * emotion_positivity_score in
  Py.round (Qmin 100 (Qmax 0 final)) 1.

(** *** Communication *)

(** [factors] is absent ([{}]) for a transcript too short to analyse;
    otherwise it holds the score of each factor and the error count. *)
Record comm_factors := {
  f_grammar : Q; f_grammar_errors : nat; f_grammar_details : list string;
  f_vocabulary_diversity : Q;
  f_sentence_complexity : Q;
  f_coherence : Q;
  f_professional_vocab : Q
}.

Record comm_analysis := { cm_final_score : Q; cm_factors : option comm_factors }.

Definition calculate_enhanced_communication_score (transcript : string) : comm_analysis :=
  if Str.falsy transcript || Nat.ltb (Str.len (Str.strip transcript)) 10 then
    {| cm_final_score := 0.0; cm_factors := None |}
  else
    let '(grammar_errors, grammar_details) := estimate_grammar_errors transcript in
    let factors :=
      {| f_grammar := grammar_factor grammar_errors;
         f_grammar_errors := grammar_errors;
         f_grammar_details := grammar_details;
         f_vocabulary_diversity := v_score (calculate_vocabulary_diversity transcript);
         f_sentence_complexity := s_score (analyze_sentence_complexity transcript);
         f_coherence := c_score (analyze_coherence transcript);
         f_professional_vocab := p_score (detect_professional_vocabulary transcript) |} in
    let final_score :=
      0.0 + f_grammar factors * CW_grammar
      + f_vocabulary_diversity factors * CW_vocabulary_diversity
      + f_sentence_complexity factors * CW_sentence_complexity
      + f_coherence factors * CW_coherence
      + f_professional_vocab factors * CW_professional_vocab in
    {| cm_final_score := Py.round final_score 1; cm_factors := Some factors |}.

(** *** Content: keywords and semantic similarity *)

Definition stop_words : gset string :=
  list_to_set
  [ "the"; "a"; "an"; "and"; "or"; "but"; "in"; "on"; "at"; "to";
    "for"; "of"; "with"; "by"; "from"; "as"; "is"; "was"; "are";
    "were"; "been"; "be"; "have"; "has"; "had"; "do"; "does"; "did";
    "will"; "would"; "could"; "should"; "may"; "might"; "must";
    "that"; "which"; "who"; "whom"; "this"; "these"; "those";
    "i"; "you"; "he"; "she"; "it"; "we"; "they"; "what"; "when";
    "where"; "why"; "how"; "all"; "each"; "every"; "both"; "few";
    "more"; "most"; "other"; "some"; "such"; "no"; "not"; "only";
    "own"; "same"; "so"; "than"; "too"; "very"; "can"; "just" ].

(** [word_counts[word] = word_counts.get(word, 0) + 1] on a dictionary in
    insertion order. *)
Fixpoint bump (word : string) (counts : list (string * nat)) : list (string * nat) :=
  match counts with
  | [] => [(word, 1%nat)]
  | (k, v) :: counts' =>
      if String.eqb k word then (k, S v) :: counts' else (k, v) :: bump word counts'
  end.

(** Stable insertion for [sorted(..., key=count, reverse=True)]. *)
Fixpoint insert_by_count (x : string * nat) (sorted : list (string * nat)) : list (string * nat) :=
  match sorted with
  | [] => [x]
  | y :: ys => if Nat.ltb (snd x) (snd y) then y :: insert_by_count x ys else x :: y :: ys
  end.

Definition sort_by_count (items : list (string * nat)) : list (string * nat) :=
  fold_right insert_by_count [] items.

Definition extract_keywords (text : string) (top_n : nat) : list string :=
  let words := Re.findall word3 (Str.lower text) in
  let word_counts :=
    fold_left (fun counts word => if bool_decide (word ∈ stop_words) then counts else bump word counts)
      words [] in
  map fst (firstn top_n (sort_by_count word_counts)).

(** The stem test of [match_keywords] against one transcript word. *)
Definition stem_match (keyword_lower word : string) : bool :=
  Nat.leb 4 (Str.len keyword_lower) && Str.contains (Str.take 4 keyword_lower) word
  || Nat.leb 4 (Str.len word) && Str.contains (Str.take 4 word) keyword_lower.

Definition match_keywords (transcript : string) (keywords : list string)
    : list string * list string :=
  if Str.falsy transcript || Nat.eqb (length keywords) 0 then ([], keywords)
  else
    let transcript_lower := Str.lower transcript in
    let transcript_words : gset string := list_to_set (Re.findall word3 transcript_lower) in
    fold_left
      (fun acc keyword =>
         let keyword_lower := Str.lower keyword in
         if bool_decide (keyword_lower ∈ transcript_words) then
           ((fst acc ++ [keyword])%list, snd acc)
         else if existsb (stem_match keyword_lower) (elements transcript_words) then
           ((fst acc ++ [keyword])%list, snd acc)
         else (fst acc, (snd acc ++ [keyword])%list))
      keywords ([], []).

Record keyword_analysis := {
  keywords_extracted : list string;
  keywords_found : list string;
  keywords_missing : list string;
  keyword_coverage : Q;
  k_score : Q
}.

Definition analyze_content_keywords (transcript ideal_answer : string) : keyword_analysis :=
  let result :=
    {| keywords_extracted := []; keywords_found := []; keywords_missing := [];
       keyword_coverage := 0.0; k_score := 0.0 |} in
  if Str.falsy transcript || Str.falsy ideal_answer then result
  else
    let ideal_keywords := extract_keywords ideal_answer 15 in
    match ideal_keywords with
    | [] => result
    | _ :: _ =>
        let '(found, missing) := match_keywords transcript ideal_keywords in
        let coverage := Py.of_nat (length found) / Py.of_nat (length ideal_keywords) in
        let score :=
          if Py.leb 0.8 coverage then 85 + (coverage - 0.8) * 75
          else if Py.leb 0.6 coverage then 70 + (coverage - 0.6) * 75
          else if Py.leb 0.4 coverage then 50 + (coverage - 0.4) * 100
          else if Py.leb 0.2 coverage then 30 + (coverage - 0.2) * 100
          else coverage * 150 in
        {| keywords_extracted := ideal_keywords; keywords_found := found;
           keywords_missing := missing; keyword_coverage := Py.round coverage 3;
           k_score := Py.round (Qmin 100 (Qmax 0 score)) 1 |}
    end.

(** [keyword_analysis] is absent ([{}]) for a transcript too short to
    analyse. *)
Record content_analysis := {
  ct_final_score : Q;
  ct_keyword_analysis : option keyword_analysis;
  ct_semantic_similarity : Q;
  ct_keyword_weight : Q;
  ct_semantic_weight : Q
}.

Definition calculate_enhanced_content_score (transcript ideal_answer : string)
    : content_analysis :=
  if Str.falsy transcript || Nat.ltb (Str.len (Str.strip transcript)) 10 then
    {| ct_final_score := 0.0; ct_keyword_analysis := None; ct_semantic_similarity := 0.0;
       ct_keyword_weight := 0.5; ct_semantic_weight := 0.5 |}
  else
    let keyword_analysis := analyze_content_keywords transcript ideal_answer in
    let semantic_sim := semantic_similarity transcript ideal_answer in
    let semantic_score := Qmin 100 (semantic_sim * 110) in
    let keyword_score := k_score keyword_analysis in
    let word_count := length (Str.split transcript) in
    let '(keyword_weight, semantic_weight) :=
      if Nat.ltb word_count 30 then (0.6, 0.4)
      else if Nat.ltb 100 word_count then (0.4, 0.6)
      else (0.5, 0.5) in
    let final_score := keyword_score * keyword_weight + semantic_score * semantic_weight in
    {| ct_final_score := Py.round (Qmin 100 (Qmax 0 final_score)) 1;
       ct_keyword_analysis := Some keyword_analysis;
       ct_semantic_similarity := Py.round semantic_sim 3;
       ct_keyword_weight := keyword_weight;
       ct_semantic_weight := semantic_weight |}.

(** *** Quality gates *)

(** An entry of [patterns_found], by the check that appended it: the text
    of a pattern match, ["word repeated {max_count} times"], or
    ["low word recognition ratio"]. *)
Inductive nonsense_signal : Type :=
| PatternMatch (text : string)
| WordRepeated (max_count : nat)
| LowRecognition.

Definition signal_text (s : nonsense_signal) : string :=
  match s with
  | PatternMatch text => text
  | WordRepeated max_count => "word repeated " ++ pretty max_count ++ " times"
  | LowRecognition => "low word recognition ratio"
  end.

Record nonsense := {
  is_nonsense : bool;
  n_confidence : Q;
  patterns_found : list nonsense_signal;
  reason : string
}.

Definition common_words : gset string :=
  list_to_set
  [ "i"; "the"; "a"; "an"; "and"; "or"; "but"; "is"; "are"; "was"; "were";
    "have"; "has"; "had"; "do"; "does"; "did"; "will"; "would"; "could";
    "should"; "can"; "may"; "my"; "your"; "our"; "their"; "this"; "that";
    "it"; "he"; "she"; "we"; "they"; "you"; "me"; "him"; "her"; "us"; "them";
    "what"; "when"; "where"; "why"; "how"; "which"; "who"; "whom";
    "to"; "for"; "with"; "by"; "from"; "at"; "in"; "on"; "of"; "as";
    "so"; "if"; "then"; "than"; "because"; "while"; "although"; "though";
    "not"; "no"; "yes"; "just"; "only"; "also"; "very"; "too"; "much";
    "more"; "most"; "some"; "any"; "all"; "each"; "every"; "both"; "few";
    "many"; "other"; "another"; "such"; "like"; "even"; "still"; "already";
    "been"; "being"; "done"; "doing"; "go"; "going"; "get"; "getting";
    "make"; "making"; "take"; "taking"; "know"; "think"; "see"; "want";
    "need"; "use"; "find"; "give"; "tell"; "work"; "call"; "try"; "ask";
    "come"; "put"; "mean"; "keep"; "let"; "begin"; "seem"; "help"; "show";
    "hear"; "play"; "run"; "move"; "live"; "believe"; "hold"; "bring";
    "about"; "into"; "over"; "after"; "before"; "between"; "under"; "again";
    "there"; "here"; "now"; "always"; "never"; "often"; "sometimes" ].

(** [word_counts[word] = word_counts.get(word, 0) + 1] over [words]. *)
Definition count_words (words : list string) : gmap string nat :=
  fold_left (fun counts word => <[word := S (default 0%nat (counts !! word))]> counts) words ∅.

(** [max(word_counts.values())] *)
Definition max_value (counts : gmap string nat) : nat :=
  map_fold (fun _ v acc => Nat.max v acc) 0%nat counts.

(** [sum(1 for w in words if w in common_words or len(w) > 3)] *)
Definition recognized_words (words : list string) : nat :=
  length (List.filter (fun w => bool_decide (w ∈ common_words) || Nat.ltb 3 (Str.len w)) words).

Definition recognition_ratio (words : list string) : Q :=
  match words with
  | [] => 0
  | _ :: _ => Py.of_nat (recognized_words words) / Py.of_nat (length words)
  end.

Definition detect_nonsense (transcript : string) : nonsense :=
  if Str.falsy transcript || Nat.ltb (Str.len (Str.strip transcript)) 5 then
    {| is_nonsense := true; n_confidence := 1.0; patterns_found := [];
       reason := "Input too short" |}
  else
    let transcript_lower := Str.lower transcript in
    let found :=
      fold_left
        (fun found pattern =>
           (found ++ map PatternMatch (firstn 3 (Re.findall pattern transcript_lower)))%list)
        NONSENSE_PATTERNS [] in
    let words := Str.split transcript_lower in
    let found :=
      if Nat.ltb 5 (length words) then
        let max_count := max_value (count_words words) in
        if Py.ltb 0.3 (Py.of_nat max_count / Py.of_nat (length words))
        then (found ++ [WordRepeated max_count])%list
        else found
      else found in
    let found :=
      if Py.ltb (recognition_ratio words) 0.3 && Nat.ltb 10 (length words)
      then (found ++ [LowRecognition])%list
      else found in
    match found with
    | [] =>
        {| is_nonsense := false; n_confidence := 0.0; patterns_found := found; reason := "" |}
    | _ :: _ =>
        let confidence := Qmin 1.0 (Py.of_nat (length found) * 0.3) in
        {| is_nonsense := Py.leb 0.5 confidence;
           n_confidence := confidence;
           patterns_found := found;
           reason := "Detected patterns: " ++ Str.join ", " (map signal_text (firstn 3 found)) |}
    end.

(** [set(w.lower() for w in words if len(w) > 2)] *)
Definition unique_words_of (words : list string) : gset string :=
  list_to_set (map Str.lower (List.filter (fun w => Nat.ltb 2 (Str.len w)) words)).

Definition connectors : list string :=
  [ "because"; "therefore"; "however"; "although"; "while"; "since";
    "so"; "but"; "and"; "then"; "first"; "second"; "finally" ].

Definition calculate_answer_coherence (transcript : string) : Q :=
  if Str.falsy transcript || Nat.ltb (Str.len (Str.strip transcript)) 10 then 0.0
  else
    let score := 50.0 in
    let words := Str.split transcript in
    let word_count := length words in
    let sentences := sentences_of transcript in
    let score :=
      if Nat.leb 2 (length sentences) then score + 15
      else if Nat.eqb (length sentences) 1 && Nat.leb 15 word_count then score + 5
      else score - 10 in
    let unique_words := unique_words_of words in
    let diversity_ratio :=
      if Nat.ltb 0 word_count then Py.of_nat (size unique_words) / Py.of_nat word_count else 0 in
    let score :=
      if Py.leb 0.6 diversity_ratio then score + 15
      else if Py.leb 0.4 diversity_ratio then score + 5
      else if Py.ltb diversity_ratio 0.25 then score - 15
      else score in
    let transcript_lower := Str.lower transcript in
    let connector_count :=
      length (List.filter (fun c => Str.contains c transcript_lower) connectors) in
    let score :=
      if Nat.leb 3 connector_count then score + 10
      else if Nat.leb 1 connector_count then score + 5
      else score in
    let score :=
      if Nat.leb 30 word_count && Nat.leb word_count 200 then score + 10
      else if Nat.ltb word_count 15 then score - 15
      else if Nat.ltb 300 word_count then score - 5
      else score in
    Qmax 0 (Qmin 100 score).

(** The result dictionary of [score_answer]; the three last keys are set
    after the quality gates have run. *)
Record score_result := {
  content : Q;
  delivery : Q;
  communication : Q;
  voice : Q;
  confidence : Q;
  structure : Q;
  final : Q;
  wpm : Q;
  filler_count : nat;
  grammar_errors : nat;
  relevance : Q;
  quality_issues : option (list string);
  quality_penalties : option (list (string * Z));
  raw_final : option Q
}.

(** The result of [apply_quality_gates].  The penalties are integers, and
    so is their running sum [total_penalty]. *)
Record quality := {
  issues : list string;
  penalties : list (string * Z);
  total_penalty : Z;
  score_cap : option Z
}.

(** One gate firing: the issue, the penalty under its key, and the sum. *)
Definition penalise (issue key : string) (penalty : Z) (q : quality) : quality :=
  {| issues := (issues q ++ [issue])%list;
     penalties := (penalties q ++ [(key, penalty)])%list;
     total_penalty := (total_penalty q + penalty)%Z;
     score_cap := score_cap q |}.

Definition with_cap (cap : Z) (q : quality) : quality :=
  {| issues := issues q; penalties := penalties q; total_penalty := total_penalty q;
     score_cap := Some cap |}.

(** [cap or 100]: [None] and [0] are falsy. *)
Definition cap_or_100 (cap : option Z) : Z :=
  match cap with
  | Some c => if Z.eqb c 0 then 100%Z else c
  | None => 100%Z
  end.

Definition apply_quality_gates (transcript : string) (scores : score_result)
    (ideal_answer : string) : quality :=
  let result := {| issues := []; penalties := []; total_penalty := 0; score_cap := None |} in
  if Str.falsy transcript then
    {| issues := ["No answer provided"]; penalties := []; total_penalty := 0;
       score_cap := Some 0%Z |}
  else
    let words := Str.split transcript in
    let word_count := length words in
    let unique_words := unique_words_of words in
    (* Gate 1: minimum word count *)
    let min_words := threshold G_min_word_count in
    let result :=
      if Nat.ltb word_count min_words then
        let result :=
          penalise (message G_min_word_count) "short_answer" (penalty G_min_word_count) result in
        if Nat.ltb word_count 10 then with_cap CAP_very_short result
        else if Nat.ltb word_count min_words then with_cap CAP_short result
        else result
      else result in
    (* Gate 2: minimum unique words *)
    let result :=
      if Nat.ltb (size unique_words) (threshold G_min_unique_words) then
        penalise (message G_min_unique_words) "low_vocabulary" (penalty G_min_unique_words) result
      else result in
    (* Gate 3: maximum filler ratio *)
    let filler_ratio :=
      if Nat.ltb 0 word_count then Py.of_nat (filler_count scores) / Py.of_nat word_count else 0 in
    let result :=
      if Py.ltb (threshold G_max_filler_ratio) filler_ratio then
        penalise (message G_max_filler_ratio) "excessive_fillers" (penalty G_max_filler_ratio) result
      else result in
    (* Gate 4: minimum relevance *)
    let result :=
      if Py.ltb (relevance scores) (threshold G_min_relevance) && negb (Str.falsy ideal_answer) then
        let result :=
          penalise (message G_min_relevance) "off_topic" (penalty G_min_relevance) result in
        with_cap (Z.min (cap_or_100 (score_cap result)) CAP_off_topic) result
      else result in
    (* Gate 5: repetition *)
    let result :=
      if Nat.ltb 10 word_count then
        let word_counts :=
          count_words (map Str.lower (List.filter (fun w => Nat.ltb 3 (Str.len w)) words)) in
        if Nat.ltb 0 (size word_counts) then
          let max_repetition := Py.of_nat (max_value word_counts) / Py.of_nat (size word_counts) in
          if Py.ltb (threshold G_max_repetition) max_repetition then
            penalise (message G_max_repetition) "repetitive" (penalty G_max_repetition) result
          else result
        else result
      else result in
    (* Gate 6: nonsense *)
    let nonsense_result := detect_nonsense transcript in
    let result :=
      if is_nonsense nonsense_result then
        with_cap CAP_nonsense
          (penalise ("Answer appears to be nonsense: " ++ reason nonsense_result) "nonsense" 50
             result)
      else result in
    (* Gate 7: coherence *)
    let coherence := calculate_answer_coherence transcript in
    let result :=
      if Py.ltb coherence MIN_COHERENCE_SCORE then
        penalise "Answer lacks coherent structure" "incoherent" 30 result
      else result in
    (* Gate 8: structure *)
    let structure_score := structure scores in
    if Py.ltb structure_score 30 then
      match score_cap result with
      | None => with_cap CAP_no_structure result
      | Some cap => if Z.ltb CAP_no_structure cap then with_cap CAP_no_structure result else result
      end
    else result.

(** *** Aggregation *)

(** Where the exact value lies half way between two tenths, the float that
    the program rounds lies to one side of it, and the program may return
    the other tenth. *)
Definition _clamp_score (score : Q) : Q :=
  Py.round (Qmax MIN_SCORE (Qmin MAX_SCORE score)) 1.

(** The optional [video_analysis] dictionary. *)
Record video := {
  eye_contact : option Q;
  body_stability : option Q;
  emotion_positivity : option Q
}.

(** [result] as [score_answer] initialises it. *)
Definition initial_result : score_result :=
  {| content := 0.0; delivery := 0.0; communication := 0.0; voice := 70.0;
     confidence := 70.0; structure := 0.0; final := 0.0; wpm := 0.0;
     filler_count := 0; grammar_errors := 0; relevance := 0.0;
     quality_issues := None; quality_penalties := None; raw_final := None |}.

(** [result] when the six category scores are in place and the quality
    gates are about to run (steps 1 to 6 of [score_answer]). *)
Definition score_categories (transcript : string) (duration_seconds : Q)
    (ideal_answer : string) (audio_path : option string) (video_analysis : option video)
    : score_result :=
  (* 1. content *)
  let content_analysis := calculate_enhanced_content_score transcript ideal_answer in
  (* 2. delivery *)
  let delivery_score := 100.0 in
  let wpm := compute_wpm transcript duration_seconds in
  let wpm_penalty := snd (get_wpm_assessment wpm) in
  let delivery_score := delivery_score - inject_Z wpm_penalty in
  let filler_count := fst (count_fillers transcript) in
  let filler_penalty :=
    Qmin MAX_FILLER_PENALTY (Py.of_nat filler_count * FILLER_PENALTY_PER_WORD) in
  let delivery_score := delivery_score - filler_penalty in
  (* 3. communication *)
  let comm_analysis := calculate_enhanced_communication_score transcript in
  (* 4. voice *)
  let '(voice, voice_confidence) :=
    match audio_path with
    | Some path =>
        if Str.falsy path then (70.0, 70.0)
        else match analyze_voice env path with
             | Some voice_result =>
                 (_clamp_score (vs_overall voice_result), vs_voice_confidence voice_result)
             | None => (70.0, 70.0)
             end
    | None => (70.0, 70.0)
    end in
  (* 5. structure *)
  let structure_analysis := calculate_structure_score transcript in
  (* 6. confidence *)
  let '(eye_contact, body_stability, emotion_positivity) :=
    match video_analysis with
    | Some v =>
        (default 70.0 (eye_contact v), default 70.0 (body_stability v),
         default 70.0 (emotion_positivity v))
    | None => (70.0, 70.0, 70.0)
    end in
  let confidence_result :=
    calculate_confidence_score voice_confidence eye_contact body_stability emotion_positivity in
  {| content := _clamp_score (ct_final_score content_analysis);
     delivery := _clamp_score delivery_score;
     communication := _clamp_score (cm_final_score comm_analysis);
     voice := voice;
     confidence := _clamp_score confidence_result;
     structure := _clamp_score (st_final_score structure_analysis);
     final := 0.0;
     wpm := wpm;
     filler_count := filler_count;
     grammar_errors :=
       match cm_factors comm_analysis with Some f => f_grammar_errors f | None => 0%nat end;
     relevance := ct_semantic_similarity content_analysis;
     quality_issues := None; quality_penalties := None; raw_final := None |}.

(** The weighted sum of the six category scores of [result]. *)
Definition weighted_sum (result : score_result) : Q :=
  content result * W_content + delivery result * W_delivery
  + communication result * W_communication + voice result * W_voice
  + confidence result * W_confidence + structure result * W_structure.

(** Step 8 of [score_answer]: the final score, from [result] and the
    outcome of the quality gates. *)
Definition with_final_score (result : score_result) (quality_result : quality) : score_result :=
  let raw_final_score := weighted_sum result in
  let final_score := raw_final_score - inject_Z (total_penalty quality_result) in
  let final_score :=
    match score_cap quality_result with
    | Some cap => Qmin final_score (inject_Z cap)
    | None => final_score
    end in
  {| content := content result; delivery := delivery result;
     communication := communication result; voice := voice result;
     confidence := confidence result; structure := structure result;
     final := _clamp_score final_score;
     wpm := wpm result; filler_count := filler_count result;
     grammar_errors := grammar_errors result; relevance := relevance result;
     quality_issues := Some (issues quality_result);
     quality_penalties := Some (penalties quality_result);
     raw_final := Some (_clamp_score raw_final_score) |}.

Definition score_answer (transcript : string) (duration_seconds : Q) (ideal_answer : string)
    (audio_path : option string) (video_analysis : option video) : score_result :=
  if Str.falsy transcript || Nat.ltb (Str.len (Str.strip transcript)) 5 then initial_result
  else
    let result :=
      score_categories transcript duration_seconds ideal_answer audio_path video_analysis in
    (* 7. quality gates *)
    let quality_result := apply_quality_gates transcript result ideal_answer in
    (* 8. final score *)
    with_final_score result quality_result.

(** *** Keyword-only scoring *)

Record keyword_result := {
  kw_content : Q;
  kw_delivery : Q;
  kw_communication : Q;
  kw_final : Q;
  kw_wpm : Q;
  kw_filler_count : nat;
  kw_grammar_errors : nat;
  kw_relevance : Q;
  kw_keywords_found : list string;
  kw_keywords_missing : list string;
  kw_keyword_match_pct : Q
}.

Definition score_answer_by_keywords (transcript : string) (keywords : list string)
    (duration_seconds : Q) (ideal_answer : option string) : keyword_result :=
  if Str.falsy transcript || Nat.ltb (Str.len (Str.strip transcript)) 5 then
    {| kw_content := 0.0; kw_delivery := 0.0; kw_communication := 0.0; kw_final := 0.0;
       kw_wpm := 0.0; kw_filler_count := 0; kw_grammar_errors := 0; kw_relevance := 0.0;
       kw_keywords_found := []; kw_keywords_missing := []; kw_keyword_match_pct := 0.0 |}
  else
    (* 1. content *)
    let '(found, missing, match_pct, content, relevance) :=
      match keywords with
      | _ :: _ =>
          let '(found, missing) := match_keywords transcript keywords in
          let match_pct := Py.of_nat (length found) / Py.of_nat (length keywords) * 100 in
          (found, missing, Py.round match_pct 1,
           Py.round (Qmin 100.0 (Qmax 0.0 match_pct)) 1,
           Py.round (Py.of_nat (length found) / Py.of_nat (length keywords)) 3)
      | [] =>
          match ideal_answer with
          | Some (String _ _ as ideal) =>
              let relevance := semantic_similarity transcript ideal in
              ([], [], 0.0, Py.round (relevance * 100) 1, Py.round relevance 3)
          | _ => ([], [], 0.0, 50.0, 0.0)
          end
      end in
    (* 2. delivery *)
    let delivery_score := 100.0 in
    let wpm := compute_wpm transcript duration_seconds in
    let wpm_penalty := snd (get_wpm_assessment wpm) in
    let delivery_score := delivery_score - inject_Z wpm_penalty in
    let filler_count := fst (count_fillers transcript) in
    let filler_penalty := Qmin 20.0 (Py.of_nat filler_count * 3) in
    let delivery_score := delivery_score - filler_penalty in
    let delivery := Py.round (Qmax 0.0 (Qmin 100.0 delivery_score)) 1 in
    (* 3. communication *)
    let comm_analysis := calculate_enhanced_communication_score transcript in
    let communication := Py.round (Qmax 0.0 (Qmin 100.0 (cm_final_score comm_analysis))) 1 in
    (* 4. final *)
    let final_score :=
      content * W_content + delivery * W_delivery + communication * W_communication in
    {| kw_content := content; kw_delivery := delivery; kw_communication := communication;
       kw_final := Py.round (Qmax 0.0 (Qmin 100.0 final_score)) 1;
       kw_wpm := wpm; kw_filler_count := filler_count;
       kw_grammar_errors :=
         match cm_factors comm_analysis with Some f => f_grammar_errors f | None => 0%nat end;
       kw_relevance := relevance;
       kw_keywords_found := found; kw_keywords_missing := missing;
       kw_keyword_match_pct := match_pct |}.

(** *** Resume scoring *)

Record resume_score := {
  rs_overall_score : Q;
  rs_similarity : Q;
  rs_assessment : string
}.

Definition score_resume (resume_text jd_text : string) : resume_score :=
  if Str.falsy resume_text || Str.falsy jd_text then
    {| rs_overall_score := 0.0; rs_similarity := 0.0;
       rs_assessment := "Unable to analyze - missing text" |}
  else
    let similarity := semantic_similarity resume_text jd_text in
    let overall_score := Qmin 100 (similarity * 120) in
    let assessment :=
      if Py.leb 80 overall_score then
        "Excellent match - resume aligns very well with the job description"
      else if Py.leb 65 overall_score then
        "Good match - resume covers most key requirements"
      else if Py.leb 50 overall_score then
        "Moderate match - consider highlighting more relevant experience"
      else
        "Limited match - consider tailoring resume to this role" in
    {| rs_overall_score := Py.round overall_score 1;
       rs_similarity := Py.round similarity 3;
       rs_assessment := assessment |}.

End WithEnv.
End Engine.

(* ================================================================= *)
(** ** Voice scoring ([voice_analysis_service.py])

    The scores that [VoiceAnalyzer._calculate_scores] derives from the
    metrics of a recording.  The extraction of the metrics from the audio
    signal (librosa) is outside the embedding: it is the parameter
    [extract] of [analyze], [None] when the audio cannot be loaded or the
    extraction raises. *)

Module Voice.
Import Config.

(** The fields of [VoiceMetrics] that the scores are computed from. *)
Record voice_metrics := {
  pitch_std : Q;
  energy_mean_db : Q;
  energy_std_db : Q;
  pauses_per_minute : Q;
  rhythm_variance : Q
}.

(** [VoiceScores], without the feedback texts. *)
Record component_scores := {
  pitch_variation_score : Q;
  energy_projection_score : Q;
  pause_appropriateness_score : Q;
  energy_consistency_score : Q;
  rhythm_stability_score : Q;
  overall_score : Q;
  voice_confidence : Q
}.

Definition _score_pitch_variation (pitch_std : Q) : Q :=
  if Py.ltb pitch_std PITCH_STD_MONOTONE then
    Qmax 0 (pitch_std / PITCH_STD_MONOTONE * 50)
  else if Py.leb pitch_std PITCH_STD_OPTIMAL_MIN then
    let ratio := (pitch_std - PITCH_STD_MONOTONE) / (PITCH_STD_OPTIMAL_MIN - PITCH_STD_MONOTONE) in
    50 + ratio * 30
  else if Py.leb pitch_std PITCH_STD_OPTIMAL_MAX then
    let ratio :=
      (pitch_std - PITCH_STD_OPTIMAL_MIN) / (PITCH_STD_OPTIMAL_MAX - PITCH_STD_OPTIMAL_MIN) in
    80 + ratio * 20
  else if Py.leb pitch_std PITCH_STD_DRAMATIC then
    let ratio :=
      (pitch_std - PITCH_STD_OPTIMAL_MAX) / (PITCH_STD_DRAMATIC - PITCH_STD_OPTIMAL_MAX) in
    100 - ratio * 30
  else
    Qmax 50 (70 - (pitch_std - PITCH_STD_DRAMATIC) * 0.5).

Definition _score_energy_projection (energy_db : Q) : Q :=
  let normalized_db := energy_db + 30 in
  if Py.ltb normalized_db 0 then Qmax 30 (50 + normalized_db * 2)
  else if Py.ltb normalized_db 10 then 50 + normalized_db * 3
  else if Py.ltb normalized_db 20 then 80 + (normalized_db - 10) * 2
  else Qmin 100 100.

Definition _score_pause_pattern (pauses_per_minute : Q) : Q :=
  if Py.ltb pauses_per_minute PAUSE_PER_MIN_TOO_FEW then
    Qmax 40 (60 + (pauses_per_minute - PAUSE_PER_MIN_TOO_FEW) * 10)
  else if Py.leb pauses_per_minute PAUSE_PER_MIN_OPTIMAL_MIN then
    let ratio :=
      (pauses_per_minute - PAUSE_PER_MIN_TOO_FEW)
      / (PAUSE_PER_MIN_OPTIMAL_MIN - PAUSE_PER_MIN_TOO_FEW) in
    60 + ratio * 20
  else if Py.leb pauses_per_minute PAUSE_PER_MIN_OPTIMAL_MAX then
    90 + Qmin 10 ((pauses_per_minute - PAUSE_PER_MIN_OPTIMAL_MIN) * 2)
  else if Py.leb pauses_per_minute PAUSE_PER_MIN_TOO_MANY then
    let ratio :=
      (pauses_per_minute - PAUSE_PER_MIN_OPTIMAL_MAX)
      / (PAUSE_PER_MIN_TOO_MANY - PAUSE_PER_MIN_OPTIMAL_MAX) in
    100 - ratio * 30
  else
    Qmax 40 (70 - (pauses_per_minute - PAUSE_PER_MIN_TOO_MANY) * 3).

Definition _score_energy_consistency (energy_std : Q) : Q :=
  if Py.ltb energy_std 3 then 75
  else if Py.leb energy_std 8 then 90 + Qmin 10 (8 - energy_std)
  else if Py.leb energy_std 15 then
    let ratio := (energy_std - 8) / 7 in
    90 - ratio * 20
  else Qmax 50 (70 - (energy_std - 15) * 2).

Definition _score_rhythm_stability (rhythm_variance : Q) : Q :=
  if Py.ltb rhythm_variance 0.1 then 70
  else if Py.leb rhythm_variance 0.3 then
    let ratio := (rhythm_variance - 0.1) / 0.2 in
    85 + ratio * 15
  else if Py.leb rhythm_variance 0.6 then
    let ratio := (rhythm_variance - 0.3) / 0.3 in
    100 - ratio * 20
  else Qmax 50 (80 - (rhythm_variance - 0.6) * 50).

(** [_calculate_voice_confidence], from the three scores it reads. *)
Definition _calculate_voice_confidence
    (energy_projection_score energy_consistency_score pitch_variation_score : Q) : Q :=
  let confidence :=
    0.5 * energy_projection_score + 0.3 * energy_consistency_score
    + 0.2 * pitch_variation_score in
  Qmin 100 (Qmax 0 confidence).

Definition _calculate_scores (metrics : voice_metrics) : component_scores :=
  let pitch := _score_pitch_variation (pitch_std metrics) in
  let projection := _score_energy_projection (energy_mean_db metrics) in
  let pause := _score_pause_pattern (pauses_per_minute metrics) in
  let consistency := _score_energy_consistency (energy_std_db metrics) in
  let rhythm := _score_rhythm_stability (rhythm_variance metrics) in
  {| pitch_variation_score := pitch;
     energy_projection_score := projection;
     pause_appropriateness_score := pause;
     energy_consistency_score := consistency;
     rhythm_stability_score := rhythm;
     overall_score :=
       VW_pitch_variation * pitch + VW_energy_projection * projection
       + VW_pause_appropriateness * pause + VW_energy_consistency * consistency
       + VW_rhythm_stability * rhythm;
     voice_confidence := _calculate_voice_confidence projection consistency pitch |}.

Definition _get_default_scores : component_scores :=
  {| pitch_variation_score := 70.0;
     energy_projection_score := 70.0;
     pause_appropriateness_score := 70.0;
     energy_consistency_score := 70.0;
     rhythm_stability_score := 70.0;
     overall_score := 70.0;
     voice_confidence := 70.0 |}.

(** [VoiceAnalyzer.analyze]: the scores of the recording at [audio_path],
    the default scores when it cannot be analysed. *)
Definition analyze (extract : string -> option voice_metrics) (audio_path : string)
    : component_scores :=
  match extract audio_path with
  | Some metrics => _calculate_scores metrics
  | None => _get_default_scores
  end.

(** [analyze_voice]: the [scores] of its result that [score_answer] reads.
    It does not raise. *)
Definition analyze_voice (extract : string -> option voice_metrics) (audio_path : string)
    : option voice_scores :=
  let scores := analyze extract audio_path in
  Some {| vs_overall := overall_score scores; vs_voice_confidence := voice_confidence scores |}.

End Voice.

(* ================================================================= *)
(** ** Resume analysis ([resume_service.py])

    The skill extraction and the comparison of a resume with a job
    description, which calls [semantic_similarity]. *)

Module Resume.
Import Config.

Definition extract_skills (text : string) : gset string :=
  if Str.falsy text then ∅
  else
    let text_lower := Str.lower text in
    fold_left
      (fun found_skills skill =>
         if Nat.leb (Str.len skill) 3 then
           if Re.search (Re.whole (Re.lit skill)) text_lower
           then found_skills ∪ {[skill]} else found_skills
         else
           if Str.contains skill text_lower
           then found_skills ∪ {[skill]} else found_skills)
      COMMON_SKILLS ∅.

(** [sorted(list(s))]: the elements of a set of strings in the order of
    their code points. *)
Fixpoint insert_sorted (x : string) (sorted : list string) : list string :=
  match sorted with
  | [] => [x]
  | y :: ys => if String.leb x y then x :: y :: ys else y :: insert_sorted x ys
  end.

Definition sorted (s : gset string) : list string := fold_right insert_sorted [] (elements s).

Record comparison := {
  skill_match_pct : Q;
  matched_skills : list string;
  missing_skills : list string;
  extra_skills : list string;
  similarity_score : Q;
  jd_skills_count : nat;
  resume_skills_count : nat
}.

Definition compare_resume_with_jd (env : Env) (resume_text jd_text : string) : comparison :=
  let resume_skills := extract_skills resume_text in
  let jd_skills := extract_skills jd_text in
  let matched_skills := resume_skills ∩ jd_skills in
  let missing_skills := jd_skills ∖ resume_skills in
  let extra_skills := resume_skills ∖ jd_skills in
  let skill_match_pct :=
    if Nat.eqb (size jd_skills) 0 then 50.0
    else Py.of_nat (size matched_skills) / Py.of_nat (size jd_skills) * 100 in
  let similarity_score := Engine.semantic_similarity env resume_text jd_text in
  let combined_score := skill_match_pct * 0.6 + (similarity_score * 100) * 0.4 in
  {| skill_match_pct := Py.round combined_score 1;
     matched_skills := sorted matched_skills;
     missing_skills := sorted missing_skills;
     extra_skills := sorted extra_skills;
     similarity_score := Py.round similarity_score 3;
     jd_skills_count := size jd_skills;
     resume_skills_count := size resume_skills |}.

End Resume.

(* ================================================================= *)
(** ** A concrete environment

    The pipeline with every optional collaborator unavailable, so that each
    documented fallback is taken: no sentence encoder (token-set
    similarity), no grammar checker (the regular-expression heuristics), a
    voice analysis that raises (neutral voice score).  numpy's square roots
    are taken to six decimals. *)

Module Offline.

(** The square root of a non-negative rational, rounded down to six
    decimals. *)
Definition sqrt6 (x : Q) : Q :=
  inject_Z (Z.sqrt (Qfloor (x * 1000000000000))) / 1000000.

Definition norm (v : list Q) : Q := sqrt6 (Engine.np_dot v v).

Definition std (xs : list Q) : Q :=
  let mean := Engine.np_mean xs in
  sqrt6 (Engine.np_mean (map (fun x => (x - mean) * (x - mean)) xs)).

Definition env : Env :=
  {| sentence_model := None;
     np_norm := norm;
     np_std := std;
     language_tool := None;
     analyze_voice := fun _ => None |}.

End Offline.

(** A stand-in sentence encoder, to run the embedding path: a text of [n]
    characters is embedded as [(n, 1)].  Its norm, the square root of
    [n * n + 1], is not rational: the square root above approximates it, as
    numpy's norm does. *)

Module Encoded.

Definition encode (text : string) : option (list Q) :=
  let n := Py.of_nat (Str.len text) in
  Some [n; 1].

Definition env : Env :=
  {| sentence_model := Some encode;
     np_norm := Offline.norm;
     np_std := Offline.std;
     language_tool := None;
     analyze_voice := fun _ => None |}.

End Encoded.

(** A third environment, with a recording and a grammar checker: every
    feature of the recording takes the value that the extraction falls back
    to when it cannot measure it, and the grammar checker raises on every
    text. *)

Module Recorded.

Definition fallback_metrics : Voice.voice_metrics :=
  {| Voice.pitch_std := 20.0;
     Voice.energy_mean_db := - 20.0;
     Voice.energy_std_db := 5.0;
     Voice.pauses_per_minute := 5.0;
     Voice.rhythm_variance := 0.5 |}.

Definition extract (audio_path : string) : option Voice.voice_metrics := Some fallback_metrics.

Definition env : Env :=
  {| sentence_model := None;
     np_norm := Offline.norm;
     np_std := Offline.std;
     language_tool := Some (fun _ => None);
     analyze_voice := Voice.analyze_voice extract |}.

End Recorded.

(* ================================================================= *)
(** ** Reference answers and the specification's formulas *)

Import Config Engine.

(** The fixtures of [tests/test_scoring.py]. *)
Definition sample_transcript : string :=
  "I have extensive experience in software development, 
    particularly in Python and machine learning. In my previous role,
    I led a team of five developers on a data analytics project that
    increased efficiency by thirty percent.".

Definition sample_ideal_answer : string :=
  "A strong candidate should demonstrate their technical expertise,
    mention specific projects and achievements, and quantify their impact.
    They should mention team leadership and problem-solving skills.".

(** An answer that reaches 100 on keyword match, delivery and
    communication, with its keyword list. *)
Definition strong_answer : string :=
  "First I analyzed the legacy billing platform and designed a modular replacement. Second our team implemented the core services because customers needed faster invoices. Then we developed automated regression tests and coordinated weekly releases with operations. However several external integrations failed, therefore I managed a focused recovery effort. Finally we optimized database queries, established monitoring dashboards, and also delivered training sessions. Overall the project achieved its stated goals, thus revenue reporting improved significantly.".

Definition strong_answer_keywords : list string := ["billing"; "monitoring"; "tests"].

(** Twelve words of four letters, none of them English. *)
Definition gibberish : string :=
  "qwzx plmk vbnt grfd zzkq wvxr tkkp bnmq xzcv rtyp fghj mnbv".

(** The pace penalty as the specification words it: 0 inside [130,160], 5
    in the shoulders, and outside [100,180] a penalty linear in the
    distance from a reference bound ([lo] below, [hi] above) with
    coefficients 0.5 and 0.3, capped at 30. *)
Definition pace_penalty_spec (lo hi : Q) (wpm : Q) : Q :=
  if Py.leb 130 wpm && Py.leb wpm 160 then 0
  else if Py.leb 100 wpm && Py.leb wpm 180 then 5
  else if Py.ltb wpm 100 then Qmin 30 (0.5 * (lo - wpm))
  else Qmin 30 (0.3 * (wpm - hi)).


(** The norm that numpy returns for the embedding of [t], when there is
    one, is not zero and is the Euclidean norm up to rounding: its square
    is the dot product of the embedding with itself to within one part in
    ten thousand.  A floating-point norm is far closer than that. *)
Definition norm_accurate (env : Env) (t : string) : Prop :=
  match sentence_model env with
  | Some encode =>
      match encode t with
      | Some v =>
          ~ np_norm env v == 0
          /\ Qabs (np_norm env v * np_norm env v - np_dot v v) <= np_dot v v / 10000
      | None => True
      end
  | None => True
  end.

(** The speaking rate of [t] over [d] seconds is a finite float: the
    duration is not positive (the rate is then 0), or the words per minute
    stay below 10^300.  Beyond the largest float, about 1.8e308, the
    quotient of [compute_wpm] is infinite, [get_wpm_assessment] raises
    [OverflowError] on it and [score_answer] returns nothing. *)
Definition finite_rate (t : string) (d : Q) : Prop :=
  d <= 0 \/ Py.of_nat (length (Str.split t)) * 60 <= d * inject_Z (10 ^ 300).



(** The sum of the values of a [penalties] dictionary. *)
Definition penalties_sum (ps : list (string * Z)) : Z := fold_right Z.add 0%Z (map snd ps).

(** Of a list of gates, each with the truth value of its condition, those
    that fire. *)
Definition fired {A : Type} (gates : list (bool * A)) : list A := map snd (List.filter fst gates).

(** [q] is the outcome of [gates]: the penalties of those that fire, in
    order, their sum, one issue for each, and the score cap [cap]. *)
Definition gate_outcome (gates : list (bool * (string * Z))) (cap : option Z) (q : quality)
    : Prop :=
  penalties q = fired gates
  /\ total_penalty q = penalties_sum (fired gates)
  /\ length (issues q) = length (fired gates)
  /\ score_cap q = cap.

(* ================================================================= *)
(** * Properties *)

(** ** Numbers *)

Lemma ltb_lt (a b : Q) : Py.ltb a b = true <-> a < b.
Proof.
  unfold Py.ltb. rewrite negb_true_iff.
  split; intros H.
  - apply Qnot_le_lt. intros Hle. apply Qle_bool_iff in Hle. congruence.
  - destruct (Qle_bool b a) eqn:E; [|reflexivity].
    apply Qle_bool_iff in E. apply Qle_not_lt in E. contradiction.
Qed.

Lemma ltb_ge (a b : Q) : Py.ltb a b = false <-> b <= a.
Proof.
  unfold Py.ltb. rewrite negb_false_iff. apply Qle_bool_iff.
Qed.

Lemma leb_le (a b : Q) : Py.leb a b = true <-> a <= b.
Proof. apply Qle_bool_iff. Qed.

Lemma leb_gt (a b : Q) : Py.leb a b = false <-> b < a.
Proof.
  unfold Py.leb. split; intros H.
  - apply Qnot_le_lt. intros Hle. apply Qle_bool_iff in Hle. congruence.
  - destruct (Qle_bool a b) eqn:E; [|reflexivity].
    apply Qle_bool_iff in E. apply Qle_not_lt in E. contradiction.
Qed.

(** Case analysis on a float comparison, with the ordering fact in context. *)
Ltac cmp_cases :=
  match goal with
  | |- context [Py.ltb ?a ?b] =>
      let E := fresh "E" in
      destruct (Py.ltb a b) eqn:E;
      [apply ltb_lt in E | apply ltb_ge in E]
  | |- context [Py.leb ?a ?b] =>
      let E := fresh "E" in
      destruct (Py.leb a b) eqn:E;
      [apply leb_le in E | apply leb_gt in E]
  end.

Lemma int_floor (x : Q) : 0 <= x -> Py.int x = Qfloor x.
Proof.
  destruct x as [n d]. unfold Qle, Py.int, Qfloor. simpl. intros H.
  apply Z.quot_div_nonneg; lia.
Qed.

Lemma round_half_even_comp (x y : Q) : x == y -> Py.round_half_even x = Py.round_half_even y.
Proof.
  intros H. unfold Py.round_half_even.
  rewrite (Qfloor_comp _ _ H).
  replace (Qcompare (x - inject_Z (Qfloor y)) (1 # 2))
    with (Qcompare (y - inject_Z (Qfloor y)) (1 # 2)); [reflexivity|].
  apply Qcompare_comp; [rewrite H|]; reflexivity.
Qed.

Lemma round_half_even_close (x : Q) :
  x - (1 # 2) <= inject_Z (Py.round_half_even x) <= x + (1 # 2).
Proof.
  unfold Py.round_half_even.
  pose proof (Qfloor_le x) as Hlo. pose proof (Qlt_floor x) as Hhi.
  rewrite inject_Z_plus in Hhi. change (inject_Z 1) with 1 in Hhi.
  destruct (Qcompare (x - inject_Z (Qfloor x)) (1 # 2)) eqn:E.
  - apply Qeq_alt in E.
    destruct (Z.even (Qfloor x)); try rewrite inject_Z_plus;
      try change (inject_Z 1) with 1; split; lra.
  - apply Qlt_alt in E. split; lra.
  - apply Qgt_alt in E. rewrite inject_Z_plus. change (inject_Z 1) with 1. split; lra.
Qed.

Lemma round_half_even_between (a b : Z) (x : Q) :
  inject_Z a <= x <= inject_Z b -> (a <= Py.round_half_even x <= b)%Z.
Proof.
  intros [Ha Hb]. unfold Py.round_half_even.
  assert (Hfa : (a <= Qfloor x)%Z).
  { rewrite <- (Qfloor_Z a). apply Qfloor_resp_le. exact Ha. }
  assert (Hfb : (Qfloor x <= b)%Z).
  { rewrite <- (Qfloor_Z b). apply Qfloor_resp_le. exact Hb. }
  assert (Hstep : 0 < x - inject_Z (Qfloor x) -> (Qfloor x + 1 <= b)%Z).
  { intros Hpos. destruct (Z.eq_dec (Qfloor x) b) as [Heq|Hne]; [|lia].
    rewrite Heq in Hpos. lra. }
  destruct (Qcompare (x - inject_Z (Qfloor x)) (1 # 2)) eqn:E.
  - apply Qeq_alt in E. destruct (Z.even (Qfloor x)); [lia|].
    split; [lia|]. apply Hstep. lra.
  - lia.
  - apply Qgt_alt in E. split; [lia|]. apply Hstep. lra.
Qed.

Lemma round_half_even_Z (z : Z) : Py.round_half_even (inject_Z z) = z.
Proof.
  pose proof (round_half_even_between z z (inject_Z z)) as H.
  assert (Hz : inject_Z z <= inject_Z z <= inject_Z z) by (split; apply Qle_refl).
  specialize (H Hz). lia.
Qed.

Lemma scale_pos (n : nat) : 0 < inject_Z (10 ^ Z.of_nat n).
Proof.
  replace 0 with (inject_Z 0) by reflexivity. rewrite <- Zlt_Qlt.
  apply Z.pow_pos_nonneg; lia.
Qed.

Lemma round_comp (x y : Q) (n : nat) : x == y -> Py.round x n == Py.round y n.
Proof.
  intros H. unfold Py.round.
  set (s := inject_Z (10 ^ Z.of_nat n)).
  rewrite (round_half_even_comp (x * s) (y * s)); [reflexivity|].
  rewrite H. reflexivity.
Qed.

(** [round] keeps a value between two integers between them. *)
Lemma round_between (a b : Z) (x : Q) (n : nat) :
  inject_Z a <= x <= inject_Z b -> inject_Z a <= Py.round x n <= inject_Z b.
Proof.
  intros [Ha Hb]. unfold Py.round.
  pose proof (scale_pos n) as Hs.
  set (s := (10 ^ Z.of_nat n)%Z) in *.
  pose proof (round_half_even_between (a * s) (b * s) (x * inject_Z s)) as H.
  rewrite !inject_Z_mult in H.
  destruct H as [H1 H2].
  { split; nra. }
  rewrite Zle_Qle, inject_Z_mult in H1. rewrite Zle_Qle, inject_Z_mult in H2.
  split.
  - apply Qle_shift_div_l; [exact Hs | exact H1].
  - apply Qle_shift_div_r; [exact Hs | exact H2].
Qed.

(** [round(x, n)] is within half a unit of the last digit of [x]. *)
Lemma round_close (x : Q) (n : nat) :
  Qabs (Py.round x n - x) <= (1 # 2) / inject_Z (10 ^ Z.of_nat n).
Proof.
  unfold Py.round. pose proof (scale_pos n) as Hs.
  set (s := inject_Z (10 ^ Z.of_nat n)) in *.
  pose proof (round_half_even_close (x * s)) as [H1 H2].
  set (r := inject_Z (Py.round_half_even (x * s))) in *.
  assert (Hd : (r / s) * s == r) by (field; lra).
  assert (Hh : ((1 # 2) / s) * s == 1 # 2) by (field; lra).
  set (d := r / s) in *. set (h := (1 # 2) / s) in *.
  apply Qabs_Qle_condition. split; nra.
Qed.

(** A value with at most [n] decimals is its own rounding. *)
Lemma round_exact (z : Z) (n : nat) :
  Py.round (inject_Z z / inject_Z (10 ^ Z.of_nat n)) n == inject_Z z / inject_Z (10 ^ Z.of_nat n).
Proof.
  unfold Py.round. pose proof (scale_pos n) as Hs.
  set (s := inject_Z (10 ^ Z.of_nat n)) in *.
  rewrite (round_half_even_comp _ (inject_Z z)).
  - rewrite round_half_even_Z. reflexivity.
  - field. lra.
Qed.

Lemma round_Z (z : Z) (n : nat) : Py.round (inject_Z z) n == inject_Z z.
Proof.
  pose proof (round_between z z (inject_Z z) n) as H.
  destruct H as [H1 H2]; [split; apply Qle_refl|]. apply Qle_antisym; assumption.
Qed.


(** ** Clamping *)





(** Rounding is monotone. *)

Lemma round_half_even_mono (x y : Q) :
  x <= y -> (Py.round_half_even x <= Py.round_half_even y)%Z.
Proof.
  intros H.
  pose proof (Qfloor_resp_le _ _ H) as Hf.
  destruct (Z.eq_dec (Qfloor x) (Qfloor y)) as [Heq|Hne].
  - unfold Py.round_half_even. rewrite <- Heq.
    destruct (Qcompare (x - inject_Z (Qfloor x)) (1 # 2)) eqn:Ex;
      destruct (Qcompare (y - inject_Z (Qfloor x)) (1 # 2)) eqn:Ey;
      repeat match goal with
             | E : Qcompare _ _ = Eq |- _ => apply Qeq_alt in E
             | E : Qcompare _ _ = Lt |- _ => apply Qlt_alt in E
             | E : Qcompare _ _ = Gt |- _ => apply Qgt_alt in E
             end;
      try destruct (Z.even (Qfloor x)); try lia; exfalso; lra.
  - assert (Hx : (Py.round_half_even x <= Qfloor x + 1)%Z).
    { unfold Py.round_half_even.
      destruct (Qcompare (x - inject_Z (Qfloor x)) (1 # 2));
        try destruct (Z.even (Qfloor x)); lia. }
    assert (Hy : (Qfloor y <= Py.round_half_even y)%Z).
    { unfold Py.round_half_even.
      destruct (Qcompare (y - inject_Z (Qfloor y)) (1 # 2));
        try destruct (Z.even (Qfloor y)); lia. }
    lia.
Qed.

(** [round] is monotone. *)
Lemma round_mono (x y : Q) (n : nat) : x <= y -> Py.round x n <= Py.round y n.
Proof.
  intros H. unfold Py.round. pose proof (scale_pos n) as Hs.
  set (s := inject_Z (10 ^ Z.of_nat n)) in *.
  assert (Hm : (Py.round_half_even (x * s) <= Py.round_half_even (y * s))%Z).
  { apply round_half_even_mono. nra. }
  rewrite Zle_Qle in Hm.
  apply Qle_shift_div_l; [exact Hs|].
  set (a := inject_Z (Py.round_half_even (x * s))) in *.
  set (b := inject_Z (Py.round_half_even (y * s))) in *.
  assert (Ha : a / s * s == a) by (field; lra).
  lra.
Qed.

(** [round(x, 1)] keeps a value between two multiples of a tenth between
    them. *)
Lemma round_tenths (a b : Z) (x : Q) :
  inject_Z a / 10 <= x <= inject_Z b / 10 ->
  inject_Z a / 10 <= Py.round x 1 <= inject_Z b / 10.
Proof.
  intros [Ha Hb]. split.
  - rewrite <- (round_exact a 1). apply round_mono. exact Ha.
  - rewrite <- (round_exact b 1). apply round_mono. exact Hb.
Qed.


Lemma clamp_score_tenths (a b : Z) (x : Q) :
  (0 <= a)%Z -> (b <= 1000)%Z ->
  inject_Z a / 10 <= x <= inject_Z b / 10 ->
  inject_Z a / 10 <= _clamp_score x <= inject_Z b / 10.
Proof.
  intros Ha Hb [H1 H2]. unfold _clamp_score. apply round_tenths.
  assert (Ha' : 0 <= inject_Z a) by (change 0 with (inject_Z 0); rewrite <- Zle_Qle; exact Ha).
  assert (Hb' : inject_Z b <= 1000) by (change 1000 with (inject_Z 1000); rewrite <- Zle_Qle; exact Hb).
  unfold MIN_SCORE, MAX_SCORE.
  set (qa := inject_Z a) in *. set (qb := inject_Z b) in *. clearbody qa qb.
  unfold Qdiv in *. change (/ 10) with (1 # 10) in *.
  assert (Hm : qa * (1 # 10) <= Qmin 100 x <= qb * (1 # 10)).
  { destruct (Q.min_spec 100 x) as [[Hc ->]|[Hc ->]]; split; lra. }
  destruct (Q.max_spec 0 (Qmin 100 x)) as [[Hc ->]|[Hc ->]]; split; lra.
Qed.

(** A value within a ten-thousandth below 1 rounds to 1 at three decimals. *)
Lemma round_near_one (x : Q) : 0.9999 <= x <= 1 -> Py.round x 3 == 1.
Proof.
  intros [Hlo Hhi]. apply Qle_antisym.
  - apply Qle_trans with (Py.round 1 3); [apply round_mono; exact Hhi | vm_compute; discriminate].
  - apply Qle_trans with (Py.round 0.9999 3); [vm_compute; discriminate | apply round_mono; exact Hlo].
Qed.

(** ** Speaking pace (C8) *)


(** C8, as stated, fails: at 99 words per minute the code's penalty is 0,
    while a penalty linear in the distance from the optimal bound 130 is
    15.5, and one linear in the distance from the threshold 100 is 0.5. *)
Lemma pace_penalty_not_linear :
  snd (get_wpm_assessment 99) = 0%Z
  /\ pace_penalty_spec 130 160 99 == 15.5
  /\ pace_penalty_spec 100 180 99 == 0.5.
Proof. vm_compute. repeat split; reflexivity. Qed.

(** C8, amended: the pace penalty is 0 inside [130,160], 5 in [100,130)
    and (160,180], and outside [100,180] it is the integer part of the
    distance from the threshold (100 or 180) times 0.5 (below) or 0.3
    (above), capped at 30. *)
Theorem pace_penalty_piecewise (wpm : Q) :
  let penalty := snd (get_wpm_assessment wpm) in
  (130 <= wpm <= 160 -> penalty = 0%Z)
  /\ (100 <= wpm < 130 \/ 160 < wpm <= 180 -> penalty = 5%Z)
  /\ (wpm < 100 -> penalty = Z.min 30 (Qfloor ((100 - wpm) * 0.5)))
  /\ (180 < wpm -> penalty = Z.min 30 (Qfloor ((wpm - 180) * 0.3)))
  /\ (0 <= penalty <= 30)%Z.
Proof.
  unfold get_wpm_assessment, WPM_TOO_SLOW, WPM_TOO_FAST, OPTIMAL_WPM_MIN, OPTIMAL_WPM_MAX.
  repeat (cmp_cases; cbn [snd andb]); (repeat split; try (intros; lra)).
  all: try (intros; rewrite int_floor by lra; reflexivity).
  all: try (intros [?|?]; lra).
  all: try lia.
  all: try (apply Z.min_glb; [lia|]; rewrite int_floor by lra;
            rewrite <- (Qfloor_Z 0); apply Qfloor_resp_le; change (inject_Z 0) with 0; lra).
Qed.

(** ** Grammar factor (C7) *)

(** The grammar factor is [100 - 3 e] clamped to [0, 100]; no cap of 40 is
    put on the penalty. *)
Lemma grammar_factor_value (e : nat) :
  grammar_factor e == Qmax 0 (100 - 3 * Py.of_nat e).
Proof.
  unfold grammar_factor, GRAMMAR_PENALTY_PER_ERROR, Py.of_nat.
  set (z := Z.of_nat e).
  assert (Hz : (0 <= z)%Z) by (subst z; lia).
  destruct (Z.le_gt_cases (100 - 3 * z) 0) as [Hneg|Hpos].
  - assert (Hq : 100 - inject_Z z * 3.0 <= 0).
    { rewrite Zle_Qle in Hneg. unfold Z.sub in Hneg.
      rewrite inject_Z_plus, inject_Z_opp, inject_Z_mult in Hneg.
      change (inject_Z 100) with 100 in Hneg. change (inject_Z 3) with 3 in Hneg.
      change (inject_Z 0) with 0 in Hneg. lra. }
    rewrite (round_comp _ (inject_Z 0)).
    + rewrite round_Z. rewrite Q.max_l by lra. reflexivity.
    + rewrite (Q.max_l 0) by exact Hq. rewrite Q.min_r by lra. reflexivity.
  - assert (Hq : 0 <= inject_Z (100 - 3 * z) <= 100).
    { split.
      - change 0 with (inject_Z 0). rewrite <- Zle_Qle. lia.
      - change 100 with (inject_Z 100). rewrite <- Zle_Qle. lia. }
    assert (Hv : 100 - inject_Z z * 3.0 == inject_Z (100 - 3 * z)).
    { unfold Z.sub. rewrite inject_Z_plus, inject_Z_opp, inject_Z_mult.
      change (inject_Z 100) with 100. change (inject_Z 3) with 3. lra. }
    rewrite (round_comp _ (inject_Z (100 - 3 * z))).
    + rewrite round_Z. rewrite Q.max_r by lra. lra.
    + rewrite Hv. rewrite (Q.max_r 0) by lra. rewrite Q.min_r by lra. reflexivity.
Qed.

(** C7 at twenty errors: the grammar factor is 40, below the 60 that a
    penalty capped at [MAX_GRAMMAR_PENALTY] would leave. *)
Theorem grammar_factor_below_60 :
  grammar_factor 20 == 40 /\ grammar_factor 20 < 100 - MAX_GRAMMAR_PENALTY.
Proof. split; vm_compute; reflexivity. Qed.

(** ** The minimum-length guard *)

Lemma falsy_empty (t : string) : Str.falsy t = true <-> t = EmptyString.
Proof. destruct t; simpl; split; congruence. Qed.

(** [not transcript or len(transcript.strip()) < n], for a positive [n],
    is [len(transcript.strip()) < n]. *)
Lemma guard_short (t : string) (n : nat) :
  (0 < n)%nat ->
  Str.falsy t || Nat.ltb (Str.len (Str.strip t)) n = true <-> (Str.len (Str.strip t) < n)%nat.
Proof.
  intros Hn. rewrite orb_true_iff, Nat.ltb_lt, falsy_empty.
  split.
  - intros [->|H]; [simpl; lia | exact H].
  - intros H. right. exact H.
Qed.

Lemma guard_long (t : string) (n : nat) :
  (0 < n)%nat ->
  Str.falsy t || Nat.ltb (Str.len (Str.strip t)) n = false <-> (n <= Str.len (Str.strip t))%nat.
Proof.
  intros Hn. pose proof (guard_short t n Hn) as H.
  destruct (Str.falsy t || Nat.ltb (Str.len (Str.strip t)) n); split; intros H'.
  - discriminate.
  - assert (Str.len (Str.strip t) < n)%nat by (apply H; reflexivity). lia.
  - destruct (Nat.lt_ge_cases (Str.len (Str.strip t)) n) as [Hlt|Hge]; [|exact Hge].
    apply H in Hlt. discriminate.
  - reflexivity.
Qed.

(** ** Similarity *)

(** [max(lo, min(hi, x))] lies between [lo] and [hi]. *)
Lemma clamp_between (lo hi x a b : Q) :
  a <= lo -> lo <= hi -> hi <= b -> a <= Qmax lo (Qmin hi x) <= b.
Proof.
  intros Ha Hlh Hb. split.
  - apply Qle_trans with lo; [exact Ha | apply Q.le_max_l].
  - apply Qle_trans with hi; [|exact Hb].
    apply Q.max_lub; [exact Hlh | apply Q.le_min_l].
Qed.

(** [min(hi, max(lo, x))] lies between [lo] and [hi]. *)
Lemma clamp_between' (lo hi x a b : Q) :
  a <= lo -> lo <= hi -> hi <= b -> a <= Qmin hi (Qmax lo x) <= b.
Proof.
  intros Ha Hlh Hb. split.
  - apply Qle_trans with lo; [exact Ha|].
    apply Q.min_glb; [exact Hlh | apply Q.le_max_l].
  - apply Qle_trans with hi; [apply Q.le_min_l | exact Hb].
Qed.

Lemma ratio_bounds (a b : nat) :
  (a <= b)%nat -> (0 < b)%nat -> 0 <= Py.of_nat a / Py.of_nat b <= 1.
Proof.
  intros Hab Hb. unfold Py.of_nat.
  assert (Hb' : 0 < inject_Z (Z.of_nat b)).
  { change 0 with (inject_Z 0). rewrite <- Zlt_Qlt. lia. }
  assert (Ha' : 0 <= inject_Z (Z.of_nat a)).
  { change 0 with (inject_Z 0). rewrite <- Zle_Qle. lia. }
  assert (Hab' : inject_Z (Z.of_nat a) <= inject_Z (Z.of_nat b)).
  { rewrite <- Zle_Qle. lia. }
  split.
  - apply Qle_shift_div_l; [exact Hb'|]. lra.
  - apply Qle_shift_div_r; [exact Hb'|]. lra.
Qed.

Lemma ratio_one (a : nat) : (0 < a)%nat -> Py.of_nat a / Py.of_nat a == 1.
Proof.
  intros Ha. unfold Py.of_nat.
  assert (Ha' : 0 < inject_Z (Z.of_nat a)).
  { change 0 with (inject_Z 0). rewrite <- Zlt_Qlt. lia. }
  field. lra.
Qed.

Lemma fallback_similarity_bounds (text1 text2 : string) :
  0 <= _fallback_similarity text1 text2 <= 1.
Proof.
  unfold _fallback_similarity.
  destruct (Nat.eqb_spec (size (word_set text1 ∪ word_set text2)) 0) as [_|Hne].
  - split; lra.
  - apply ratio_bounds; [|lia].
    apply subseteq_size.
    etrans; [apply intersection_subseteq_l | apply union_subseteq_l].
Qed.

Section Bounds.
Context (env : Env).

Lemma semantic_similarity_bounds (text1 text2 : string) :
  0 <= semantic_similarity env text1 text2 <= 1.
Proof.
  unfold semantic_similarity.
  destruct (Str.falsy text1 || Str.falsy text2); [split; lra|].
  destruct (sentence_model env) as [encode|]; [|apply fallback_similarity_bounds].
  destruct (encode text1) as [e0|]; [|apply fallback_similarity_bounds].
  destruct (encode text2) as [e1|]; [|apply fallback_similarity_bounds].
  apply clamp_between; lra.
Qed.


End Bounds.

(** ** Full-mode scoring *)




Section FullMode.
Context (env : Env).

Lemma score_answer_short (t : string) (d : Q) (ideal : string) (a : option string)
    (v : option video) :
  (Str.len (Str.strip t) < 5)%nat -> score_answer env t d ideal a v = initial_result.
Proof.
  intros H. unfold score_answer. apply (guard_short t 5) in H; [|lia].
  rewrite H. reflexivity.
Qed.

Lemma score_answer_long (t : string) (d : Q) (ideal : string) (a : option string)
    (v : option video) :
  (5 <= Str.len (Str.strip t))%nat ->
  score_answer env t d ideal a v
  = with_final_score (score_categories env t d ideal a v)
      (apply_quality_gates t (score_categories env t d ideal a v) ideal).
Proof.
  intros H. unfold score_answer. apply (guard_long t 5) in H; [|lia].
  rewrite H. reflexivity.
Qed.

(** The category scores, as [score_categories] sets them. *)
Lemma score_categories_fields (t : string) (d : Q) (ideal : string) (a : option string)
    (v : option video) :
  let r := score_categories env t d ideal a v in
  content r = _clamp_score (ct_final_score (calculate_enhanced_content_score env t ideal))
  /\ (exists x, delivery r = _clamp_score x)
  /\ communication r = _clamp_score (cm_final_score (calculate_enhanced_communication_score env t))
  /\ (voice r = 70.0 \/ exists x, voice r = _clamp_score x)
  /\ (exists x, confidence r = _clamp_score x)
  /\ structure r = _clamp_score (st_final_score (calculate_structure_score t))
  /\ relevance r = ct_semantic_similarity (calculate_enhanced_content_score env t ideal).
Proof.
  unfold score_categories.
  destruct a as [path|];
    [destruct (Str.falsy path); [|destruct (analyze_voice env path) as [voice_result|]]|];
    destruct v as [video_analysis|];
    cbn [content delivery communication voice confidence structure relevance];
    repeat split; eauto.
Qed.


End FullMode.



(** *** The final score (C1) *)




(** *** Transcripts below the minimum length (C3) *)

(** C3, as stated, fails: for the empty transcript the voice and
    confidence scores are 70, not 0. *)
Lemma empty_transcript_voice_confidence :
  let r := score_answer Offline.env "" 30 sample_ideal_answer None None in
  voice r == 70 /\ confidence r == 70 /\ ~ voice r == 0 /\ ~ confidence r == 0.
Proof. cbv zeta. vm_compute. repeat split; discriminate. Qed.

(** C3, amended: for the empty transcript and any transcript of fewer than
    five characters once stripped, full-mode scoring returns the initial
    result: final, content, delivery, communication and structure are 0,
    voice and confidence keep their neutral default 70. *)
Theorem short_transcript_scores (env : Env) (t : string) (d : Q) (ideal : string)
    (a : option string) (v : option video) :
  (Str.len (Str.strip t) < 5)%nat ->
  let r := score_answer env t d ideal a v in
  r = initial_result
  /\ final r == 0 /\ content r == 0 /\ delivery r == 0 /\ communication r == 0
  /\ structure r == 0 /\ voice r == 70 /\ confidence r == 70.
Proof.
  intros Hshort. cbv zeta. rewrite score_answer_short by exact Hshort.
  split; [reflexivity|]. vm_compute. repeat split.
Qed.

Lemma short_transcript_scores_witness :
  (Str.len (Str.strip "") < 5)%nat
  /\ let r := score_answer Offline.env "" 30 sample_ideal_answer None None in
     r = initial_result
     /\ final r == 0 /\ content r == 0 /\ delivery r == 0 /\ communication r == 0
     /\ structure r == 0 /\ voice r == 70 /\ confidence r == 70.
Proof.
  split.
  - vm_compute. lia.
  - apply (short_transcript_scores Offline.env "" 30 sample_ideal_answer None None).
    vm_compute. lia.
Defined.


(** ** Content without a reference (C6) *)

Section NoReference.
Context (env : Env).




End NoReference.



(** ** The keyword-only final score (C4) *)

Section KeywordMode.
Context (env : Env).

(** [max(0.0, min(100.0, x))] with the literals of the source. *)
Lemma clamp_literals (x : Q) : Qmax 0.0 (Qmin 100.0 x) == Qmax 0 (Qmin 100 x).
Proof.
  destruct (Qlt_le_dec x 0) as [H|H].
  - rewrite (Q.min_r 100.0 x), (Q.min_r 100 x) by lra.
    rewrite (Q.max_l 0.0 x), (Q.max_l 0 x) by lra. reflexivity.
  - destruct (Qlt_le_dec x 100) as [H'|H'].
    + rewrite (Q.min_r 100.0 x), (Q.min_r 100 x) by lra.
      rewrite (Q.max_r 0.0 x), (Q.max_r 0 x) by lra. reflexivity.
    + rewrite (Q.min_l 100.0 x), (Q.min_l 100 x) by lra.
      rewrite (Q.max_r 0.0 100.0), (Q.max_r 0 100) by lra. reflexivity.
Qed.

Lemma round_clamp_bounds (x : Q) : 0 <= Py.round (Qmax 0.0 (Qmin 100.0 x)) 1 <= 100.
Proof. apply (round_between 0 100). unfold inject_Z. apply clamp_between; lra. Qed.

(** The scores of keyword-only mode past the minimum-length guard: a
    content score in range, a clamped delivery and communication score,
    and the final score as the clamped weighted sum of the three. *)
Lemma keyword_result_shape (t : string) (kws : list string) (d : Q) (ideal : option string) :
  Str.falsy t || Nat.ltb (Str.len (Str.strip t)) 5 = false ->
  let r := score_answer_by_keywords env t kws d ideal in
  0 <= kw_content r <= 100
  /\ (exists x, kw_delivery r = Py.round (Qmax 0.0 (Qmin 100.0 x)) 1)
  /\ (exists x, kw_communication r = Py.round (Qmax 0.0 (Qmin 100.0 x)) 1)
  /\ kw_final r
     = Py.round (Qmax 0.0 (Qmin 100.0
         (kw_content r * W_content + kw_delivery r * W_delivery
          + kw_communication r * W_communication))) 1.
Proof.
  intros Hguard. unfold score_answer_by_keywords. rewrite Hguard.
  set (comm := calculate_enhanced_communication_score env t). clearbody comm.
  set (fillers := count_fillers t). clearbody fillers.
  set (speed := compute_wpm t d). clearbody speed.
  destruct kws as [|kw kws].
  - destruct ideal as [[|c ideal]|].
    + cbn [kw_content kw_delivery kw_communication kw_final].
      split; [split; lra|]. split; [eexists; reflexivity|]. split; [eexists; reflexivity|].
      reflexivity.
    + pose proof (semantic_similarity_bounds env t (String c ideal)) as [H0 H1].
      set (sim := semantic_similarity env t (String c ideal)) in *. clearbody sim.
      cbn [kw_content kw_delivery kw_communication kw_final].
      split; [apply (round_between 0 100); unfold inject_Z; split; lra|].
      split; [eexists; reflexivity|]. split; [eexists; reflexivity|].
      reflexivity.
    + cbn [kw_content kw_delivery kw_communication kw_final].
      split; [split; lra|]. split; [eexists; reflexivity|]. split; [eexists; reflexivity|].
      reflexivity.
  - destruct (match_keywords t (kw :: kws)) as [found missing].
    set (pct := Py.of_nat (length found) / Py.of_nat (length (kw :: kws)) * 100).
    clearbody pct.
    cbn [kw_content kw_delivery kw_communication kw_final].
    split; [apply (round_between 0 100); unfold inject_Z; apply clamp_between'; lra|].
    split; [eexists; reflexivity|]. split; [eexists; reflexivity|].
    reflexivity.
Qed.

Lemma keyword_scores_bounds (t : string) (kws : list string) (d : Q) (ideal : option string) :
  let r := score_answer_by_keywords env t kws d ideal in
  0 <= kw_content r <= 100 /\ 0 <= kw_delivery r <= 100 /\ 0 <= kw_communication r <= 100.
Proof.
  cbv zeta.
  destruct (Str.falsy t || Nat.ltb (Str.len (Str.strip t)) 5) eqn:Hguard.
  - unfold score_answer_by_keywords. rewrite Hguard.
    cbn [kw_content kw_delivery kw_communication]. repeat split; lra.
  - destruct (keyword_result_shape t kws d ideal Hguard) as (Hc & [x Hd] & [y Hm] & _).
    rewrite Hd, Hm. split; [exact Hc|]. split; apply round_clamp_bounds.
Qed.

(** The final score of keyword-only mode is the sum of the three scores
    under the full-mode weights 0.30, 0.15 and 0.15, clamped and rounded;
    the weights are not renormalised, so it is at most 60. *)
Lemma keyword_final_value (t : string) (kws : list string) (d : Q) (ideal : option string) :
  let r := score_answer_by_keywords env t kws d ideal in
  kw_final r
  == Py.round (Qmax 0 (Qmin 100 (kw_content r * 0.30 + kw_delivery r * 0.15
                                  + kw_communication r * 0.15))) 1
  /\ kw_final r <= 60.
Proof.
  pose proof (keyword_scores_bounds t kws d ideal) as Hb. cbv zeta in *.
  assert (Hval : kw_final (score_answer_by_keywords env t kws d ideal)
          == Py.round (Qmax 0 (Qmin 100
               (kw_content (score_answer_by_keywords env t kws d ideal) * 0.30
                + kw_delivery (score_answer_by_keywords env t kws d ideal) * 0.15
                + kw_communication (score_answer_by_keywords env t kws d ideal) * 0.15))) 1).
  { destruct (Str.falsy t || Nat.ltb (Str.len (Str.strip t)) 5) eqn:Hguard.
    - unfold score_answer_by_keywords. rewrite Hguard.
      cbn [kw_final kw_content kw_delivery kw_communication]. vm_compute. reflexivity.
    - destruct (keyword_result_shape t kws d ideal Hguard) as (_ & _ & _ & Hf).
      cbv zeta in Hf. rewrite Hf. apply round_comp.
      unfold W_content, W_delivery, W_communication. apply clamp_literals. }
  split; [exact Hval|].
  rewrite Hval.
  set (r := score_answer_by_keywords env t kws d ideal) in *. clearbody r.
  destruct Hb as ([? ?] & [? ?] & [? ?]).
  apply (round_between 0 60). unfold inject_Z.
  split.
  - apply Q.le_max_l.
  - apply Q.max_lub; [lra|].
    apply Qle_trans with (kw_content r * 0.30 + kw_delivery r * 0.15 + kw_communication r * 0.15);
      [apply Q.le_min_r | lra].
Qed.

End KeywordMode.

(** C4 at an answer that scores 100 on keyword match, delivery and
    communication: the final score of keyword-only mode is 60, where
    weights renormalised to sum to 1 would give 100. *)
Theorem keyword_final_of_perfect_answer :
  let r := score_answer_by_keywords Offline.env strong_answer strong_answer_keywords 30 None in
  kw_content r == 100 /\ kw_delivery r == 100 /\ kw_communication r == 100
  /\ kw_final r == 60.
Proof. cbv zeta. vm_compute. repeat split. Qed.

(** ** The score cap of a very short answer (C5) *)

Lemma score_cap_penalise (issue key : string) (p : Z) (q : quality) :
  score_cap (penalise issue key p q) = score_cap q.
Proof. reflexivity. Qed.

Lemma score_cap_with_cap (c : Z) (q : quality) : score_cap (with_cap c q) = Some c.
Proof. reflexivity. Qed.

(** C5, as stated, fails: the three-word answer "Yes I do" to a question
    with an ideal answer gets the cap 35 of the relevance gate, and the
    five-word answer of the specification's own nonsense example gets the
    cap 15 of the nonsense gate. *)
Lemma very_short_answer_caps :
  (length (Str.split "Yes I do") < 10)%nat
  /\ score_cap
       (apply_quality_gates "Yes I do"
          (score_categories Offline.env "Yes I do" 2 "Describe your experience" None None)
          "Describe your experience") = Some 35%Z
  /\ (length (Str.split "asdf asdf asdf asdf asdf") < 10)%nat
  /\ score_cap
       (apply_quality_gates "asdf asdf asdf asdf asdf"
          (score_categories Offline.env "asdf asdf asdf asdf asdf" 2 "" None None) "")
     = Some 15%Z.
Proof. vm_compute. repeat split; lia. Qed.

(** C5, amended: for a non-empty transcript of fewer than 10 words the
    score cap is 40 unless a later gate lowers it: it is 15 when the
    nonsense gate fires, else 35 when the relevance gate fires (relevance
    below 0.25 and an ideal answer given), else 40; for the empty
    transcript the cap is 0.  The structure gate never changes it. *)
Theorem short_answer_cap (t : string) (scores : score_result) (ideal : string) :
  (length (Str.split t) < 10)%nat ->
  score_cap (apply_quality_gates t scores ideal)
  = Some (if Str.falsy t then 0
          else if is_nonsense (detect_nonsense t) then 15
          else if Py.ltb (relevance scores) 0.25 && negb (Str.falsy ideal) then 35
          else 40)%Z.
Proof.
  intros Hwords. unfold apply_quality_gates.
  destruct (Str.falsy t); [reflexivity|].
  cbv zeta.
  assert (H15 : Nat.ltb (length (Str.split t)) (threshold G_min_word_count) = true).
  { apply Nat.ltb_lt. cbn [threshold G_min_word_count]. lia. }
  assert (H10 : Nat.ltb (length (Str.split t)) 10 = true) by (apply Nat.ltb_lt; lia).
  assert (H10' : Nat.ltb 10 (length (Str.split t)) = false) by (apply Nat.ltb_ge; lia).
  rewrite H15, H10, H10'.
  cbn [threshold G_min_relevance].
  destruct (is_nonsense (detect_nonsense t));
    destruct (Py.ltb (relevance scores) 0.25 && negb (Str.falsy ideal));
    repeat match goal with
           | |- context [if ?c then _ else _] => destruct c
           end;
    reflexivity.
Qed.

Lemma short_answer_cap_witness :
  (length (Str.split "Yes I do") < 10)%nat
  /\ score_cap
       (apply_quality_gates "Yes I do"
          (score_categories Offline.env "Yes I do" 2 "Describe your experience" None None)
          "Describe your experience")
     = Some (if Str.falsy "Yes I do" then 0
             else if is_nonsense (detect_nonsense "Yes I do") then 15
             else if Py.ltb
                       (relevance
                          (score_categories Offline.env "Yes I do" 2 "Describe your experience"
                             None None)) 0.25
                     && negb (Str.falsy "Describe your experience") then 35
             else 40)%Z.
Proof.
  split.
  - vm_compute. lia.
  - apply (short_answer_cap "Yes I do"
             (score_categories Offline.env "Yes I do" 2 "Describe your experience" None None)
             "Describe your experience").
    vm_compute. lia.
Defined.

(** ** Lower-casing and splitting *)

Lemma isspace_lower_char (c : ascii) : Str.isspace (Str.lower_char c) = Str.isspace c.
Proof. destruct c as [[] [] [] [] [] [] [] []]; reflexivity. Qed.

Lemma lower_char_idem (c : ascii) : Str.lower_char (Str.lower_char c) = Str.lower_char c.
Proof. destruct c as [[] [] [] [] [] [] [] []]; reflexivity. Qed.

Lemma lower_idem (s : string) : Str.lower (Str.lower s) = Str.lower s.
Proof.
  induction s as [|c s IH]; [reflexivity|].
  cbn [Str.lower]. rewrite lower_char_idem, IH. reflexivity.
Qed.

Lemma len_lower (s : string) : Str.len (Str.lower s) = Str.len s.
Proof.
  unfold Str.len. induction s as [|c s IH]; [reflexivity|].
  cbn [Str.lower String.length]. rewrite IH. reflexivity.
Qed.

Lemma falsy_lower (s : string) : Str.falsy (Str.lower s) = Str.falsy s.
Proof. destruct s; reflexivity. Qed.

(** The words of the lower-cased text are the lower-cased words. *)
Lemma split_lower (s : string) : Str.split (Str.lower s) = map Str.lower (Str.split s).
Proof.
  induction s as [|c s IH]; [reflexivity|].
  cbn [Str.lower Str.split]. rewrite isspace_lower_char.
  destruct (Str.isspace c); [exact IH|].
  destruct s as [|c' s']; [reflexivity|].
  change (Str.lower (String c' s')) with (String (Str.lower_char c') (Str.lower s')) in *.
  cbv beta iota. rewrite isspace_lower_char.
  destruct (Str.isspace c').
  - cbn [map]. rewrite <- IH. reflexivity.
  - rewrite IH. destruct (Str.split (String c' s')); reflexivity.
Qed.

(** A text without words is blank. *)
Lemma split_nil_strip (s : string) : Str.split s = [] -> Str.strip s = EmptyString.
Proof.
  unfold Str.strip. induction s as [|c s IH]; [reflexivity|].
  cbn [Str.split Str.lstrip].
  destruct (Str.isspace c); [exact IH|].
  destruct s as [|c' s']; [discriminate|].
  destruct (Str.isspace c'); [discriminate|].
  destruct (Str.split (String c' s')); discriminate.
Qed.

Lemma strip_long_split (s : string) (n : nat) :
  (0 < n)%nat -> (n <= Str.len (Str.strip s))%nat -> Str.split s <> [].
Proof.
  intros Hn Hlen Hnil. rewrite (split_nil_strip s Hnil) in Hlen. cbn in Hlen. lia.
Qed.

(** ** Word recognition in the nonsense check (C10) *)

Lemma recognized_all (words : list string) :
  Forall (fun w => (3 < Str.len w)%nat) words -> recognized_words words = length words.
Proof.
  unfold recognized_words. induction 1 as [|w ws Hw _ IH]; [reflexivity|].
  cbn [List.filter]. apply Nat.ltb_lt in Hw. rewrite Hw, orb_true_r.
  cbn [length]. rewrite IH. reflexivity.
Qed.

Lemma recognition_ratio_long_words (words : list string) :
  words <> [] ->
  Forall (fun w => (3 < Str.len w)%nat) words ->
  recognition_ratio words == 1.
Proof.
  intros Hne Hall. unfold recognition_ratio.
  destruct words as [|w ws]; [congruence|].
  rewrite recognized_all by exact Hall.
  apply ratio_one. cbn [length]. lia.
Qed.

Lemma long_words_lower (t : string) :
  Forall (fun w => (3 < Str.len w)%nat) (Str.split t) ->
  Forall (fun w => (3 < Str.len w)%nat) (Str.split (Str.lower t)).
Proof.
  rewrite split_lower. intros H. induction H as [|w ws Hw _ IH]; constructor.
  - rewrite len_lower. exact Hw.
  - exact IH.
Qed.

(** The pattern matches never add the recognition signal. *)
Lemma pattern_matches_signal (text : string) (patterns : list Re.regex)
    (found : list nonsense_signal) :
  In LowRecognition
    (fold_left
       (fun found pattern =>
          (found ++ map PatternMatch (firstn 3 (Re.findall pattern text)))%list)
       patterns found) ->
  In LowRecognition found.
Proof.
  revert found. induction patterns as [|p ps IH]; intros found H; [exact H|].
  cbn [fold_left] in H. apply IH in H. apply in_app_or in H.
  destruct H as [H|H]; [exact H|].
  apply in_map_iff in H. destruct H as (x & Hx & _). discriminate Hx.
Qed.

(** C10: when every whitespace-separated word of the transcript has more
    than 3 characters, either [detect_nonsense] returns at its length guard
    or the recognition ratio it computes is exactly 1; in both cases the
    signal "low word recognition ratio" is not among the patterns found,
    whether or not any word is an English word. *)
Theorem long_words_always_recognized (t : string) :
  Forall (fun w => (3 < Str.len w)%nat) (Str.split t) ->
  ((Str.len (Str.strip t) < 5)%nat \/ recognition_ratio (Str.split (Str.lower t)) == 1)
  /\ ~ In LowRecognition (patterns_found (detect_nonsense t)).
Proof.
  intros Hall.
  destruct (Nat.lt_ge_cases (Str.len (Str.strip t)) 5) as [Hshort|Hlong].
  - split; [left; exact Hshort|].
    unfold detect_nonsense. apply (guard_short t 5) in Hshort; [|lia].
    rewrite Hshort. cbn [patterns_found]. intros [].
  - assert (Hratio : recognition_ratio (Str.split (Str.lower t)) == 1).
    { apply recognition_ratio_long_words; [|apply long_words_lower; exact Hall].
      rewrite split_lower. intros Hnil. apply map_eq_nil in Hnil.
      exact (strip_long_split t 5 ltac:(lia) Hlong Hnil). }
    split; [right; exact Hratio|].
    unfold detect_nonsense. apply (guard_long t 5) in Hlong; [|lia].
    rewrite Hlong. cbv zeta.
    assert (Hlow : Py.ltb (recognition_ratio (Str.split (Str.lower t))) 0.3 = false).
    { apply ltb_ge. rewrite Hratio. lra. }
    rewrite Hlow. cbn [andb].
    set (found0 := fold_left _ NONSENSE_PATTERNS []).
    assert (H0 : ~ In LowRecognition found0).
    { intros H. apply pattern_matches_signal in H. exact H. }
    set (found1 := if Nat.ltb 5 _ then _ else found0).
    assert (H1 : ~ In LowRecognition found1).
    { subst found1. destruct (Nat.ltb 5 _); [|exact H0].
      destruct (Py.ltb 0.3 _); [|exact H0].
      intros H. apply in_app_or in H. destruct H as [H|[H|[]]]; [exact (H0 H) | discriminate H]. }
    destruct found1; cbn [patterns_found]; exact H1.
Qed.

Lemma long_words_always_recognized_witness :
  Forall (fun w => (3 < Str.len w)%nat) (Str.split gibberish)
  /\ ((Str.len (Str.strip gibberish) < 5)%nat
      \/ recognition_ratio (Str.split (Str.lower gibberish)) == 1)
  /\ ~ In LowRecognition (patterns_found (detect_nonsense gibberish)).
Proof.
  assert (H : Forall (fun w => (3 < Str.len w)%nat) (Str.split gibberish)).
  { vm_compute. repeat constructor. }
  split; [exact H|].
  exact (long_words_always_recognized gibberish H).
Defined.

(** ** The answer compared with itself (C9) *)


Lemma lower_substring (i n : nat) (s : string) :
  Str.lower (String.substring i n s) = String.substring i n (Str.lower s).
Proof.
  revert i n. induction s as [|c s IH]; intros [|i] [|n]; cbn; try reflexivity.
  - rewrite IH. reflexivity.
  - apply IH.
  - apply IH.
Qed.

(** A match of a pattern without group is a piece of the text. *)
Lemma findall_substring (r : Re.regex) (text w : string) :
  Re.has_group r = false -> In w (Re.findall r text) ->
  exists i n, w = String.substring i n text.
Proof.
  intros Hg Hin. unfold Re.findall in Hin. rewrite Hg in Hin.
  apply in_map_iff in Hin. destruct Hin as (h & <- & _).
  unfold Re.span_text. eauto.
Qed.

Lemma word3_lower_fixed (t w : string) :
  In w (Re.findall word3 (Str.lower t)) -> Str.lower w = w.
Proof.
  intros Hin. apply findall_substring in Hin; [|reflexivity].
  destruct Hin as (i & n & ->). rewrite lower_substring, lower_idem. reflexivity.
Qed.

Lemma bump_keys (w : string) (counts : list (string * nat)) (k : string) :
  In k (map fst (bump w counts)) -> k = w \/ In k (map fst counts).
Proof.
  induction counts as [|[k' v] counts IH]; cbn [bump map fst In].
  - intros [<-|[]]. left. reflexivity.
  - destruct (String.eqb k' w); cbn [map fst In].
    + intros [<-|H]; right; [left; reflexivity | right; exact H].
    + intros [<-|H]; [right; left; reflexivity|].
      destruct (IH H) as [->|H']; [left; reflexivity | right; right; exact H'].
Qed.

Lemma counted_keys (P : string -> bool) (words : list string) (counts : list (string * nat))
    (k : string) :
  In k (map fst (fold_left (fun counts word => if P word then counts else bump word counts)
                   words counts)) ->
  In k words \/ In k (map fst counts).
Proof.
  revert counts. induction words as [|w ws IH]; intros counts H; [right; exact H|].
  cbn [fold_left] in H. apply IH in H. destruct H as [H|H]; [left; right; exact H|].
  destruct (P w); [right; exact H|].
  apply bump_keys in H. destruct H as [->|H]; [left; left; reflexivity | right; exact H].
Qed.

Lemma insert_by_count_In (x y : string * nat) (l : list (string * nat)) :
  In y (insert_by_count x l) -> y = x \/ In y l.
Proof.
  induction l as [|z l IH]; cbn [insert_by_count In].
  - intros [<-|[]]. left. reflexivity.
  - destruct (Nat.ltb (snd x) (snd z)); cbn [In].
    + intros [<-|H]; [right; left; reflexivity|].
      destruct (IH H) as [->|H']; [left; reflexivity | right; right; exact H'].
    + intros [<-|[<-|H]]; [left | right; left | right; right]; auto.
Qed.

Lemma sort_by_count_In (y : string * nat) (l : list (string * nat)) :
  In y (sort_by_count l) -> In y l.
Proof.
  unfold sort_by_count. induction l as [|x l IH]; cbn [fold_right In]; [tauto|].
  intros H. apply insert_by_count_In in H. destruct H as [->|H]; [left|right]; auto.
Qed.

Lemma firstn_incl (A : Type) (n : nat) (l : list A) (x : A) : In x (firstn n l) -> In x l.
Proof.
  revert l. induction n as [|n IH]; intros [|y l]; cbn [firstn In]; try tauto.
  intros [H|H]; [left; exact H | right; apply IH; exact H].
Qed.

(** Every extracted keyword is a word of the lower-cased text. *)
Lemma extract_keywords_words (text : string) (top_n : nat) (k : string) :
  In k (extract_keywords text top_n) -> In k (Re.findall word3 (Str.lower text)).
Proof.
  unfold extract_keywords. intros H.
  apply in_map_iff in H. destruct H as ([k' v] & <- & H). cbn [fst].
  apply firstn_incl in H.
  apply sort_by_count_In in H.
  apply (in_map fst) in H. cbn [fst] in H.
  apply counted_keys in H. destruct H as [H|[]]. exact H.
Qed.



Lemma list_to_set_size_pos (l : list string) :
  l <> [] -> (0 < size (list_to_set l : gset string))%nat.
Proof.
  destruct l as [|x l]; [congruence|]. intros _.
  destruct (Nat.eq_dec (size (list_to_set (x :: l) : gset string)) 0%nat) as [H0|H0]; [|lia].
  apply size_empty_inv in H0.
  assert (Hx : x ∈ (list_to_set (x :: l) : gset string)).
  { apply elem_of_list_to_set. left. }
  rewrite H0 in Hx. exfalso. exact (not_elem_of_empty x Hx).
Qed.

(** Token-set similarity of a text with itself: 1 as soon as it has a word. *)
Lemma fallback_similarity_self (t : string) :
  Str.split t <> [] -> _fallback_similarity t t == 1.
Proof.
  intros Hwords. unfold _fallback_similarity.
  assert (Hi : word_set t ∩ word_set t = word_set t) by apply intersection_idemp_L.
  assert (Hu : word_set t ∪ word_set t = word_set t) by apply union_idemp_L.
  rewrite Hi, Hu.
  assert (Hpos : (0 < size (word_set t))%nat).
  { unfold word_set. apply list_to_set_size_pos. rewrite split_lower.
    intros Hnil. apply map_eq_nil in Hnil. contradiction. }
  destruct (Nat.eqb_spec (size (word_set t)) 0) as [H0|_]; [lia|].
  apply ratio_one. exact Hpos.
Qed.

Section Identical.
Context (env : Env).

(** Cosine similarity of a vector with itself, remapped to [0, 1]: 1 up to
    the accuracy of the norm. *)
Lemma cosine_similarity_self (v : list Q) :
  ~ np_norm env v == 0 ->
  Qabs (np_norm env v * np_norm env v - np_dot v v) <= np_dot v v / 10000 ->
  0.9999 <= _cosine_similarity env v v <= 1.0001.
Proof.
  intros Hnz Habs. unfold _cosine_similarity.
  destruct (Qeq_bool (np_norm env v) 0) eqn:E.
  - apply Qeq_bool_iff in E. contradiction.
  - cbn [orb].
    set (n := np_norm env v) in *. set (dot := np_dot v v) in *.
    assert (Hsq : 0 < n * n).
    { destruct (Qlt_le_dec 0 n) as [Hp|Hn]; [nra|].
      destruct (Qlt_le_dec n 0) as [Hlt|Hge]; [nra|].
      exfalso. apply Hnz. lra. }
    apply Qabs_Qle_condition in Habs. destruct Habs as [Hlo Hhi].
    unfold Qdiv in Hlo, Hhi. change (/ 10000) with (1 # 10000) in Hlo, Hhi.
    assert (H1 : 0.9998 <= dot / (n * n)) by (apply Qle_shift_div_l; [exact Hsq | lra]).
    assert (H2 : dot / (n * n) <= 1.0002) by (apply Qle_shift_div_r; [exact Hsq | lra]).
    set (s := dot / (n * n)) in *. clearbody s.
    unfold Qdiv. change (/ 2) with (1 # 2). split; lra.
Qed.

Lemma semantic_similarity_self (t : string) :
  Str.split t <> [] -> norm_accurate env t ->
  0.9999 <= semantic_similarity env t t <= 1
  /\ (match sentence_model env with
      | Some encode => encode t = None
      | None => True
      end -> semantic_similarity env t t == 1).
Proof.
  intros Hwords Hnorm. unfold semantic_similarity.
  destruct t as [|c t']; [contradiction Hwords; reflexivity|].
  cbn [Str.falsy orb]. unfold norm_accurate in Hnorm.
  pose proof (fallback_similarity_self (String c t') Hwords) as Hfb.
  destruct (sentence_model env) as [encode|];
    [|split; [rewrite Hfb; split; lra | intros _; exact Hfb]].
  destruct (encode (String c t')) as [v|];
    [|split; [rewrite Hfb; split; lra | intros _; exact Hfb]].
  split; [|discriminate].
  destruct Hnorm as [Hnz Hsq].
  pose proof (cosine_similarity_self v Hnz Hsq) as [Hlo Hhi].
  set (x := _cosine_similarity env v v) in *. clearbody x.
  destruct (Q.min_spec 1.0 x) as [[Hc Hm]|[Hc Hm]];
    destruct (Q.max_spec 0.0 (Qmin 1.0 x)) as [[Hd Hx]|[Hd Hx]]; split; lra.
Qed.



End Identical.




(* ================================================================= *)
(** * Further properties

    Properties of the pipeline beyond the claims of the specification, read
    off the code. *)

(** ** The structure score

    Past its length guard, [analyze_star_structure] gives at least 25, 30
    and 60 to its three components. *)

Lemma star_structure_parts (t : string) :
  Str.falsy t || Nat.ltb (Str.len t) 20 = false ->
  let s := analyze_star_structure t in
  25 <= star_score s <= 100 /\ 30 <= organization_score s <= 100
  /\ 60 <= conclusion_score s <= 90
  /\ st_final_score s
     = Py.round (SW_star_method * star_score s + SW_organization * organization_score s
                 + SW_conclusion * conclusion_score s) 1.
Proof.
  intros Hg. unfold analyze_star_structure. rewrite Hg. cbv zeta.
  set (b1 := Str.any_in STAR_SITUATION_KEYWORDS _).
  set (b2 := Str.any_in STAR_TASK_KEYWORDS _).
  set (b3 := Str.any_in STAR_ACTION_KEYWORDS _).
  set (b4 := Str.any_in STAR_RESULT_KEYWORDS _).
  set (n := length (sentences_of t)).
  set (c := match sentences_of t with [] => _ | _ :: _ => _ end).
  cbn [star_score organization_score conclusion_score st_final_score].
  repeat split.
  - destruct b1, b2, b3, b4; vm_compute; discriminate.
  - destruct b1, b2, b3, b4; vm_compute; discriminate.
  - destruct (Nat.leb 3 n); [|destruct (Nat.leb 2 n); vm_compute; discriminate].
    apply Q.min_glb; [vm_compute; discriminate|].
    assert (0 <= Py.of_nat n).
    { unfold Py.of_nat. change 0 with (inject_Z 0). rewrite <- Zle_Qle. lia. }
    lra.
  - destruct (Nat.leb 3 n); [apply Q.le_min_l|destruct (Nat.leb 2 n); vm_compute; discriminate].
  - destruct c; vm_compute; discriminate.
  - destruct c; vm_compute; discriminate.
Qed.

Lemma structure_raw_bounds (t : string) :
  let s := st_final_score (calculate_structure_score t) in
  if Nat.ltb (Str.len t) 20 then s = 0.0 else 33.5 <= s <= 98.
Proof.
  cbv zeta. unfold calculate_structure_score.
  destruct (Nat.ltb (Str.len t) 20) eqn:E.
  - unfold analyze_star_structure. rewrite E, orb_true_r. reflexivity.
  - assert (Hg : Str.falsy t || Nat.ltb (Str.len t) 20 = false).
    { rewrite E, orb_false_r. destruct t; [discriminate E | reflexivity]. }
    destruct (star_structure_parts t Hg) as (Hs & Ho & Hc & ->).
    set (s := star_score _) in *. set (o := organization_score _) in *.
    set (c := conclusion_score _) in *. clearbody s o c.
    destruct (round_tenths 335 980 (SW_star_method * s + SW_organization * o + SW_conclusion * c))
      as [H1 H2].
    { unfold SW_star_method, SW_organization, SW_conclusion.
      unfold Qdiv, inject_Z. change (/ 10) with (1 # 10). split; lra. }
    split; [exact H1|]. eapply Qle_trans; [exact H2|]. vm_compute. discriminate.
Qed.

(** ** The quality gates *)

Lemma fired_app (A : Type) (g1 g2 : list (bool * A)) : fired (g1 ++ g2) = (fired g1 ++ fired g2)%list.
Proof. unfold fired. rewrite List.filter_app, map_app. reflexivity. Qed.

Lemma penalties_sum_app (ps qs : list (string * Z)) :
  penalties_sum (ps ++ qs) = (penalties_sum ps + penalties_sum qs)%Z.
Proof.
  unfold penalties_sum. induction ps as [|p ps IH]; cbn [app map fold_right]; [lia|].
  rewrite IH. lia.
Qed.

Lemma gate_outcome_penalise (b : bool) (issue key : string) (p : Z) (q : quality)
    (gates : list (bool * (string * Z))) (cap : option Z) :
  gate_outcome gates cap q ->
  gate_outcome (gates ++ [(b, (key, p))]) cap (if b then penalise issue key p q else q).
Proof.
  intros (Hp & Ht & Hi & Hc). unfold gate_outcome. rewrite fired_app, penalties_sum_app.
  destruct b; cbn [penalise penalties total_penalty issues score_cap fired List.filter fst snd map].
  - rewrite Hp, Ht, Hc, !length_app, Hi. cbn. repeat split; lia.
  - rewrite Hp, Ht, Hc, Hi, !app_nil_r. cbn. repeat split; lia.
Qed.

Lemma gate_outcome_cap (c : Z) (q : quality) (gates : list (bool * (string * Z)))
    (cap : option Z) :
  gate_outcome gates cap q -> gate_outcome gates (Some c) (with_cap c q).
Proof. intros (Hp & Ht & Hi & Hc). repeat split; assumption. Qed.

(** The next binding of [apply_quality_gates], moved to the context. *)
Ltac let_in :=
  lazymatch goal with
  | |- gate_outcome ?L ?C (let x := ?a in @?f x) =>
      let y := fresh x in
      change (let y := a in gate_outcome L C (f y)); intro y; cbv beta
  end.

(** A gate that only penalises: [H] is the outcome so far. *)
Ltac gate_penalise H :=
  let_in;
  lazymatch goal with
  | r := (if ?b then penalise ?i ?k ?p ?q else ?q) |- _ =>
      let H' := fresh "H" in
      pose proof (gate_outcome_penalise b i k p q _ _ H : gate_outcome _ _ r) as H';
      clear H; clearbody r
  end.

(** The outcome of [apply_quality_gates] on a non-empty transcript, gate by
    gate: the seven penalties with their conditions, and the score cap by
    priority. *)
Lemma apply_quality_gates_outcome (t : string) (scores : score_result) (ideal : string) :
  Str.falsy t = false ->
  let words := Str.split t in
  let word_count := length words in
  let short := Nat.ltb word_count (threshold G_min_word_count) in
  let low_vocabulary :=
    Nat.ltb (size (unique_words_of words)) (threshold G_min_unique_words) in
  let fillers :=
    Py.ltb (threshold G_max_filler_ratio)
      (if Nat.ltb 0 word_count
       then Py.of_nat (filler_count scores) / Py.of_nat word_count else 0) in
  let off_topic :=
    Py.ltb (relevance scores) (threshold G_min_relevance) && negb (Str.falsy ideal) in
  let counts :=
    count_words (map Str.lower (List.filter (fun w => Nat.ltb 3 (Str.len w)) words)) in
  let repetitive :=
    Nat.ltb 10 word_count && Nat.ltb 0 (size counts)
    && Py.ltb (threshold G_max_repetition)
         (Py.of_nat (max_value counts) / Py.of_nat (size counts)) in
  let nonsense := is_nonsense (detect_nonsense t) in
  let incoherent := Py.ltb (calculate_answer_coherence t) MIN_COHERENCE_SCORE in
  let no_structure := Py.ltb (structure scores) 30 in
  gate_outcome
    [ (short, ("short_answer", 50%Z)); (low_vocabulary, ("low_vocabulary", 30%Z));
      (fillers, ("excessive_fillers", 25%Z)); (off_topic, ("off_topic", 40%Z));
      (repetitive, ("repetitive", 20%Z)); (nonsense, ("nonsense", 50%Z));
      (incoherent, ("incoherent", 30%Z)) ]
    (if nonsense then Some 15%Z
     else if off_topic then Some 35%Z
     else if short then
            if Nat.ltb word_count 10 then Some 40%Z
            else if no_structure then Some 55%Z else Some 60%Z
     else if no_structure then Some 55%Z else None)
    (apply_quality_gates t scores ideal).
Proof.
  intros Hf. cbv zeta. cbv beta delta [apply_quality_gates].
  let_in. rewrite Hf.
  let_in. let_in. let_in. let_in. subst words word_count unique_words min_words.
  (* gate 1 *)
  let_in.
  assert (H1 : gate_outcome
                 [(Nat.ltb (length (Str.split t)) (threshold G_min_word_count),
                   ("short_answer", 50%Z))]
                 (if Nat.ltb (length (Str.split t)) (threshold G_min_word_count)
                  then Some (if Nat.ltb (length (Str.split t)) 10 then 40%Z else 60%Z)
                  else None) result0).
  { subst result0 result.
    destruct (Nat.ltb (length (Str.split t)) (threshold G_min_word_count));
      [|repeat split].
    cbv zeta. destruct (Nat.ltb (length (Str.split t)) 10); repeat split. }
  clearbody result0. clear result.
  (* gates 2 and 3 *)
  gate_penalise H1.
  let_in. gate_penalise H.
  (* gate 4 *)
  let_in.
  match type of H0 with
  | gate_outcome ?L ?C _ =>
      assert (H4 : gate_outcome
                     (L ++ [(Py.ltb (relevance scores) (threshold G_min_relevance)
                             && negb (Str.falsy ideal), ("off_topic", 40%Z))])
                     (if Py.ltb (relevance scores) (threshold G_min_relevance)
                         && negb (Str.falsy ideal)
                      then Some 35%Z else C) result2)
  end.
  { subst result2.
    destruct (Py.ltb (relevance scores) (threshold G_min_relevance) && negb (Str.falsy ideal)).
    - cbv zeta.
      pose proof (gate_outcome_penalise true (message G_min_relevance) "off_topic"
                    (penalty G_min_relevance) result1 _ _ H0) as Hp.
      cbv iota in Hp.
      replace (Z.min _ CAP_off_topic) with 35%Z.
      + exact (gate_outcome_cap 35 _ _ _ Hp).
      + destruct H0 as (_ & _ & _ & Hc). cbn [score_cap penalise]. rewrite Hc.
        destruct (Nat.ltb (length (Str.split t)) (threshold G_min_word_count));
          [destruct (Nat.ltb (length (Str.split t)) 10)|]; reflexivity.
    - exact (gate_outcome_penalise false (message G_min_relevance) "off_topic"
               (penalty G_min_relevance) result1 _ _ H0). }
  clear H0. clearbody result2.
  (* gate 5 *)
  let_in.
  pose proof
    (gate_outcome_penalise
       (Nat.ltb 10 (length (Str.split t))
        && Nat.ltb 0 (size (count_words (map Str.lower
             (List.filter (fun w => Nat.ltb 3 (Str.len w)) (Str.split t)))))
        && Py.ltb (threshold G_max_repetition)
             (Py.of_nat (max_value (count_words (map Str.lower
                (List.filter (fun w => Nat.ltb 3 (Str.len w)) (Str.split t)))))
              / Py.of_nat (size (count_words (map Str.lower
                (List.filter (fun w => Nat.ltb 3 (Str.len w)) (Str.split t)))))))
       (message G_max_repetition) "repetitive" (penalty G_max_repetition)
       result2 _ _ H4) as H5.
  assert (E5 : result3
               = if Nat.ltb 10 (length (Str.split t))
                    && Nat.ltb 0 (size (count_words (map Str.lower
                         (List.filter (fun w => Nat.ltb 3 (Str.len w)) (Str.split t)))))
                    && Py.ltb (threshold G_max_repetition)
                         (Py.of_nat (max_value (count_words (map Str.lower
                            (List.filter (fun w => Nat.ltb 3 (Str.len w)) (Str.split t)))))
                          / Py.of_nat (size (count_words (map Str.lower
                            (List.filter (fun w => Nat.ltb 3 (Str.len w)) (Str.split t))))))
                 then penalise (message G_max_repetition) "repetitive"
                        (penalty G_max_repetition) result2
                 else result2).
  { subst result3. cbv zeta.
    destruct (Nat.ltb 10 (length (Str.split t))); [|reflexivity].
    destruct (Nat.ltb 0 (size (count_words (map Str.lower
                (List.filter (fun w => Nat.ltb 3 (Str.len w)) (Str.split t))))));
      reflexivity. }
  rewrite <- E5 in H5. clear E5 H4. clearbody result3.
  (* gate 6 *)
  let_in. let_in.
  match type of H5 with
  | gate_outcome ?L ?C _ =>
      assert (H6 : gate_outcome (L ++ [(is_nonsense nonsense_result, ("nonsense", 50%Z))])
                     (if is_nonsense nonsense_result then Some 15%Z else C) result4)
  end.
  { subst result4. destruct (is_nonsense nonsense_result).
    - match goal with
      | |- gate_outcome _ _ (with_cap _ (penalise ?i ?k ?p ?q)) =>
          pose proof (gate_outcome_penalise true i k p q _ _ H5) as Hp
      end.
      eapply gate_outcome_cap. exact Hp.
    - exact (gate_outcome_penalise false "" "nonsense" 50 result3 _ _ H5). }
  clear H5. clearbody result4.
  (* gate 7 *)
  let_in. gate_penalise H6.
  (* gate 8 *)
  let_in. subst nonsense_result coherence structure_score filler_ratio.
  destruct H as (Hp & Ht & Hi & Hc).
  unfold gate_outcome.
  destruct (Py.ltb (structure scores) 30); rewrite ?Hc;
    destruct (is_nonsense (detect_nonsense t));
    destruct (Py.ltb (relevance scores) (threshold G_min_relevance) && negb (Str.falsy ideal));
    destruct (Nat.ltb (length (Str.split t)) (threshold G_min_word_count));
    destruct (Nat.ltb (length (Str.split t)) 10);
    (split; [exact Hp | split; [exact Ht | split; [exact Hi | try exact Hc; reflexivity]]]).
Qed.

(** ** Words, unique words and characters *)



Lemma split_lstrip (s : string) : Str.split (Str.lstrip s) = Str.split s.
Proof.
  induction s as [|c s IH]; [reflexivity|].
  cbn [Str.lstrip]. destruct (Str.isspace c) eqn:E; [|reflexivity].
  rewrite IH. cbn [Str.split]. rewrite E. reflexivity.
Qed.

Lemma split_cons_length (c : ascii) (s : string) :
  (length (Str.split (String c s)) <= S (length (Str.split s)))%nat.
Proof.
  cbn [Str.split]. destruct (Str.isspace c); [lia|].
  destruct s as [|c' s']; [cbn; lia|].
  destruct (Str.isspace c'); [cbn [length]; lia|].
  destruct (Str.split (String c' s')); cbn [length]; lia.
Qed.

Lemma split_length_rstrip (s : string) :
  (length (Str.split s) <= Str.len (Str.rstrip s))%nat.
Proof.
  induction s as [|c s IH]; [cbn; lia|].
  pose proof (split_cons_length c s) as Hc.
  cbn [Str.rstrip]. unfold Str.len in *.
  destruct (Str.rstrip s) as [|c' r] eqn:Er.
  - cbn [String.length] in IH.
    assert (Hs : Str.split s = []) by (destruct (Str.split s); [reflexivity | cbn in IH; lia]).
    cbn [Str.split]. destruct (Str.isspace c) eqn:E.
    + rewrite Hs. cbn. lia.
    + rewrite Hs in Hc. cbn [length] in Hc. cbn [Str.split] in Hc. rewrite E in Hc.
      cbn [String.length]. exact Hc.
  - cbn [String.length] in *. lia.
Qed.

(** A transcript has at most as many words as characters once stripped. *)
Lemma split_length_strip (s : string) :
  (length (Str.split s) <= Str.len (Str.strip s))%nat.
Proof.
  rewrite <- split_lstrip. unfold Str.strip. apply split_length_rstrip.
Qed.

(** Two words need a separator: [n] words take at least [2n - 1]
    characters. *)
Lemma split_length_half (s : string) :
  (2 * length (Str.split s) <= Str.len s + 1)%nat
  /\ match s with
     | EmptyString => True
     | String c _ => Str.isspace c = true -> (2 * length (Str.split s) <= Str.len s)%nat
     end.
Proof.
  unfold Str.len.
  induction s as [|c s [IH1 IH2]]; [cbn; split; [lia | exact I]|].
  cbn [Str.split String.length].
  destruct (Str.isspace c) eqn:E.
  - split; [lia | intros _; lia].
  - split; [|discriminate].
    destruct s as [|c' s']; [cbn; lia|].
    destruct (Str.isspace c') eqn:E'.
    + specialize (IH2 eq_refl). cbn [length String.length] in *. lia.
    + destruct (Str.split (String c' s')) eqn:Es; cbn [length String.length] in *; lia.
Qed.

(** ** The final score under the gates *)


(** The pace penalty lies between 0 and 30. *)
Lemma wpm_penalty_range (wpm : Q) : (0 <= snd (get_wpm_assessment wpm) <= 30)%Z.
Proof.
  unfold get_wpm_assessment, WPM_TOO_SLOW, WPM_TOO_FAST, OPTIMAL_WPM_MIN, OPTIMAL_WPM_MAX.
  repeat (cmp_cases; cbn [snd andb]); try lia.
  all: split; [|apply Z.le_min_l].
  all: apply Z.min_glb; [lia|]; rewrite int_floor by lra;
    rewrite <- (Qfloor_Z 0); apply Qfloor_resp_le; change (inject_Z 0) with 0; lra.
Qed.

(** The weights of the six categories sum to one: the weighted sum lies
    between any two bounds of the category scores. *)
Lemma weighted_sum_between (r : score_result) (lo hi : Q) :
  lo <= content r <= hi -> lo <= delivery r <= hi -> lo <= communication r <= hi ->
  lo <= voice r <= hi -> lo <= confidence r <= hi -> lo <= structure r <= hi ->
  lo <= weighted_sum r <= hi.
Proof.
  unfold weighted_sum, W_content, W_delivery, W_communication, W_voice, W_confidence,
    W_structure.
  intros. split; lra.
Qed.



(** The result of [score_answer] past the length guard, field by field. *)
Section Gated.
Context (env : Env).

Lemma final_value (t : string) (d : Q) (ideal : string) (a : option string)
    (v : option video) :
  (5 <= Str.len (Str.strip t))%nat ->
  let pre := score_categories env t d ideal a v in
  let q := apply_quality_gates t pre ideal in
  let r := score_answer env t d ideal a v in
  final r
  = _clamp_score
      (match score_cap q with
       | Some cap => Qmin (weighted_sum pre - inject_Z (total_penalty q)) (inject_Z cap)
       | None => weighted_sum pre - inject_Z (total_penalty q)
       end)
  /\ raw_final r = Some (_clamp_score (weighted_sum pre))
  /\ content r = content pre /\ delivery r = delivery pre
  /\ communication r = communication pre /\ voice r = voice pre
  /\ confidence r = confidence pre /\ structure r = structure pre
  /\ relevance r = relevance pre.
Proof.
  intros Hlong. cbv zeta. rewrite score_answer_long by exact Hlong.
  repeat split; reflexivity.
Qed.



End Gated.





(** X1: the penalties that [apply_quality_gates] records are those of the gates
    whose condition holds, in the order of the gates and each with its
    configured amount; [total_penalty] is their sum, between 0 and 245; no
    key is recorded twice; and every penalty comes with one issue. *)
Theorem quality_penalties_account (t : string) (scores : score_result) (ideal : string) :
  let words := Str.split t in
  let word_count := length words in
  let counts :=
    count_words (map Str.lower (List.filter (fun w => Nat.ltb 3 (Str.len w)) words)) in
  let q := apply_quality_gates t scores ideal in
  penalties q
  = (if Str.falsy t then []
     else fired
       [ (Nat.ltb word_count 15, ("short_answer", 50%Z));
         (Nat.ltb (size (unique_words_of words)) 10, ("low_vocabulary", 30%Z));
         (Py.ltb 0.15 (if Nat.ltb 0 word_count
                       then Py.of_nat (filler_count scores) / Py.of_nat word_count else 0),
          ("excessive_fillers", 25%Z));
         (Py.ltb (relevance scores) 0.25 && negb (Str.falsy ideal), ("off_topic", 40%Z));
         (Nat.ltb 10 word_count && Nat.ltb 0 (size counts)
          && Py.ltb 0.3 (Py.of_nat (max_value counts) / Py.of_nat (size counts)),
          ("repetitive", 20%Z));
         (is_nonsense (detect_nonsense t), ("nonsense", 50%Z));
         (Py.ltb (calculate_answer_coherence t) 30.0, ("incoherent", 30%Z)) ])
  /\ total_penalty q = penalties_sum (penalties q)
  /\ (0 <= total_penalty q <= 245)%Z
  /\ NoDup (map fst (penalties q))
  /\ length (issues q) = (if Str.falsy t then 1%nat else length (penalties q)).
Proof.
  cbv zeta. destruct (Str.falsy t) eqn:Hf.
  { unfold apply_quality_gates. rewrite Hf. cbn. repeat split; try lia. constructor. }
  destruct (apply_quality_gates_outcome t scores ideal Hf) as (Hp & Ht & Hi & _).
  cbn [threshold G_min_word_count G_min_unique_words G_max_filler_ratio G_min_relevance
       G_max_repetition] in Hp, Ht, Hi.
  change MIN_COHERENCE_SCORE with 30.0 in Hp, Ht, Hi.
  rewrite Hp at 1. rewrite Ht, Hi, Hp.
  split; [reflexivity|].
  match goal with
  | |- context [fired [(?b1, _); (?b2, _); (?b3, _); (?b4, _); (?b5, _); (?b6, _); (?b7, _)]] =>
      generalize b1 b2 b3 b4 b5 b6 b7
  end.
  intros b1 b2 b3 b4 b5 b6 b7.
  destruct b1, b2, b3, b4, b5, b6, b7;
    (split; [reflexivity | split; [vm_compute; split; discriminate | split; [|reflexivity]]]);
    apply (bool_decide_unpack _); vm_compute; exact I.
Qed.

(** X2: the score cap is decided by priority: 0 for the empty transcript, else
    15 when the answer is taken for nonsense, else 35 when it is off topic
    (relevance below 0.25 with an ideal answer given), else 40 below 10
    words, else 55 when the structure score is below 30, else 60 below 15
    words, else none. *)
Theorem score_cap_priority (t : string) (scores : score_result) (ideal : string) :
  let word_count := length (Str.split t) in
  score_cap (apply_quality_gates t scores ideal)
  = if Str.falsy t then Some 0%Z
    else if is_nonsense (detect_nonsense t) then Some 15%Z
    else if Py.ltb (relevance scores) 0.25 && negb (Str.falsy ideal) then Some 35%Z
    else if Nat.ltb word_count 10 then Some 40%Z
    else if Py.ltb (structure scores) 30 then Some 55%Z
    else if Nat.ltb word_count 15 then Some 60%Z
    else None.
Proof.
  cbv zeta. destruct (Str.falsy t) eqn:Hf.
  { unfold apply_quality_gates. rewrite Hf. reflexivity. }
  destruct (apply_quality_gates_outcome t scores ideal Hf) as (_ & _ & _ & Hc).
  rewrite Hc. cbn [threshold G_min_word_count G_min_relevance].
  destruct (is_nonsense (detect_nonsense t)); [reflexivity|].
  destruct (Py.ltb (relevance scores) 0.25 && negb (Str.falsy ideal)); [reflexivity|].
  destruct (Nat.ltb (length (Str.split t)) 15) eqn:E15;
    destruct (Nat.ltb (length (Str.split t)) 10) eqn:E10;
    destruct (Py.ltb (structure scores) 30); try reflexivity.
  all: apply Nat.ltb_ge in E15; apply Nat.ltb_lt in E10; lia.
Qed.






Lemma structure_clamped (t : string) :
  let s := _clamp_score (st_final_score (calculate_structure_score t)) in
  if Nat.ltb (Str.len t) 20 then s == 0 else 33.5 <= s <= 98.
Proof.
  cbv zeta. pose proof (structure_raw_bounds t) as H. cbv zeta in H.
  destruct (Nat.ltb (Str.len t) 20).
  - rewrite H. reflexivity.
  - destruct (clamp_score_tenths 335 980 (st_final_score (calculate_structure_score t)))
      as [H1 H2]; [lia | lia | |].
    + destruct H as [Ha Hb]. split; [exact Ha|].
      eapply Qle_trans; [exact Hb|]. vm_compute. discriminate.
    + split; [exact H1|]. eapply Qle_trans; [exact H2|]. vm_compute. discriminate.
Qed.

Lemma structure_gate (env : Env) (t : string) (d : Q) (ideal : string) (a : option string)
    (v : option video) :
  Py.ltb (structure (score_categories env t d ideal a v)) 30 = Nat.ltb (Str.len t) 20.
Proof.
  destruct (score_categories_fields env t d ideal a v) as (_ & _ & _ & _ & _ & -> & _).
  pose proof (structure_clamped t) as H. cbv zeta in H.
  destruct (Nat.ltb (Str.len t) 20).
  - apply ltb_lt. rewrite H. reflexivity.
  - apply ltb_ge. destruct H as [H _]. eapply Qle_trans; [|exact H]. vm_compute. discriminate.
Qed.


(** X7: the no-structure cap of 55 is the score cap of an evaluation only for
    a transcript of exactly ten words in 19 characters: a transcript short
    enough for the structure gate (fewer than 20 characters) has at most
    ten words, and fewer than ten words give the cap 40 or less. *)
Theorem no_structure_cap_rare (env : Env) (t : string) (d : Q) (ideal : string)
    (a : option string) (v : option video) :
  score_cap (apply_quality_gates t (score_categories env t d ideal a v) ideal) = Some 55%Z ->
  length (Str.split t) = 10%nat /\ Str.len t = 19%nat.
Proof.
  destruct (Str.falsy t) eqn:Hf.
  { unfold apply_quality_gates. rewrite Hf. discriminate. }
  destruct (apply_quality_gates_outcome t (score_categories env t d ideal a v) ideal Hf)
    as (_ & _ & _ & Hc).
  rewrite Hc, structure_gate. cbn [threshold G_min_word_count].
  pose proof (split_length_half t) as [Hhalf _].
  destruct (is_nonsense (detect_nonsense t)); [discriminate|].
  destruct (_ && negb (Str.falsy ideal)); [discriminate|].
  destruct (Nat.ltb (length (Str.split t)) 15) eqn:E15;
    destruct (Nat.ltb (length (Str.split t)) 10) eqn:E10;
    destruct (Nat.ltb (Str.len t) 20) eqn:E20; try discriminate; intros _.
  all: try apply Nat.ltb_lt in E15; try apply Nat.ltb_ge in E15;
    try apply Nat.ltb_lt in E10; try apply Nat.ltb_ge in E10;
    apply Nat.ltb_lt in E20; lia.
Qed.

Lemma no_structure_cap_rare_witness :
  score_cap
    (apply_quality_gates "a b c d e f g h i j"
       (score_categories Offline.env "a b c d e f g h i j" 4 "" None None) "") = Some 55%Z
  /\ length (Str.split "a b c d e f g h i j") = 10%nat
  /\ Str.len "a b c d e f g h i j" = 19%nat.
Proof.
  split.
  - vm_compute. reflexivity.
  - apply (no_structure_cap_rare Offline.env "a b c d e f g h i j" 4 "" None None).
    vm_compute. reflexivity.
Defined.


(** ** Coherence *)

Lemma answer_coherence_floor (t : string) :
  (15 <= length (Str.split t))%nat -> sentences_of t <> [] ->
  35 <= calculate_answer_coherence t.
Proof.
  intros Hw Hs. unfold calculate_answer_coherence.
  assert (Hg : Str.falsy t || Nat.ltb (Str.len (Str.strip t)) 10 = false).
  { apply guard_long; [lia|]. pose proof (split_length_strip t). lia. }
  rewrite Hg. cbv zeta.
  assert (Hn : (1 <= length (sentences_of t))%nat).
  { destruct (sentences_of t); [congruence | cbn; lia]. }
  set (n := length (sentences_of t)) in *.
  set (wc := length (Str.split t)) in *.
  set (u := size (unique_words_of (Str.split t))).
  set (cc := length (List.filter _ connectors)).
  clearbody n wc u cc.
  assert (E0 : Nat.ltb 0 wc = true) by (apply Nat.ltb_lt; lia).
  assert (E15 : Nat.leb 15 wc = true) by (apply Nat.leb_le; lia).
  assert (E15' : Nat.ltb wc 15 = false) by (apply Nat.ltb_ge; lia).
  rewrite E0, E15, E15'.
  set (ratio := Py.of_nat u / Py.of_nat wc). clearbody ratio.
  assert (En : Nat.leb 2 n = false -> Nat.eqb n 1 = true).
  { intros H. apply Nat.leb_gt in H. apply Nat.eqb_eq. lia. }
  destruct (Nat.leb 2 n); [|rewrite (En eq_refl); cbn [andb]];
    destruct (Py.leb 0.6 ratio), (Py.leb 0.4 ratio), (Py.ltb ratio 0.25),
      (Nat.leb 3 cc), (Nat.leb 1 cc), (Nat.leb 30 wc && Nat.leb wc 200), (Nat.ltb 300 wc);
    vm_compute; discriminate.
Qed.

(** X8: an answer of at least 15 words with at least one sentence has a
    coherence score of at least 35, above the minimum of 30: the coherence
    gate never penalises it. *)
Theorem coherent_long_answers (t : string) (scores : score_result) (ideal : string) :
  (15 <= length (Str.split t))%nat -> sentences_of t <> [] ->
  35 <= calculate_answer_coherence t
  /\ ~ In "incoherent" (map fst (penalties (apply_quality_gates t scores ideal))).
Proof.
  intros Hw Hs. pose proof (answer_coherence_floor t Hw Hs) as Hc.
  split; [exact Hc|].
  assert (Hf : Str.falsy t = false).
  { destruct t; [cbn in Hw; lia | reflexivity]. }
  destruct (apply_quality_gates_outcome t scores ideal Hf) as (Hp & _).
  rewrite Hp.
  assert (E : Py.ltb (calculate_answer_coherence t) MIN_COHERENCE_SCORE = false).
  { apply ltb_ge. eapply Qle_trans; [|exact Hc]. vm_compute. discriminate. }
  rewrite E.
  match goal with
  | |- context [fired [(?b1, _); (?b2, _); (?b3, _); (?b4, _); (?b5, _); (?b6, _); _]] =>
      generalize b1 b2 b3 b4 b5 b6
  end.
  intros b1 b2 b3 b4 b5 b6.
  destruct b1, b2, b3, b4, b5, b6; cbn; intuition discriminate.
Qed.

Lemma coherent_long_answers_witness :
  (15 <= length (Str.split sample_transcript))%nat
  /\ sentences_of sample_transcript <> []
  /\ 35 <= calculate_answer_coherence sample_transcript
  /\ ~ In "incoherent"
         (map fst (penalties
            (apply_quality_gates sample_transcript
               (score_categories Offline.env sample_transcript 30 sample_ideal_answer None None)
               sample_ideal_answer))).
Proof.
  split; [vm_compute; lia|]. split; [vm_compute; discriminate|].
  apply (coherent_long_answers sample_transcript
           (score_categories Offline.env sample_transcript 30 sample_ideal_answer None None)
           sample_ideal_answer).
  - vm_compute. lia.
  - vm_compute. discriminate.
Defined.

(** ** Delivery *)

(** A pace penalty [p] and a filler penalty of [per] for each of [n]
    fillers, capped at [cap], leave an integer score that the clamp and the
    rounding do not change. *)
Lemma delivery_exact (p cap per : Z) (capq perq : Q) (n : nat) :
  (0 <= p <= 30)%Z -> (0 <= cap <= 30)%Z -> (0 <= per)%Z ->
  capq == inject_Z cap -> perq == inject_Z per ->
  let x := 100.0 - inject_Z p - Qmin capq (Py.of_nat n * perq) in
  Qmax 0 (Qmin 100 x) == x
  /\ Py.round x 1 == x
  /\ x == 100 - inject_Z p - Qmin (inject_Z cap) (inject_Z per * Py.of_nat n)
  /\ 100 - 30 - inject_Z cap <= x <= 100.
Proof.
  intros Hp Hcap Hper Ecap Eper. cbv zeta.
  set (m := Z.min cap (Z.of_nat n * per)).
  assert (Hm : Qmin capq (Py.of_nat n * perq) == inject_Z m
               /\ Qmin (inject_Z cap) (inject_Z per * Py.of_nat n) == inject_Z m).
  { unfold Py.of_nat. subst m.
    destruct (Z.le_gt_cases cap (Z.of_nat n * per)) as [H|H].
    - rewrite Z.min_l by exact H. rewrite Zle_Qle, inject_Z_mult in H.
      split; [rewrite Q.min_l; [exact Ecap | rewrite Ecap, Eper; exact H]|].
      apply Q.min_l. rewrite Qmult_comm. exact H.
    - rewrite Z.min_r by lia. apply Z.lt_le_incl in H. rewrite Zle_Qle, inject_Z_mult in H.
      split.
      + rewrite Q.min_r; [rewrite Eper, inject_Z_mult; reflexivity|].
        rewrite Ecap, Eper. exact H.
      + rewrite Q.min_r; [rewrite inject_Z_mult; apply Qmult_comm|].
        rewrite Qmult_comm. exact H. }
  destruct Hm as [Hm1 Hm2].
  assert (Hmr : (0 <= m <= cap)%Z) by (subst m; lia).
  assert (Hx : 100.0 - inject_Z p - Qmin capq (Py.of_nat n * perq)
               == inject_Z (100 - p - m)).
  { rewrite Hm1. unfold Z.sub. rewrite !inject_Z_plus, !inject_Z_opp.
    change (inject_Z 100) with 100. ring. }
  assert (Hr : (0 <= 100 - p - m <= 100)%Z) by lia.
  split; [|split; [|split]].
  - rewrite Hx. destruct Hr as [H0 H100]. rewrite Zle_Qle in H0, H100.
    change (inject_Z 0) with 0 in H0. change (inject_Z 100) with 100 in H100.
    rewrite Q.min_r by exact H100. apply Q.max_r. exact H0.
  - rewrite (round_comp _ _ 1 Hx), Hx. apply round_Z.
  - rewrite Hx, Hm2. unfold Z.sub. rewrite !inject_Z_plus, !inject_Z_opp.
    change (inject_Z 100) with 100. ring.
  - rewrite Hx.
    assert (H1 : (100 - 30 - cap <= 100 - p - m)%Z) by lia.
    assert (H2 : (100 - p - m <= 100)%Z) by lia.
    rewrite Zle_Qle in H1, H2. split; [|exact H2].
    eapply Qle_trans; [|exact H1].
    unfold Z.sub. rewrite !inject_Z_plus, !inject_Z_opp.
    change (inject_Z 100) with 100. change (inject_Z 30) with 30. lra.
Qed.

Section Delivery.
Context (env : Env).

Lemma score_categories_delivery (t : string) (d : Q) (ideal : string) (a : option string)
    (v : option video) :
  let r := score_categories env t d ideal a v in
  delivery r
  = _clamp_score
      (100.0 - inject_Z (snd (get_wpm_assessment (compute_wpm t d)))
       - Qmin MAX_FILLER_PENALTY (Py.of_nat (fst (count_fillers t)) * FILLER_PENALTY_PER_WORD))
  /\ wpm r = compute_wpm t d /\ filler_count r = fst (count_fillers t).
Proof.
  unfold score_categories.
  destruct a as [path|];
    [destruct (Str.falsy path); [|destruct (analyze_voice env path) as [voice_result|]]|];
    destruct v as [video_analysis|];
    cbn [delivery wpm filler_count]; repeat split.
Qed.

Lemma keyword_delivery (t : string) (kws : list string) (d : Q) (ideal : option string) :
  Str.falsy t || Nat.ltb (Str.len (Str.strip t)) 5 = false ->
  let r := score_answer_by_keywords env t kws d ideal in
  kw_delivery r
  = Py.round (Qmax 0.0 (Qmin 100.0
      (100.0 - inject_Z (snd (get_wpm_assessment (compute_wpm t d)))
       - Qmin 20.0 (Py.of_nat (fst (count_fillers t)) * 3)))) 1
  /\ kw_wpm r = compute_wpm t d /\ kw_filler_count r = fst (count_fillers t).
Proof.
  intros Hguard. unfold score_answer_by_keywords. rewrite Hguard.
  set (comm := calculate_enhanced_communication_score env t). clearbody comm.
  set (fillers := count_fillers t). clearbody fillers.
  set (speed := compute_wpm t d). clearbody speed.
  destruct kws as [|kw kws].
  - destruct ideal as [[|c ideal]|]; cbn [kw_delivery kw_wpm kw_filler_count];
      repeat split.
  - destruct (match_keywords t (kw :: kws)) as [found missing].
    cbn [kw_delivery kw_wpm kw_filler_count]. repeat split.
Qed.

End Delivery.

(** X9: past the length guard and for a duration whose speaking rate is a
    finite float, the delivery score is exactly 100 minus the pace penalty
    (0 to 30) minus the filler penalty: 2 per filler capped at 30 in full
    mode, so delivery is at least 40; 3 per filler capped at 20 in
    keyword-only mode, so delivery is at least 50.  The clamp and the
    rounding never change it. *)
Theorem delivery_score_value (env : Env) (t : string) (kws : list string) (d : Q)
    (ideal : string) (ideal' : option string) (a : option string) (v : option video) :
  (5 <= Str.len (Str.strip t))%nat ->
  finite_rate t d ->
  let pace := inject_Z (snd (get_wpm_assessment (compute_wpm t d))) in
  let fillers := Py.of_nat (fst (count_fillers t)) in
  let r := score_answer env t d ideal a v in
  let k := score_answer_by_keywords env t kws d ideal' in
  delivery r == 100 - pace - Qmin 30 (2 * fillers)
  /\ 40 <= delivery r <= 100
  /\ kw_delivery k == 100 - pace - Qmin 20 (3 * fillers)
  /\ 50 <= kw_delivery k <= 100.
Proof.
  intros Hlong _. cbv zeta.
  destruct (final_value env t d ideal a v Hlong) as (_ & _ & _ & Hd & _).
  cbv zeta in Hd. rewrite Hd.
  destruct (score_categories_delivery env t d ideal a v) as (-> & _).
  assert (Hg : Str.falsy t || Nat.ltb (Str.len (Str.strip t)) 5 = false).
  { apply guard_long; lia. }
  destruct (keyword_delivery env t kws d ideal' Hg) as (-> & _).
  pose proof (wpm_penalty_range (compute_wpm t d)) as Hp.
  set (p := snd (get_wpm_assessment (compute_wpm t d))) in *.
  set (n := fst (count_fillers t)). clearbody p n.
  destruct (delivery_exact p 30 2 MAX_FILLER_PENALTY FILLER_PENALTY_PER_WORD n)
    as (Hc & Hr & Hx & Hb); [lia | lia | lia | reflexivity | reflexivity |].
  destruct (delivery_exact p 20 3 20.0 3 n)
    as (Hc' & Hr' & Hx' & Hb'); [lia | lia | lia | reflexivity | reflexivity |].
  cbv zeta in *.
  set (x := 100.0 - inject_Z p - Qmin MAX_FILLER_PENALTY (Py.of_nat n * FILLER_PENALTY_PER_WORD))
    in *.
  set (y := 100.0 - inject_Z p - Qmin 20.0 (Py.of_nat n * 3)) in *.
  assert (Ex : _clamp_score x == x).
  { unfold _clamp_score, MIN_SCORE, MAX_SCORE.
    eapply Qeq_trans; [apply round_comp; exact Hc | exact Hr]. }
  assert (Ey : Py.round (Qmax 0.0 (Qmin 100.0 y)) 1 == y).
  { eapply Qeq_trans; [apply round_comp; rewrite clamp_literals; exact Hc' | exact Hr']. }
  change (inject_Z 30) with 30 in *. change (inject_Z 20) with 20 in *.
  change (inject_Z 2) with 2 in *. change (inject_Z 3) with 3 in *.
  rewrite Ex, Ey. clearbody x y.
  split; [exact Hx|]. split; [split; lra|]. split; [exact Hx'|]. split; lra.
Qed.

Lemma delivery_score_value_witness :
  (5 <= Str.len (Str.strip sample_transcript))%nat
  /\ finite_rate sample_transcript 30
  /\ let pace := inject_Z (snd (get_wpm_assessment (compute_wpm sample_transcript 30))) in
     let fillers := Py.of_nat (fst (count_fillers sample_transcript)) in
     let r := score_answer Offline.env sample_transcript 30 sample_ideal_answer None None in
     let k := score_answer_by_keywords Offline.env sample_transcript ["python"] 30 None in
     delivery r == 100 - pace - Qmin 30 (2 * fillers)
     /\ 40 <= delivery r <= 100
     /\ kw_delivery k == 100 - pace - Qmin 20 (3 * fillers)
     /\ 50 <= kw_delivery k <= 100.
Proof.
  assert (H : finite_rate sample_transcript 30) by (right; vm_compute; discriminate).
  split; [vm_compute; lia|]. split; [exact H|].
  apply (delivery_score_value Offline.env sample_transcript ["python"] 30
           sample_ideal_answer None None None); [vm_compute; lia | exact H].
Defined.

(** ** Speaking rate *)

(** X10: the speaking rate is 0 for an empty transcript or a duration that is
    not positive.  Otherwise, while it is a finite float, it is not
    negative and it is the number of words times 60 over the duration in
    seconds rounded to one decimal: within 0.05 of that quotient, up to the
    relative error of the float division, less than one part in 10^12. *)
Theorem compute_wpm_value (t : string) (d : Q) :
  finite_rate t d ->
  let w := compute_wpm t d in
  let rate := Py.of_nat (length (Str.split t)) * 60 / d in
  if Str.falsy t || Py.leb d 0 then w == 0
  else 0 <= w /\ Qabs (w - rate) <= 0.05 + rate / 1000000000000.
Proof.
  intros _. cbv zeta. unfold compute_wpm.
  destruct (Str.falsy t || Py.leb d 0) eqn:E; [reflexivity|].
  apply orb_false_iff in E. destruct E as [_ Hd]. apply leb_gt in Hd.
  assert (Hm : Py.leb (d / 60.0) 0 = false).
  { apply leb_gt. apply Qlt_shift_div_l; lra. }
  rewrite Hm.
  set (n := Py.of_nat (length (Str.split t))).
  assert (Hn : 0 <= n).
  { subst n. unfold Py.of_nat. change 0 with (inject_Z 0). rewrite <- Zle_Qle. lia. }
  clearbody n.
  assert (Hx : n / (d / 60.0) == n * 60 / d) by (field; lra).
  assert (Hr : 0 <= n * 60 / d) by (apply Qle_shift_div_l; [lra | nra]).
  split.
  - rewrite <- (round_Z 0 1). apply round_mono. change (inject_Z 0) with 0.
    rewrite Hx. exact Hr.
  - pose proof (round_close (n / (d / 60.0)) 1) as Hc.
    rewrite <- Hx in Hr |- *.
    eapply Qle_trans; [exact Hc|].
    set (rate := n / (d / 60.0)) in *. clearbody rate.
    apply Qle_trans with 0.05; [vm_compute; discriminate|].
    unfold Qdiv. change (/ 1000000000000) with (1 # 1000000000000). lra.
Qed.

Lemma compute_wpm_value_witness :
  finite_rate sample_transcript 30
  /\ let w := compute_wpm sample_transcript 30 in
     let rate := Py.of_nat (length (Str.split sample_transcript)) * 60 / 30 in
     0 <= w /\ Qabs (w - rate) <= 0.05 + rate / 1000000000000.
Proof.
  assert (H : finite_rate sample_transcript 30) by (right; vm_compute; discriminate).
  split; [exact H|].
  exact (compute_wpm_value sample_transcript 30 H).
Defined.

(** ** Neutral voice and confidence *)




(** ** Nonsense detection *)

Lemma nonsense_guard (t : string) (n : nat) :
  (0 < n)%nat ->
  Str.falsy t || Nat.ltb (Str.len (Str.strip t)) n = Nat.ltb (Str.len (Str.strip t)) n.
Proof.
  intros Hn. destruct t; [|reflexivity]. cbn. destruct n; [lia | reflexivity].
Qed.

(** X12: [detect_nonsense] flags an input of fewer than 5 characters (once
    stripped) with confidence 1.  Otherwise it collects at most 11 signals
    and its confidence is 0.3 per signal, capped at 1: the input is taken
    for nonsense exactly when at least two signals were collected. *)
Theorem nonsense_needs_two_signals (t : string) :
  let n := detect_nonsense t in
  let signals := length (patterns_found n) in
  if Nat.ltb (Str.len (Str.strip t)) 5
  then is_nonsense n = true /\ n_confidence n == 1 /\ patterns_found n = []
  else is_nonsense n = Nat.leb 2 signals
       /\ n_confidence n == Qmin 1 (0.3 * Py.of_nat signals)
       /\ (signals <= 11)%nat.
Proof.
  cbv zeta. unfold detect_nonsense. rewrite nonsense_guard by lia.
  destruct (Nat.ltb (Str.len (Str.strip t)) 5); [repeat split|].
  cbv zeta.
  set (found0 := fold_left _ NONSENSE_PATTERNS []).
  assert (H0 : (length found0 <= 9)%nat).
  { subst found0. unfold NONSENSE_PATTERNS. cbn [fold_left app].
    rewrite !length_app, !length_map.
    repeat match goal with
           | |- context [firstn 3 ?l] =>
               let H := fresh in
               pose proof (firstn_le_length 3 l) as H;
               pose proof (length_firstn 3 l) as ?;
               set (firstn 3 l) in *
           end.
    lia. }
  clearbody found0.
  set (found1 := if Nat.ltb 5 _ then _ else found0).
  assert (H1 : (length found1 <= 10)%nat).
  { subst found1. destruct (Nat.ltb 5 _); [|lia]. cbv zeta.
    destruct (Py.ltb 0.3 _); [rewrite length_app; cbn [length]|]; lia. }
  clearbody found1.
  set (found2 := if _ && _ then _ else found1).
  assert (H2 : (length found2 <= 11)%nat).
  { subst found2. destruct (_ && _); [rewrite length_app; cbn [length]|]; lia. }
  clearbody found2. clear found0 found1 H0 H1.
  destruct found2 as [|x [|y l]].
  - cbn [is_nonsense n_confidence patterns_found length Nat.leb].
    repeat split; try lia.
  - cbn [is_nonsense n_confidence patterns_found length Nat.leb].
    repeat split; try lia.
  - cbn [is_nonsense n_confidence patterns_found].
    set (k := length (x :: y :: l)) in *.
    assert (Hk : (2 <= k)%nat) by (subst k; cbn [length]; lia).
    assert (Hq : 2 <= Py.of_nat k).
    { unfold Py.of_nat. change 2 with (inject_Z 2). rewrite <- Zle_Qle. lia. }
    clearbody k. set (q := Py.of_nat k) in *. clearbody q.
    split; [|split; [|exact H2]].
    + destruct (Nat.leb_spec 2 k); [|lia].
      apply leb_le. apply Q.min_glb; lra.
    + destruct (Qlt_le_dec (q * 0.3) 1) as [H|H].
      * rewrite (Q.min_r 1.0), (Q.min_r 1) by lra. ring.
      * rewrite (Q.min_l 1.0), (Q.min_l 1) by lra. reflexivity.
Qed.

(** ** Filler words *)

Lemma lower_char_not_capital_I (c : ascii) : Ascii.eqb "I" (Str.lower_char c) = false.
Proof. destruct c as [[] [] [] [] [] [] [] []]; reflexivity. Qed.

(** A literal that starts with a capital I matches nowhere in a
    lower-cased text. *)
Lemma scan_capital_I (text w t : string) (i : nat) (prev : option ascii) (skip : nat) :
  Re.scan text (Re.whole (Re.lit (String "I" w))) i prev (Str.lower t) skip = [].
Proof.
  revert i prev skip. induction t as [|c t IH]; intros i prev skip.
  - destruct skip; reflexivity.
  - cbn [Str.lower]. destruct skip as [|k]; cbn [Re.scan]; [|apply IH].
    assert (Hm : Re.match_at text (Re.whole (Re.lit (String "I" w)))
                   (Re.St i prev (String (Str.lower_char c) (Str.lower t)) None) = None).
    { unfold Re.match_at, Re.whole. cbn [Re.run Re.lit].
      destruct (xorb _ _); [|reflexivity].
      cbn [Re.step Re.rest]. rewrite lower_char_not_capital_I. reflexivity. }
    rewrite Hm. apply IH.
Qed.

Lemma findall_capital_I (w t : string) :
  Re.findall (Re.whole (Re.lit (String "I" w))) (Str.lower t) = [].
Proof. unfold Re.findall, Re.finditer. rewrite scan_capital_I. reflexivity. Qed.

Lemma count_fillers_fold (count : string -> nat) (fs : list string)
    (acc : nat * list (string * nat)) :
  fold_left
    (fun acc filler =>
       if Nat.ltb 0 (count filler)
       then ((fst acc + count filler)%nat, (snd acc ++ [(filler, count filler)])%list)
       else acc)
    fs acc
  = let found := List.filter (fun p => Nat.ltb 0 (snd p)) (map (fun f => (f, count f)) fs) in
    ((fst acc + list_sum (map snd found))%nat, (snd acc ++ found)%list).
Proof.
  cbv zeta. revert acc. induction fs as [|f fs IH]; intros [n l].
  - cbn. rewrite Nat.add_0_r, app_nil_r. reflexivity.
  - cbn [fold_left map List.filter fst snd].
    destruct (Nat.ltb 0 (count f)).
    + rewrite IH. cbn [fst snd map].
      f_equal; [unfold list_sum; cbn [fold_right]; lia | rewrite <- app_assoc; reflexivity].
    + rewrite IH. reflexivity.
Qed.

(** X13: [count_fillers] lists, in the order of [FILLER_WORDS], the fillers that
    occur as whole words in the lower-cased transcript, each with its
    positive count, and returns the sum of the counts as the total.  The
    entries "I mean" and "I guess" are never listed, whatever the
    transcript: they keep their capital I and the transcript is lower-cased
    before matching. *)
Theorem count_fillers_listing (t : string) :
  let count f := length (Re.findall (Re.whole (Re.lit f)) (Str.lower t)) in
  let total := fst (count_fillers t) in
  let found := snd (count_fillers t) in
  found
  = (if Str.falsy t then []
     else List.filter (fun p => Nat.ltb 0 (snd p)) (map (fun f => (f, count f)) FILLER_WORDS))
  /\ total = list_sum (map snd found)
  /\ count "I mean" = 0%nat /\ count "I guess" = 0%nat
  /\ ~ In "I mean" (map fst found) /\ ~ In "I guess" (map fst found).
Proof.
  cbv zeta.
  assert (Hmean : length (Re.findall (Re.whole (Re.lit "I mean")) (Str.lower t)) = 0%nat)
    by (rewrite findall_capital_I; reflexivity).
  assert (Hguess : length (Re.findall (Re.whole (Re.lit "I guess")) (Str.lower t)) = 0%nat)
    by (rewrite findall_capital_I; reflexivity).
  unfold count_fillers. destruct (Str.falsy t).
  { cbn. repeat split; auto. }
  rewrite (count_fillers_fold
             (fun f => length (Re.findall (Re.whole (Re.lit f)) (Str.lower t)))).
  cbv zeta. cbn [fst snd app Nat.add].
  split; [reflexivity|]. split; [reflexivity|]. split; [exact Hmean|]. split; [exact Hguess|].
  split; intros H; apply in_map_iff in H; destruct H as ([f c] & Hf & H);
    apply filter_In in H; destruct H as [H Hpos]; apply in_map_iff in H;
    destruct H as (f' & [= <- <-] & _); cbn [fst snd] in *; subst f';
    [rewrite Hmean in Hpos | rewrite Hguess in Hpos]; discriminate.
Qed.

(** ** Grammar heuristics and the communication score *)

Lemma heuristic_fold (text : string) (ps : list (Re.regex * string)) (acc : nat * list string) :
  let r :=
    fold_left
      (fun acc pd =>
         if Re.search (fst pd) text
         then (S (fst acc), (snd acc ++ [snd pd])%list)
         else acc)
      ps acc in
  (fst acc <= fst r <= fst acc + length ps)%nat
  /\ (length (snd acc) = fst acc -> length (snd r) = fst r).
Proof.
  cbv zeta. revert acc. induction ps as [|p ps IH]; intros [n l].
  - cbn. split; [lia | auto].
  - cbn [fold_left length fst snd].
    destruct (Re.search (fst p) text).
    + destruct (IH (S n, (l ++ [snd p])%list)) as [H1 H2]. cbn [fst snd] in *.
      split; [lia|]. intros Hl. apply H2. rewrite length_app. cbn [length]. lia.
    + destruct (IH (n, l)) as [H1 H2]. cbn [fst snd] in *. split; [lia | exact H2].
Qed.

Lemma grammar_factor_bounds (e : nat) : 0 <= grammar_factor e <= 100.
Proof.
  unfold grammar_factor. apply (round_between 0 100). unfold inject_Z.
  apply clamp_between'; lra.
Qed.

(** X14: without the grammar checker (not installed, or raising on the text),
    the regular-expression heuristics report at most 9 errors, one
    description for each, so the grammar factor is at least 73. *)
Theorem heuristic_grammar_bound (env : Env) (t : string) :
  match language_tool env with
  | Some check => check t = None
  | None => True
  end ->
  let errors := fst (estimate_grammar_errors env t) in
  (errors <= 9)%nat
  /\ length (snd (estimate_grammar_errors env t)) = errors
  /\ 73 <= grammar_factor errors <= 100.
Proof.
  intros Htool. cbv zeta.
  assert (He : (fst (estimate_grammar_errors env t) <= 9)%nat
               /\ length (snd (estimate_grammar_errors env t))
                  = fst (estimate_grammar_errors env t)).
  { unfold estimate_grammar_errors.
    destruct (Str.falsy t || Nat.ltb (Str.len t) 10); [cbn; split; [lia | reflexivity]|].
    assert (Hh : (fst (_heuristic_grammar_check t) <= 9)%nat
                 /\ length (snd (_heuristic_grammar_check t))
                    = fst (_heuristic_grammar_check t)).
    { unfold _heuristic_grammar_check.
      destruct (heuristic_fold (Str.lower t) grammar_patterns (0%nat, [])) as [[_ H1] H2].
      split; [exact H1 | apply H2; reflexivity]. }
    destruct (language_tool env) as [check|]; [rewrite Htool|]; exact Hh. }
  destruct He as [H9 Hl]. split; [exact H9|]. split; [exact Hl|].
  split; [|apply grammar_factor_bounds].
  rewrite grammar_factor_value.
  set (e := fst (estimate_grammar_errors env t)) in *. clearbody e.
  assert (Hq : Py.of_nat e <= 9).
  { unfold Py.of_nat. change 9 with (inject_Z 9). rewrite <- Zle_Qle. lia. }
  set (q := Py.of_nat e) in *. clearbody q.
  eapply Qle_trans; [|apply Q.le_max_r]. lra.
Qed.

Lemma heuristic_grammar_bound_witness :
  match language_tool Recorded.env with
  | Some check => check sample_transcript = None
  | None => True
  end
  /\ let errors := fst (estimate_grammar_errors Recorded.env sample_transcript) in
     (errors <= 9)%nat
     /\ length (snd (estimate_grammar_errors Recorded.env sample_transcript)) = errors
     /\ 73 <= grammar_factor errors <= 100.
Proof.
  split.
  - reflexivity.
  - apply (heuristic_grammar_bound Recorded.env sample_transcript). reflexivity.
Defined.

Section Communication.
Context (env : Env).






End Communication.



(** ** Voice scores *)

(** Constant divisors, as factors. *)
Ltac const_div :=
  unfold Qdiv;
  repeat match goal with
         | |- context [Qinv ?c] =>
             let c' := eval vm_compute in (Qinv c) in change (Qinv c) with c'
         end.

Ltac voice_cases :=
  repeat (cmp_cases; cbv zeta);
  repeat match goal with
         | |- context [Qmax ?a ?b] =>
             let H := fresh in
             destruct (Q.max_spec a b) as [[H ->]|[H ->]]
         | |- context [Qmin ?a ?b] =>
             let H := fresh in
             destruct (Q.min_spec a b) as [[H ->]|[H ->]]
         end.

Lemma pitch_variation_range (x : Q) : 0 <= Voice._score_pitch_variation x <= 100.
Proof.
  unfold Voice._score_pitch_variation, PITCH_STD_MONOTONE, PITCH_STD_OPTIMAL_MIN,
    PITCH_STD_OPTIMAL_MAX, PITCH_STD_DRAMATIC.
  const_div. voice_cases; split; lra.
Qed.

Lemma energy_projection_range (x : Q) : 30 <= Voice._score_energy_projection x <= 100.
Proof.
  unfold Voice._score_energy_projection. cbv zeta. voice_cases; split; lra.
Qed.

Lemma pause_pattern_range (x : Q) : 40 <= Voice._score_pause_pattern x <= 100.
Proof.
  unfold Voice._score_pause_pattern, PAUSE_PER_MIN_TOO_FEW, PAUSE_PER_MIN_OPTIMAL_MIN,
    PAUSE_PER_MIN_OPTIMAL_MAX, PAUSE_PER_MIN_TOO_MANY.
  const_div. voice_cases; split; lra.
Qed.

Lemma energy_consistency_range (x : Q) : 50 <= Voice._score_energy_consistency x <= 95.
Proof.
  unfold Voice._score_energy_consistency. const_div. voice_cases; split; lra.
Qed.

Lemma rhythm_stability_range (x : Q) : 50 <= Voice._score_rhythm_stability x <= 100.
Proof.
  unfold Voice._score_rhythm_stability. const_div. voice_cases; split; lra.
Qed.

Lemma calculate_scores_range (m : Voice.voice_metrics) :
  let s := Voice._calculate_scores m in
  30.5 <= Voice.overall_score s <= 99.25
  /\ Voice.voice_confidence s
     == 0.5 * Voice.energy_projection_score s + 0.3 * Voice.energy_consistency_score s
        + 0.2 * Voice.pitch_variation_score s
  /\ 30 <= Voice.voice_confidence s <= 98.5.
Proof.
  cbv zeta. unfold Voice._calculate_scores. cbv zeta.
  cbn [Voice.overall_score Voice.voice_confidence Voice.energy_projection_score
       Voice.energy_consistency_score Voice.pitch_variation_score].
  pose proof (pitch_variation_range (Voice.pitch_std m)) as Hp.
  pose proof (energy_projection_range (Voice.energy_mean_db m)) as He.
  pose proof (pause_pattern_range (Voice.pauses_per_minute m)) as Ha.
  pose proof (energy_consistency_range (Voice.energy_std_db m)) as Hc.
  pose proof (rhythm_stability_range (Voice.rhythm_variance m)) as Hr.
  set (p := Voice._score_pitch_variation _) in *.
  set (e := Voice._score_energy_projection _) in *.
  set (a := Voice._score_pause_pattern _) in *.
  set (c := Voice._score_energy_consistency _) in *.
  set (r := Voice._score_rhythm_stability _) in *.
  clearbody p e a c r.
  unfold VW_pitch_variation, VW_energy_projection, VW_pause_appropriateness,
    VW_energy_consistency, VW_rhythm_stability, Voice._calculate_voice_confidence.
  cbv zeta.
  assert (Hk : Qmin 100 (Qmax 0 (0.5 * e + 0.3 * c + 0.2 * p)) == 0.5 * e + 0.3 * c + 0.2 * p).
  { rewrite Q.max_r by lra. apply Q.min_r. lra. }
  split; [split; lra|]. split; [exact Hk|]. rewrite Hk. split; lra.
Qed.

(** X16: whatever the metrics of the recording, the five component scores of
    the voice analysis stay in fixed ranges: pitch variation in [0, 100],
    energy projection in [30, 100], pauses in [40, 100], energy consistency
    in [50, 95] and rhythm stability in [50, 100].  So the overall voice
    score lies in [30.5, 99.25], and the voice confidence is the plain
    weighted sum 0.5, 0.3, 0.2 of projection, consistency and pitch, in
    [30, 98.5]: its clamp to [0, 100] never acts. *)
Theorem voice_scores_range (m : Voice.voice_metrics) :
  let s := Voice._calculate_scores m in
  0 <= Voice.pitch_variation_score s <= 100
  /\ 30 <= Voice.energy_projection_score s <= 100
  /\ 40 <= Voice.pause_appropriateness_score s <= 100
  /\ 50 <= Voice.energy_consistency_score s <= 95
  /\ 50 <= Voice.rhythm_stability_score s <= 100
  /\ 30.5 <= Voice.overall_score s <= 99.25
  /\ Voice.voice_confidence s
     == 0.5 * Voice.energy_projection_score s + 0.3 * Voice.energy_consistency_score s
        + 0.2 * Voice.pitch_variation_score s
  /\ 30 <= Voice.voice_confidence s <= 98.5.
Proof.
  cbv zeta.
  split; [apply pitch_variation_range|]. split; [apply energy_projection_range|].
  split; [apply pause_pattern_range|]. split; [apply energy_consistency_range|].
  split; [apply rhythm_stability_range|]. apply calculate_scores_range.
Qed.




(** ** Symmetry of the similarity *)

Lemma np_dot_comm (v1 v2 : list Q) : np_dot v1 v2 == np_dot v2 v1.
Proof.
  revert v2. induction v1 as [|x v1 IH]; intros [|y v2]; cbn [np_dot]; try reflexivity.
  rewrite IH. ring.
Qed.

Lemma fallback_similarity_sym (t1 t2 : string) :
  _fallback_similarity t1 t2 = _fallback_similarity t2 t1.
Proof.
  unfold _fallback_similarity.
  assert (Hi : word_set t1 ∩ word_set t2 = word_set t2 ∩ word_set t1)
    by apply intersection_comm_L.
  assert (Hu : word_set t1 ∪ word_set t2 = word_set t2 ∪ word_set t1)
    by apply union_comm_L.
  rewrite Hi, Hu. reflexivity.
Qed.

Lemma word_set_lower (t : string) : word_set (Str.lower t) = word_set t.
Proof. unfold word_set. rewrite lower_idem. reflexivity. Qed.

Lemma cosine_similarity_sym (env : Env) (v1 v2 : list Q) :
  _cosine_similarity env v1 v2 == _cosine_similarity env v2 v1.
Proof.
  unfold _cosine_similarity. rewrite (orb_comm (Qeq_bool (np_norm env v1) 0)).
  destruct (Qeq_bool (np_norm env v2) 0 || Qeq_bool (np_norm env v1) 0) eqn:E; [reflexivity|].
  apply orb_false_iff in E. destruct E as [E2 E1].
  apply Qeq_bool_neq in E1. apply Qeq_bool_neq in E2.
  rewrite (np_dot_comm v1 v2). field. split; assumption.
Qed.

Lemma clamp_unit_comp (x y : Q) : x == y -> Qmax 0.0 (Qmin 1.0 x) == Qmax 0.0 (Qmin 1.0 y).
Proof.
  intros H.
  destruct (Qlt_le_dec x 0) as [H0|H0].
  - rewrite (Q.min_r 1.0 x), (Q.min_r 1.0 y) by lra.
    rewrite (Q.max_l 0.0 x), (Q.max_l 0.0 y) by lra. reflexivity.
  - destruct (Qlt_le_dec x 1) as [H1|H1].
    + rewrite (Q.min_r 1.0 x), (Q.min_r 1.0 y) by lra.
      rewrite (Q.max_r 0.0 x), (Q.max_r 0.0 y) by lra. exact H.
    + rewrite (Q.min_l 1.0 x), (Q.min_l 1.0 y) by lra. reflexivity.
Qed.

(** X18: the similarity of two texts does not depend on their order, with or
    without the sentence encoder; the token-set fallback also ignores
    letter case. *)
Theorem semantic_similarity_sym (env : Env) (t1 t2 : string) :
  semantic_similarity env t1 t2 == semantic_similarity env t2 t1
  /\ _fallback_similarity (Str.lower t1) t2 = _fallback_similarity t1 t2
  /\ _fallback_similarity t1 (Str.lower t2) = _fallback_similarity t1 t2.
Proof.
  split; [|split].
  - unfold semantic_similarity. rewrite (orb_comm (Str.falsy t1)).
    destruct (Str.falsy t2 || Str.falsy t1); [reflexivity|].
    destruct (sentence_model env) as [encode|];
      [|rewrite fallback_similarity_sym; reflexivity].
    destruct (encode t1) as [e1|], (encode t2) as [e2|];
      try (rewrite fallback_similarity_sym; reflexivity).
    apply clamp_unit_comp. apply cosine_similarity_sym.
  - unfold _fallback_similarity. rewrite word_set_lower. reflexivity.
  - unfold _fallback_similarity. rewrite word_set_lower. reflexivity.
Qed.

(** ** Keywords *)

Lemma match_keywords_fold_partition (words : gset string) (kws found missing : list string) :
  let r :=
    fold_left
      (fun acc keyword =>
         let keyword_lower := Str.lower keyword in
         if bool_decide (keyword_lower ∈ words) then
           ((fst acc ++ [keyword])%list, snd acc)
         else if existsb (stem_match keyword_lower) (elements words) then
           ((fst acc ++ [keyword])%list, snd acc)
         else (fst acc, (snd acc ++ [keyword])%list))
      kws (found, missing) in
  fst r
  = (found ++ List.filter
       (fun k => bool_decide (Str.lower k ∈ words)
                 || existsb (stem_match (Str.lower k)) (elements words)) kws)%list
  /\ snd r
     = (missing ++ List.filter
          (fun k => negb (bool_decide (Str.lower k ∈ words)
                          || existsb (stem_match (Str.lower k)) (elements words))) kws)%list.
Proof.
  cbv zeta. revert found missing.
  induction kws as [|k kws IH]; intros found missing.
  - cbn. rewrite !app_nil_r. split; reflexivity.
  - cbn [fold_left List.filter]. cbv zeta.
    destruct (bool_decide (Str.lower k ∈ words)) eqn:E1.
    + cbn [orb negb fst snd]. destruct (IH (found ++ [k])%list missing) as [-> ->].
      rewrite <- app_assoc. split; reflexivity.
    + cbn [orb]. destruct (existsb (stem_match (Str.lower k)) (elements words)) eqn:E2.
      * cbn [negb fst snd]. destruct (IH (found ++ [k])%list missing) as [-> ->].
        rewrite <- app_assoc. split; reflexivity.
      * cbn [negb fst snd]. destruct (IH found (missing ++ [k])%list) as [-> ->].
        rewrite <- app_assoc. split; reflexivity.
Qed.

Lemma filter_partition_length (A : Type) (f : A -> bool) (l : list A) :
  (length (List.filter f l) + length (List.filter (fun x => negb (f x)) l) = length l)%nat.
Proof.
  induction l as [|x l IH]; [reflexivity|].
  cbn [List.filter]. destruct (f x); cbn [negb length]; lia.
Qed.

(** X19: [match_keywords] splits the keyword list in two, keeping the order:
    every keyword is either found or missing, never both and never
    dropped; found are the keywords that are a word of the transcript or
    share a four-letter stem with one, whatever their case.  With an empty
    transcript every keyword is missing. *)
Theorem match_keywords_partition (t : string) (kws : list string) :
  let words : gset string := list_to_set (Re.findall word3 (Str.lower t)) in
  let hit k :=
    negb (Str.falsy t)
    && (bool_decide (Str.lower k ∈ words)
        || existsb (stem_match (Str.lower k)) (elements words)) in
  match_keywords t kws = (List.filter hit kws, List.filter (fun k => negb (hit k)) kws)
  /\ (length (fst (match_keywords t kws)) + length (snd (match_keywords t kws))
      = length kws)%nat
  /\ (forall k, In k kws <->
                In k (fst (match_keywords t kws)) \/ In k (snd (match_keywords t kws)))
  /\ (forall k, ~ (In k (fst (match_keywords t kws)) /\ In k (snd (match_keywords t kws)))).
Proof.
  cbv zeta.
  set (words := list_to_set (Re.findall word3 (Str.lower t)) : gset string).
  set (hit := fun k => negb (Str.falsy t) && _).
  assert (E : match_keywords t kws
              = (List.filter hit kws, List.filter (fun k => negb (hit k)) kws)).
  { unfold match_keywords. destruct (Str.falsy t) eqn:Hf.
    - cbn [orb]. subst hit. cbn [negb andb].
      f_equal; [induction kws; auto | induction kws as [|k kws IH]; [reflexivity|]].
      cbn [List.filter negb]. f_equal. exact IH.
    - destruct kws as [|k0 kws]; [reflexivity|].
      cbn [orb length Nat.eqb]. fold words.
      pose proof (match_keywords_fold_partition words (k0 :: kws) [] []) as H.
      cbv zeta in H. destruct H as [H1 H2].
      apply injective_projections; [rewrite H1 | rewrite H2]; reflexivity. }
  rewrite E. cbn [fst snd].
  split; [reflexivity|]. split; [apply filter_partition_length|]. split.
  - intros k. rewrite !filter_In. destruct (hit k); cbn [negb]; intuition congruence.
  - intros k. rewrite !filter_In. destruct (hit k); cbn [negb]; intuition congruence.
Qed.

(** ** Resume scoring *)

(** X20: the resume score lies in [0, 100] and its similarity in [0, 1]; both
    are 0 when the resume or the job description is empty.  Otherwise the
    score is 120 times the similarity, capped at 100 and rounded to one
    decimal (a number of tenths within 0.05 of it), and the assessment is
    "Excellent match" exactly from a similarity of 2/3 on, "Limited match"
    exactly below 5/12. *)
Theorem score_resume_range (env : Env) (resume_text jd_text : string) :
  let s := score_resume env resume_text jd_text in
  let similarity := semantic_similarity env resume_text jd_text in
  0 <= rs_overall_score s <= 100
  /\ 0 <= rs_similarity s <= 1
  /\ if Str.falsy resume_text || Str.falsy jd_text
     then rs_overall_score s == 0 /\ rs_similarity s == 0
     else (exists tenths : Z, rs_overall_score s == inject_Z tenths / 10)
          /\ Qabs (rs_overall_score s - Qmin 100 (similarity * 120)) <= 0.05
          /\ (rs_assessment s
              = "Excellent match - resume aligns very well with the job description"
              <-> 2 # 3 <= similarity)
          /\ (rs_assessment s = "Limited match - consider tailoring resume to this role"
              <-> similarity < 5 # 12).
Proof.
  cbv zeta. unfold score_resume.
  destruct (Str.falsy resume_text || Str.falsy jd_text).
  { cbn [rs_overall_score rs_similarity]. repeat split; try lra; reflexivity. }
  cbv zeta. cbn [rs_overall_score rs_similarity rs_assessment].
  pose proof (semantic_similarity_bounds env resume_text jd_text) as [H0 H1].
  set (sim := semantic_similarity env resume_text jd_text) in *. clearbody sim.
  split; [|split; [apply (round_between 0 1); split; assumption|]].
  - apply (round_between 0 100). unfold inject_Z.
    destruct (Q.min_spec 100 (sim * 120)) as [[Hc ->]|[Hc ->]]; split; lra.
  - split; [unfold Py.round; eexists; reflexivity|].
    split.
    { eapply Qle_trans; [apply round_close | vm_compute; discriminate]. }
    destruct (Q.min_spec 100 (sim * 120)) as [[Hc E]|[Hc E]];
      repeat (cmp_cases; try rewrite E in *);
      split; split; intros; try discriminate; try reflexivity; try lra.
Qed.

(** X21: a resume compared with itself as the job description scores 100, with
    similarity 1 and the best assessment, provided it has at least one word
    (and, with the encoder, an embedding of non-zero norm, computed up to
    rounding). *)
Theorem resume_matching_itself (env : Env) (text : string) :
  Str.split text <> [] -> norm_accurate env text ->
  let s := score_resume env text text in
  rs_overall_score s == 100 /\ rs_similarity s == 1
  /\ rs_assessment s = "Excellent match - resume aligns very well with the job description".
Proof.
  intros Hw Hn. cbv zeta. unfold score_resume.
  assert (Hf : Str.falsy text = false).
  { destruct text; [contradiction Hw; reflexivity | reflexivity]. }
  rewrite Hf. cbn [orb]. cbv zeta. cbn [rs_overall_score rs_similarity rs_assessment].
  pose proof (semantic_similarity_self env text Hw Hn) as [Hs _].
  set (sim := semantic_similarity env text text) in *. clearbody sim.
  assert (Hm : Qmin 100 (sim * 120) == 100) by (apply Q.min_l; lra).
  split; [|split].
  - eapply Qeq_trans; [apply round_comp; exact Hm | apply (round_Z 100)].
  - apply round_near_one. exact Hs.
  - assert (E : Py.leb 80 (Qmin 100 (sim * 120)) = true) by (apply leb_le; rewrite Hm; lra).
    rewrite E. reflexivity.
Qed.

Lemma resume_matching_itself_witness :
  Str.split sample_transcript <> []
  /\ norm_accurate Encoded.env sample_transcript
  /\ let s := score_resume Encoded.env sample_transcript sample_transcript in
     rs_overall_score s == 100 /\ rs_similarity s == 1
     /\ rs_assessment s
        = "Excellent match - resume aligns very well with the job description".
Proof.
  assert (H : norm_accurate Encoded.env sample_transcript).
  { split; [vm_compute; discriminate | vm_compute; discriminate]. }
  split; [vm_compute; discriminate|]. split; [exact H|].
  apply (resume_matching_itself Encoded.env sample_transcript);
    [vm_compute; discriminate | exact H].
Defined.

(** ** Extracted keywords *)

Lemma bump_NoDup (w : string) (counts : list (string * nat)) :
  NoDup (map fst counts) -> NoDup (map fst (bump w counts)).
Proof.
  induction counts as [|[k v] counts IH]; intros Hnd.
  - cbn. apply NoDup_singleton.
  - cbn [bump]. destruct (String.eqb k w) eqn:E; [exact Hnd|].
    cbn [map fst] in *. apply NoDup_cons in Hnd. destruct Hnd as [Hk Hrest].
    apply NoDup_cons. split; [|apply IH; exact Hrest].
    intros Hin. apply list_elem_of_In in Hin. apply bump_keys in Hin.
    destruct Hin as [->|Hin]; [|apply Hk; apply list_elem_of_In; exact Hin].
    rewrite String.eqb_refl in E. discriminate.
Qed.

Lemma counted_NoDup (P : string -> bool) (words : list string) (counts : list (string * nat)) :
  NoDup (map fst counts) ->
  NoDup (map fst (fold_left (fun counts word => if P word then counts else bump word counts)
                    words counts)).
Proof.
  revert counts. induction words as [|w words IH]; intros counts Hnd; [exact Hnd|].
  cbn [fold_left]. apply IH. destruct (P w); [exact Hnd | apply bump_NoDup; exact Hnd].
Qed.

Lemma counted_kept (P : string -> bool) (words : list string) (counts : list (string * nat))
    (k : string) :
  In k (map fst (fold_left (fun counts word => if P word then counts else bump word counts)
                   words counts)) ->
  P k = false \/ In k (map fst counts).
Proof.
  revert counts. induction words as [|w words IH]; intros counts Hin; [right; exact Hin|].
  cbn [fold_left] in Hin. apply IH in Hin. destruct Hin as [Hp|Hin]; [left; exact Hp|].
  destruct (P w) eqn:E; [right; exact Hin|].
  apply bump_keys in Hin. destruct Hin as [->|Hin]; [left; exact E | right; exact Hin].
Qed.

Lemma insert_by_count_perm (x : string * nat) (l : list (string * nat)) :
  Permutation (insert_by_count x l) (x :: l).
Proof.
  induction l as [|y l IH]; [reflexivity|].
  cbn [insert_by_count]. destruct (Nat.ltb (snd x) (snd y)); [|reflexivity].
  rewrite IH. apply perm_swap.
Qed.

Lemma sort_by_count_perm (l : list (string * nat)) : Permutation (sort_by_count l) l.
Proof.
  unfold sort_by_count. induction l as [|x l IH]; [reflexivity|].
  cbn [fold_right]. rewrite insert_by_count_perm. constructor. exact IH.
Qed.

Lemma firstn_NoDup (A : Type) (n : nat) (l : list A) : NoDup l -> NoDup (firstn n l).
Proof.
  intros H. rewrite <- (firstn_skipn n l) in H. apply NoDup_app in H. apply H.
Qed.

(** X22: [extract_keywords] returns at most [top_n] keywords, all different,
    none of them a stop word, each a lower-case word of the text. *)
Theorem extract_keywords_distinct (text : string) (top_n : nat) :
  let keywords := extract_keywords text top_n in
  (length keywords <= top_n)%nat
  /\ NoDup keywords
  /\ forall k, In k keywords ->
       (k ∉ stop_words) /\ In k (Re.findall word3 (Str.lower text)) /\ Str.lower k = k.
Proof.
  cbv zeta. split; [|split].
  - unfold extract_keywords. rewrite length_map. apply firstn_le_length.
  - unfold extract_keywords. rewrite <- firstn_map. apply firstn_NoDup.
    apply (NoDup_Permutation_proper _ _ (Permutation_map fst (sort_by_count_perm _))).
    apply (counted_NoDup (fun word => bool_decide (word ∈ stop_words))). apply NoDup_nil_2.
  - intros k Hk. pose proof (extract_keywords_words text top_n k Hk) as Hw.
    split; [|split; [exact Hw | apply (word3_lower_fixed text); exact Hw]].
    unfold extract_keywords in Hk. rewrite <- firstn_map in Hk. apply firstn_incl in Hk.
    apply in_map_iff in Hk. destruct Hk as (p & <- & Hp). apply sort_by_count_In in Hp.
    assert (Hin : In (fst p) (map fst
              (fold_left (fun counts word =>
                 if bool_decide (word ∈ stop_words) then counts else bump word counts)
                 (Re.findall word3 (Str.lower text)) []))).
    { apply in_map. exact Hp. }
    apply (counted_kept (fun word => bool_decide (word ∈ stop_words))) in Hin.
    destruct Hin as [Hin|[]]. apply bool_decide_eq_false in Hin. exact Hin.
Qed.

(** ** Resume analysis *)

Lemma insert_sorted_perm (x : string) (l : list string) :
  Permutation (Resume.insert_sorted x l) (x :: l).
Proof.
  induction l as [|y l IH]; [reflexivity|].
  cbn [Resume.insert_sorted]. destruct (String.leb x y); [reflexivity|].
  rewrite IH. apply perm_swap.
Qed.

Lemma sorted_length (s : gset string) : length (Resume.sorted s) = size s.
Proof.
  unfold Resume.sorted, size, set_size. cbn.
  induction (elements s) as [|x l IH]; [reflexivity|].
  cbn [fold_right]. rewrite (Permutation_length (insert_sorted_perm x _)).
  cbn [length]. rewrite IH. reflexivity.
Qed.

Lemma size_split (a b : gset string) : (size (a ∩ b) + size (b ∖ a) = size b)%nat.
Proof.
  assert (Hd : a ∩ b ## b ∖ a).
  { intros x H1 H2. apply elem_of_intersection in H1. apply elem_of_difference in H2. tauto. }
  rewrite <- (size_union _ _ Hd).
  f_equal. apply set_eq. intros x. rewrite elem_of_union, elem_of_intersection, elem_of_difference.
  destruct (decide (x ∈ a)); tauto.
Qed.

(** The skills found in a text: the entries of [COMMON_SKILLS] that occur
    in the lower-cased text, as whole words for the skills of at most three
    characters, anywhere for the others. *)
Lemma extract_skills_fold (tl : string) (skills : list string) (found : gset string)
    (skill : string) :
  skill ∈ fold_left
            (fun found_skills skill =>
               if Nat.leb (Str.len skill) 3 then
                 if Re.search (Re.whole (Re.lit skill)) tl
                 then found_skills ∪ {[skill]} else found_skills
               else
                 if Str.contains skill tl
                 then found_skills ∪ {[skill]} else found_skills)
            skills found
  <-> skill ∈ found
      \/ (In skill skills
          /\ (if Nat.leb (Str.len skill) 3 then Re.search (Re.whole (Re.lit skill)) tl
              else Str.contains skill tl) = true).
Proof.
  revert found. induction skills as [|k skills IH]; intros found.
  - cbn. tauto.
  - cbn [fold_left In]. rewrite IH. clear IH.
    destruct (Nat.leb (Str.len k) 3) eqn:Ek.
    + destruct (Re.search (Re.whole (Re.lit k)) tl) eqn:Es.
      * rewrite elem_of_union, elem_of_singleton. split.
        -- intros [[H| ->]|H]; [tauto | right; rewrite Ek; tauto | tauto].
        -- intros [H|[[ ->|H] H']]; tauto.
      * split; [tauto|]. intros [H|[[ ->|H] H']]; [tauto | | tauto].
        rewrite Ek in H'. congruence.
    + destruct (Str.contains k tl) eqn:Es.
      * rewrite elem_of_union, elem_of_singleton. split.
        -- intros [[H| ->]|H]; [tauto | right; rewrite Ek; tauto | tauto].
        -- intros [H|[[ ->|H] H']]; tauto.
      * split; [tauto|]. intros [H|[[ ->|H] H']]; [tauto | | tauto].
        rewrite Ek in H'. congruence.
Qed.

Lemma extract_skills_spec (text skill : string) :
  skill ∈ Resume.extract_skills text
  <-> text <> EmptyString /\ In skill COMMON_SKILLS
      /\ (if Nat.leb (Str.len skill) 3
          then Re.search (Re.whole (Re.lit skill)) (Str.lower text)
          else Str.contains skill (Str.lower text)) = true.
Proof.
  unfold Resume.extract_skills. destruct text as [|c text].
  - cbn [Str.falsy]. rewrite elem_of_empty. split; [tauto | intros [H _]; congruence].
  - cbn [Str.falsy]. cbv zeta. rewrite extract_skills_fold, elem_of_empty.
    split; [intros [[]|H]; split; [discriminate | exact H] | intros [_ H]; right; exact H].
Qed.

(** X23: the combined match score of [compare_resume_with_jd] lies in [0, 100]
    and its similarity in [0, 1]; the skills of the job description are
    split into matched and missing, those of the resume into matched and
    extra; and a job description that names no known skill gives every
    resume the score 30 + 40 * similarity rounded to one decimal (within
    0.05 of it), between 30 and 70. *)
Theorem compare_resume_range (env : Env) (resume_text jd_text : string) :
  let c := Resume.compare_resume_with_jd env resume_text jd_text in
  0 <= Resume.skill_match_pct c <= 100
  /\ 0 <= Resume.similarity_score c <= 1
  /\ (length (Resume.matched_skills c) + length (Resume.missing_skills c)
      = Resume.jd_skills_count c)%nat
  /\ (length (Resume.matched_skills c) + length (Resume.extra_skills c)
      = Resume.resume_skills_count c)%nat
  /\ (Resume.jd_skills_count c = 0%nat ->
      Qabs (Resume.skill_match_pct c
            - (30 + 40 * semantic_similarity env resume_text jd_text)) <= 0.05
      /\ 30 <= Resume.skill_match_pct c <= 70).
Proof.
  cbv zeta. unfold Resume.compare_resume_with_jd. cbv zeta.
  cbn [Resume.skill_match_pct Resume.similarity_score Resume.matched_skills
       Resume.missing_skills Resume.extra_skills Resume.jd_skills_count
       Resume.resume_skills_count].
  rewrite !sorted_length.
  pose proof (semantic_similarity_bounds env resume_text jd_text) as [H0 H1].
  set (sim := semantic_similarity env resume_text jd_text) in *. clearbody sim.
  set (rs := Resume.extract_skills resume_text). set (js := Resume.extract_skills jd_text).
  clearbody rs js.
  assert (Hm : (size (rs ∩ js) <= size js)%nat).
  { apply subseteq_size. apply intersection_subseteq_r. }
  split; [|split; [apply (round_between 0 1); split; assumption|]].
  - apply (round_between 0 100). unfold inject_Z.
    destruct (Nat.eqb_spec (size js) 0) as [E|E]; [split; lra|].
    destruct (ratio_bounds (size (rs ∩ js)) (size js) Hm ltac:(lia)) as [R0 R1].
    set (ratio := Py.of_nat (size (rs ∩ js)) / Py.of_nat (size js)) in *. clearbody ratio.
    split; lra.
  - split; [apply size_split|]. split.
    + assert (E : rs ∩ js = js ∩ rs) by apply intersection_comm_L.
      rewrite E. apply size_split.
    + intros E. rewrite E. cbn [Nat.eqb].
      destruct (round_tenths 300 700 (50.0 * 0.6 + sim * 100 * 0.4)) as [A B].
      { unfold Qdiv, inject_Z. change (/ 10) with (1 # 10). split; lra. }
      split; [|split].
      * pose proof (round_close (50.0 * 0.6 + sim * 100 * 0.4) 1) as Hc.
        assert (Hv : 50.0 * 0.6 + sim * 100 * 0.4 == 30 + 40 * sim) by ring.
        rewrite <- Hv. eapply Qle_trans; [exact Hc | vm_compute; discriminate].
      * eapply Qle_trans; [|exact A]. vm_compute. discriminate.
      * eapply Qle_trans; [exact B|]. vm_compute. discriminate.
Qed.

Lemma prefix_app (s post : string) : String.prefix s (s ++ post) = true.
Proof.
  induction s as [|c s IH]; [destruct post; reflexivity|].
  change (String c s ++ post) with (String c (s ++ post)). cbn [String.prefix].
  destruct (Ascii.ascii_dec c c); [exact IH | congruence].
Qed.

Lemma contains_of_prefix (s hay : string) :
  String.prefix s hay = true -> Str.contains s hay = true.
Proof. intros H. destruct hay; cbn [Str.contains]; rewrite H; reflexivity. Qed.

Lemma contains_app (s pre post : string) : Str.contains s (pre ++ s ++ post) = true.
Proof.
  induction pre as [|c pre IH].
  - change (EmptyString ++ s ++ post) with (s ++ post).
    apply contains_of_prefix. apply prefix_app.
  - change (String c pre ++ s ++ post) with (String c (pre ++ s ++ post)).
    cbn [Str.contains]. rewrite IH. apply orb_true_r.
Qed.

Lemma lower_app (s1 s2 : string) : Str.lower (s1 ++ s2) = Str.lower s1 ++ Str.lower s2.
Proof.
  induction s1 as [|c s1 IH]; [reflexivity|].
  change (String c s1 ++ s2) with (String c (s1 ++ s2)). cbn [Str.lower]. rewrite IH.
  reflexivity.
Qed.

Lemma skills_lower (skill : string) : In skill COMMON_SKILLS -> Str.lower skill = skill.
Proof.
  intros H.
  assert (Hall : forallb (fun k => String.eqb (Str.lower k) k) COMMON_SKILLS = true)
    by (vm_compute; reflexivity).
  rewrite forallb_forall in Hall. apply String.eqb_eq. apply Hall. exact H.
Qed.

(** X24: a skill of more than three characters is found wherever its letters
    occur in the lower-cased text, also inside another word: "java" in
    every text that mentions JavaScript, "rust" in "frustrated". *)
Theorem skills_found_inside_words (text skill pre post : string) :
  In skill COMMON_SKILLS -> (3 < Str.len skill)%nat ->
  Str.lower text = pre ++ skill ++ post ->
  skill ∈ Resume.extract_skills text.
Proof.
  intros Hin Hlen Htext. apply extract_skills_spec. split; [|split; [exact Hin|]].
  - intros ->. cbn [Str.lower] in Htext.
    destruct pre; [destruct skill; [cbn in Hlen; lia | discriminate] | discriminate].
  - assert (E : Nat.leb (Str.len skill) 3 = false) by (apply Nat.leb_gt; exact Hlen).
    rewrite E, Htext. apply contains_app.
Qed.

Lemma skills_found_inside_words_witness :
  In "rust" COMMON_SKILLS /\ (3 < Str.len "rust")%nat
  /\ Str.lower "The delays left me frustrated." = "the delays left me f" ++ "rust" ++ "rated."
  /\ "rust" ∈ Resume.extract_skills "The delays left me frustrated."
  /\ "java" ∈ Resume.extract_skills "Five years of JavaScript.".
Proof.
  split; [vm_compute; tauto|]. split; [vm_compute; lia|]. split; [reflexivity|]. split.
  - apply (skills_found_inside_words "The delays left me frustrated." "rust"
             "the delays left me f" "rated.");
      [vm_compute; tauto | vm_compute; lia | reflexivity].
  - apply (skills_found_inside_words "Five years of JavaScript." "java"
             "five years of " "script.");
      [vm_compute; tauto | vm_compute; lia | reflexivity].
Defined.

(** *** Skills that end in a symbol *)

Lemma scan_hit (text : string) (r : Re.regex) (rest : string) (i : nat) (prev : option ascii)
    (skip : nat) :
  Re.scan text r i prev rest skip <> [] ->
  exists pre rest' i' prev',
    rest = pre ++ rest' /\ Re.match_at text r (Re.St i' prev' rest' None) <> None.
Proof.
  revert i prev skip. induction rest as [|c rest IH]; intros i prev skip H.
  - destruct skip; cbn in H; congruence.
  - destruct skip as [|k]; cbn [Re.scan] in H.
    + destruct (Re.match_at text r (Re.St i prev (String c rest) None)) as [h|] eqn:E.
      * exists EmptyString, (String c rest), i, prev. split; [reflexivity | congruence].
      * apply IH in H. destruct H as (pre & rest' & i' & prev' & -> & Hm).
        exists (String c pre), rest', i', prev'. split; [reflexivity | exact Hm].
    + apply IH in H. destruct H as (pre & rest' & i' & prev' & -> & Hm).
      exists (String c pre), rest', i', prev'. split; [reflexivity | exact Hm].
Qed.

Lemma run_lit (text w : string) (s : Re.st) (k : Re.st -> option Re.st) :
  Re.run text (Re.lit w) s k = match Re.eat w s with Some s' => k s' | None => None end.
Proof.
  revert s. induction w as [|a w IH]; intros s; [reflexivity|].
  cbn [Re.lit Re.run Re.eat]. destruct (Re.step s) as [[a' s1]|]; [|reflexivity].
  destruct (Ascii.eqb a a'); [apply IH | reflexivity].
Qed.

Lemma eat_spec (w : string) (c : ascii) (s s' : Re.st) :
  Re.eat (w ++ String c EmptyString) s = Some s' ->
  Re.rest s = (w ++ String c EmptyString) ++ Re.rest s' /\ Re.prev s' = Some c.
Proof.
  revert s. induction w as [|a w IH]; intros s H.
  - change (EmptyString ++ String c EmptyString) with (String c EmptyString) in *.
    cbn [Re.eat] in H. unfold Re.step in H. destruct (Re.rest s) as [|a' r] eqn:Er; [discriminate|].
    destruct (Ascii.eqb_spec c a') as [->|]; [|discriminate].
    injection H as <-. cbn [Re.rest Re.prev]. split; reflexivity.
  - change (String a w ++ String c EmptyString) with (String a (w ++ String c EmptyString)) in *.
    cbn [Re.eat] in H. unfold Re.step in H. destruct (Re.rest s) as [|a' r] eqn:Er; [discriminate|].
    destruct (Ascii.eqb_spec a a') as [->|]; [|discriminate].
    apply IH in H. cbn [Re.rest] in H. destruct H as [-> Hp]. split; [reflexivity | exact Hp].
Qed.

(** A whole-word match of a literal that ends in a character outside [\w]
    is followed by a character of [\w]. *)
Lemma whole_lit_symbol (text w : string) (c : ascii) (s : Re.st) :
  Re.is_w c = false ->
  Re.match_at text (Re.whole (Re.lit (w ++ String c EmptyString))) s <> None ->
  exists d post,
    Re.rest s = (w ++ String c EmptyString) ++ String d post /\ Re.is_w d = true.
Proof.
  intros Hc H. unfold Re.match_at, Re.whole in H. cbn [Re.run] in H.
  destruct (xorb (Re.word_at (Re.prev s)) (Re.word_at (Re.next s))); [|congruence].
  rewrite run_lit in H.
  destruct (Re.eat (w ++ String c EmptyString) s) as [s'|] eqn:E; [|congruence].
  apply eat_spec in E. destruct E as [Hrest Hprev].
  cbn [Re.run] in H. rewrite Hprev in H. cbn [Re.word_at] in H. rewrite Hc in H.
  cbn [xorb] in H. unfold Re.next in H.
  destruct (Re.rest s') as [|d post]; [cbn in H; congruence|].
  cbn [Re.word_at] in H. destruct (Re.is_w d) eqn:Ed; [|congruence].
  exists d, post. split; [exact Hrest | exact Ed].
Qed.

(** X25: the skills "c++" and "c#" are searched as whole words, and a word
    boundary after a symbol needs a letter, a digit or an underscore behind
    it: they are found only in a text where they are immediately followed
    by such a character, not in "C++ developer" or "C#, Java". *)
Theorem symbol_skills_need_suffix (text skill : string) :
  skill = "c++" \/ skill = "c#" ->
  skill ∈ Resume.extract_skills text ->
  exists pre d post,
    Str.lower text = pre ++ skill ++ String d post /\ Re.is_w d = true.
Proof.
  intros Hskill Hin. apply extract_skills_spec in Hin. destruct Hin as (_ & _ & Hs).
  assert (Hsearch : Re.search (Re.whole (Re.lit skill)) (Str.lower text) = true).
  { destruct Hskill as [-> | ->]; exact Hs. }
  clear Hs. unfold Re.search, Re.finditer in Hsearch.
  destruct (Re.scan (Str.lower text) (Re.whole (Re.lit skill)) 0 None (Str.lower text) 0)
    as [|h hs] eqn:E; [discriminate|].
  assert (Hne : Re.scan (Str.lower text) (Re.whole (Re.lit skill)) 0 None (Str.lower text) 0
                <> []) by (rewrite E; discriminate).
  apply scan_hit in Hne. destruct Hne as (pre & rest' & i' & prev' & Htext & Hm).
  assert (Hd : exists d post, rest' = skill ++ String d post /\ Re.is_w d = true).
  { destruct Hskill as [-> | ->].
    - apply (whole_lit_symbol (Str.lower text) "c+" "+") in Hm; [|reflexivity].
      exact Hm.
    - apply (whole_lit_symbol (Str.lower text) "c" "#") in Hm; [|reflexivity].
      exact Hm. }
  destruct Hd as (d & post & -> & Hw).
  exists pre, d, post. split; [exact Htext | exact Hw].
Qed.

Lemma symbol_skills_need_suffix_witness :
  ("c++" = "c++" \/ "c++" = "c#")
  /\ "c++" ∈ Resume.extract_skills "Modern C++17 and C# services"
  /\ exists pre d post,
       Str.lower "Modern C++17 and C# services" = pre ++ "c++" ++ String d post
       /\ Re.is_w d = true.
Proof.
  assert (H : "c++" ∈ Resume.extract_skills "Modern C++17 and C# services").
  { apply extract_skills_spec. vm_compute. repeat split; try discriminate. tauto. }
  split; [left; reflexivity|]. split; [exact H|].
  apply (symbol_skills_need_suffix "Modern C++17 and C# services" "c++");
    [left; reflexivity | exact H].
Defined.

(** ** Weights *)

(** X26: each group of weights of [config.py] sums to one: the six category
    weights, the communication, voice, confidence and structure weights.
    So the weighted sum of the six category scores lies between any two
    bounds of the scores: six scores of 80 give a raw final score of 80. *)
Theorem weights_sum_to_one :
  W_content + W_delivery + W_communication + W_voice + W_confidence + W_structure == 1
  /\ CW_grammar + CW_vocabulary_diversity + CW_sentence_complexity + CW_coherence
     + CW_professional_vocab == 1
  /\ VW_pitch_variation + VW_energy_projection + VW_pause_appropriateness
     + VW_energy_consistency + VW_rhythm_stability == 1
  /\ KW_voice_confidence + KW_eye_contact + KW_body_stability + KW_emotion_positivity == 1
  /\ SW_star_method + SW_organization + SW_conclusion == 1
  /\ forall (r : score_result) (lo hi : Q),
       lo <= content r <= hi -> lo <= delivery r <= hi -> lo <= communication r <= hi ->
       lo <= voice r <= hi -> lo <= confidence r <= hi -> lo <= structure r <= hi ->
       lo <= weighted_sum r <= hi.
Proof.
  repeat (split; [reflexivity|]). apply weighted_sum_between.
Qed.
